(** * meowcli: the agent tool-call loop, its action parser, tool executors and
      configuration loader, embedded from [src/meowcli/{tools,handler,main}.py].

    Conventions of the embedding.
    - Python [str] values are Rocq [string]s holding the UTF-8 encoding of the
      text.  The braces, quotes and JSON punctuation the program looks for are
      ASCII, and UTF-8 never uses an ASCII byte inside a multi-byte sequence,
      so searching for them byte-wise finds exactly the program's spans.
    - Values that come out of [json.loads] (and [None]) are of type [json].
    - A Python computation that may raise is a [res]: [Ret v] or [Raise e],
      where [e] carries the exception class.  [try ... except (C1, C2)]
      looks at the class.  Only subclasses of [Exception] are modelled; a
      keyboard interrupt ends the process and is outside the model, as is
      the interpreter's recursion limit.
    - Everything outside the program (terminal input, network, shell,
      refusals of the operating system) is an oracle over an abstract
      environment state, on which the theorems put no condition.
    - What the terminal shows is recorded in a trace; the rendering itself
      (panels, markdown, markup) is presentation only and is taken to
      succeed. *)

From Stdlib Require Import String Ascii List ZArith Bool Arith Lia.
From Stdlib Require Import DecimalString.
From Stdlib Require DecimalPos DecimalFacts.

#[local] Set Warnings "-register-all".
Import ListNotations.
Open Scope list_scope.
Open Scope string_scope.

(* ------------------------------------------------------------------ *)
(** ** Exceptions *)

Module Py.

Inductive exn_class :=
  | Exception
  | ValueError | JSONDecodeError | UnicodeError
  | LookupError | KeyError | IndexError
  | TypeError | AttributeError
  | OSError | FileNotFoundError | PermissionError
  | RequestException
  | EOFError
  | RuntimeError | RecursionError
  | NameError.

Definition exn_class_eqb (a b : exn_class) : bool :=
  match a, b with
  | Exception, Exception | ValueError, ValueError
  | JSONDecodeError, JSONDecodeError | UnicodeError, UnicodeError
  | LookupError, LookupError | KeyError, KeyError | IndexError, IndexError
  | TypeError, TypeError | AttributeError, AttributeError
  | OSError, OSError | FileNotFoundError, FileNotFoundError
  | PermissionError, PermissionError
  | RequestException, RequestException | EOFError, EOFError
  | RuntimeError, RuntimeError | RecursionError, RecursionError
  | NameError, NameError => true
  | _, _ => false
  end.

(** The direct base class, as in the Python class hierarchy. *)
Definition base_of (c : exn_class) : option exn_class :=
  match c with
  | Exception => None
  | JSONDecodeError | UnicodeError => Some ValueError
  | KeyError | IndexError => Some LookupError
  | FileNotFoundError | PermissionError => Some OSError
  | RecursionError => Some RuntimeError
  | _ => Some Exception
  end.

(** [isinstance_of c d]: an exception of class [c] is caught by [except d]. *)
Definition isinstance_of (c d : exn_class) : bool :=
  exn_class_eqb c d
  || match base_of c with
     | None => false
     | Some b =>
         exn_class_eqb b d
         || match base_of b with
            | None => false
            | Some b' => exn_class_eqb b' d
            end
     end.

Record exn := mkExn { cls : exn_class; msg : string }.

Inductive res (A : Type) :=
  | Ret (a : A)
  | Raise (e : exn).
Arguments Ret {A} a.
Arguments Raise {A} e.

Definition bind {A B} (m : res A) (k : A -> res B) : res B :=
  match m with
  | Ret a => k a
  | Raise e => Raise e
  end.

Definition caught_by (classes : list exn_class) (e : exn) : bool :=
  existsb (isinstance_of (cls e)) classes.

(** [try: body except classes as e: handler e]. *)
Definition try_except {A} (body : res A) (classes : list exn_class)
    (handler : exn -> res A) : res A :=
  match body with
  | Ret a => Ret a
  | Raise e => if caught_by classes e then handler e else Raise e
  end.

Definition raise {A} (c : exn_class) (m : string) : res A :=
  Raise (mkExn c m).

End Py.

Import Py.

Declare Scope res_scope.
Delimit Scope res_scope with res.
Notation "x <- m ;; k" := (bind m (fun x => k))
  (at level 61, m at next level, right associativity) : res_scope.
Notation "' p <- m ;; k" := (bind m (fun x => let p := x in k))
  (at level 61, p pattern, m at next level, right associativity) : res_scope.
Open Scope res_scope.

(* ------------------------------------------------------------------ *)
(** ** JSON values, as Python holds them after [json.loads] *)

(** A float keeps the lexeme it was read from: the program never computes
    with one.  A [dict] keeps its insertion order and has unique keys. *)
Inductive json :=
  | JNull
  | JBool (b : bool)
  | JInt (z : Z)
  | JFloat (lexeme : string)
  | JStr (s : string)
  | JArr (items : list json)
  | JObj (fields : list (string * json)).

Definition is_dict (v : json) : bool :=
  match v with JObj _ => true | _ => false end.

Fixpoint assoc_get {A} (k : string) (d : list (string * A)) : option A :=
  match d with
  | [] => None
  | (k', v) :: d' => if String.eqb k k' then Some v else assoc_get k d'
  end.

(** [d[k] = v]: an existing key keeps its place, a new key goes last. *)
Fixpoint assoc_set {A} (k : string) (v : A) (d : list (string * A))
    : list (string * A) :=
  match d with
  | [] => [(k, v)]
  | (k', v') :: d' =>
      if String.eqb k k' then (k', v) :: d' else (k', v') :: assoc_set k v d'
  end.

Definition assoc_mem {A} (k : string) (d : list (string * A)) : bool :=
  match assoc_get k d with Some _ => true | None => false end.

(** The name Python prints for the type of a value, in its error texts. *)
Definition type_name (v : json) : string :=
  match v with
  | JNull => "NoneType" | JBool _ => "bool" | JInt _ => "int"
  | JFloat _ => "float" | JStr _ => "str" | JArr _ => "list"
  | JObj _ => "dict"
  end.

Definition hashable (k : json) : bool :=
  match k with JArr _ | JObj _ => false | _ => true end.

(** [d.get(k, default)].  Keys of every dict of the program are strings, so a
    hashable key that is not a string is never found. *)
Definition py_get (d : json) (k : json) (default : json) : res json :=
  match d with
  | JObj fields =>
      match k with
      | JStr s =>
          Ret (match assoc_get s fields with Some v => v | None => default end)
      | _ =>
          if hashable k then Ret default
          else raise TypeError ("unhashable type: '" ++ type_name k ++ "'")
      end
  | _ =>
      raise AttributeError
        ("'" ++ type_name d ++ "' object has no attribute 'get'")
  end.

(** [v[k]] for a string key. *)
Definition py_getitem (v : json) (k : string) : res json :=
  match v with
  | JObj fields =>
      match assoc_get k fields with
      | Some x => Ret x
      | None => raise KeyError ("'" ++ k ++ "'")
      end
  | JStr _ => raise TypeError "string indices must be integers"
  | JArr _ => raise TypeError "list indices must be integers or slices, not str"
  | _ => raise TypeError ("'" ++ type_name v ++ "' object is not subscriptable")
  end.

(** [v[0]].  (For a string the program only ever subscripts the result
    with a string key next, which is a [TypeError] whatever the character.) *)
Definition py_getitem0 (v : json) : res json :=
  match v with
  | JArr (x :: _) => Ret x
  | JArr [] => raise IndexError "list index out of range"
  | JStr (String c _) => Ret (JStr (String c EmptyString))
  | JStr EmptyString => raise IndexError "string index out of range"
  | JObj _ => raise KeyError "0"
  | _ => raise TypeError ("'" ++ type_name v ++ "' object is not subscriptable")
  end.

(* ------------------------------------------------------------------ *)
(** ** Text helpers *)

Definition chr_lbrace : ascii := "{"%char.
Definition chr_rbrace : ascii := "}"%char.
Definition chr_quote : ascii := Ascii.ascii_of_nat 34.
Definition chr_backslash : ascii := Ascii.ascii_of_nat 92.
Definition chr_lf : ascii := Ascii.ascii_of_nat 10.
Definition chr_cr : ascii := Ascii.ascii_of_nat 13.
Definition chr_tab : ascii := Ascii.ascii_of_nat 9.

Definition str1 (c : ascii) : string := String c EmptyString.
Definition LF : string := str1 chr_lf.

(** [s[i : i + n]]. *)
Fixpoint slice (i n : nat) (s : string) : string :=
  match i, s with
  | 0, _ =>
      match n, s with
      | S n', String c s' => String c (slice 0 n' s')
      | _, _ => EmptyString
      end
  | S i', String _ s' => slice i' n s'
  | S _, EmptyString => EmptyString
  end.

(** [s.find(c)] and [s.rfind(c)] for a one-character needle. *)
Fixpoint find (c : ascii) (s : string) : option nat :=
  match s with
  | EmptyString => None
  | String a s' => if Ascii.eqb a c then Some 0 else option_map S (find c s')
  end.

Fixpoint rfind (c : ascii) (s : string) : option nat :=
  match s with
  | EmptyString => None
  | String a s' =>
      match rfind c s' with
      | Some j => Some (S j)
      | None => if Ascii.eqb a c then Some 0 else None
      end
  end.

Fixpoint starts_with (p s : string) : bool :=
  match p, s with
  | EmptyString, _ => true
  | String a p', String b s' => Ascii.eqb a b && starts_with p' s'
  | String _ _, EmptyString => false
  end.

(** [needle in s]. *)
Fixpoint contains (needle s : string) : bool :=
  starts_with needle s
  || match s with
     | EmptyString => false
     | String _ s' => contains needle s'
     end.

Definition upper_to_lower (c : ascii) : ascii :=
  let n := Ascii.nat_of_ascii c in
  if Nat.leb 65 n && Nat.leb n 90 then Ascii.ascii_of_nat (n + 32) else c.

(** [s.lower()], as far as it can produce ASCII letters: the capitals A-Z,
    and the Kelvin sign U+212A (bytes E2 84 AA), whose lower case is [k].
    No other character maps to an ASCII letter, so comparing the result
    with an ASCII keyword is exact. *)
Fixpoint lower (s : string) : string :=
  match s with
  | EmptyString => EmptyString
  | String c s' =>
      if starts_with (String (Ascii.ascii_of_nat 226)
                        (String (Ascii.ascii_of_nat 132)
                           (str1 (Ascii.ascii_of_nat 170)))) s
      then match s' with
           | String _ (String _ s'') => String "k"%char (lower s'')
           | _ => String c (lower s')
           end
      else String (upper_to_lower c) (lower s')
  end.

(* ------------------------------------------------------------------ *)
(** ** The regular expression of the action parser

    [re.search(r"\{.*\}", response_text, re.DOTALL)].  The pattern is a
    sequence of literals and a greedy star over the dot; the matcher is the
    backtracking one of Python's [re]: the star first takes as much as it
    can and gives characters back one by one until the rest matches, and
    [search] tries the start positions from left to right. *)

Inductive atom :=
  | Lit (c : ascii)
  | DotStar (dotall : bool).

Definition regex := list atom.

Definition dot_matches (dotall : bool) (c : ascii) : bool :=
  dotall || negb (Ascii.eqb c chr_lf).

(** [match_here re s]: the length of the match of [re] anchored at the start
    of [s], if there is one. *)
Fixpoint match_here (re : regex) : string -> option nat :=
  match re with
  | [] => fun _ => Some 0
  | Lit c :: re' =>
      fun s =>
        match s with
        | String a s' =>
            if Ascii.eqb a c then option_map S (match_here re' s') else None
        | EmptyString => None
        end
  | DotStar dotall :: re' =>
      fix star (s : string) : option nat :=
        match s with
        | String a s' =>
            if dot_matches dotall a then
              match star s' with
              | Some n => Some (S n)
              | None => match_here re' s
              end
            else match_here re' s
        | EmptyString => match_here re' s
        end
  end.

(** [re.search]: the start and length of the leftmost match. *)
Fixpoint search_from (re : regex) (s : string) (pos : nat)
    : option (nat * nat) :=
  match match_here re s with
  | Some n => Some (pos, n)
  | None =>
      match s with
      | String _ s' => search_from re s' (S pos)
      | EmptyString => None
      end
  end.

Definition re_search (re : regex) (s : string) : option (nat * nat) :=
  search_from re s 0.

(** [m.group()]. *)
Definition group (s : string) (m : nat * nat) : string :=
  slice (fst m) (snd m) s.

(** [r"\{.*\}"] with [re.DOTALL]. *)
Definition brace_re : regex := [Lit chr_lbrace; DotStar true; Lit chr_rbrace].

(** What is left of [brace_re] after the opening brace. *)
Definition tail_re : regex := [DotStar true; Lit chr_rbrace].

(** What the specification says the parser does: find the first opening
    brace, find the last closing brace, slice. *)
Definition greedy_span (s : string) : option string :=
  match find chr_lbrace s, rfind chr_rbrace s with
  | Some i, Some j =>
      if Nat.ltb i j then Some (slice i (j - i + 1) s) else None
  | _, _ => None
  end.

(** The reply holds an opening brace with a closing brace somewhere after. *)
Definition has_brace_pair (s : string) : Prop :=
  exists a b c : string,
    s = (a ++ str1 chr_lbrace ++ b ++ str1 chr_rbrace ++ c)%string.

(* ------------------------------------------------------------------ *)
(** ** [json.loads]

    The decoder of the Python standard library ([json.decoder] with the
    accelerated scanner that CPython uses), with its default options:
    strict strings, no hooks, [NaN] and the infinities accepted.  A
    position in the text is the remaining suffix; the texts of the errors
    are kept without their line and column.  Recursion goes over [fuel]; the
    text's own length is enough of it (lemma [scan_once_fuel] below). *)

Definition decode_error {A} (m : string) : res A := raise JSONDecodeError m.

(** A scan that returns has moved forward, and one that raises raises a
    [JSONDecodeError]. *)
Definition decode_ok {A} (s : string) (r : res (A * string)) : Prop :=
  match r with
  | Ret (_, rest) => String.length rest < String.length s
  | Raise e => cls e = JSONDecodeError
  end.

Definition is_ws (c : ascii) : bool :=
  Ascii.eqb c " "%char || Ascii.eqb c chr_tab
  || Ascii.eqb c chr_lf || Ascii.eqb c chr_cr.

Fixpoint skip_ws (s : string) : string :=
  match s with
  | String c s' => if is_ws c then skip_ws s' else s
  | EmptyString => s
  end.

Definition is_digit (c : ascii) : bool :=
  let n := Ascii.nat_of_ascii c in Nat.leb 48 n && Nat.leb n 57.

Definition hex_value (c : ascii) : option N :=
  let n := Ascii.nat_of_ascii c in
  if Nat.leb 48 n && Nat.leb n 57 then Some (N.of_nat (n - 48))
  else if Nat.leb 65 n && Nat.leb n 70 then Some (N.of_nat (n - 55))
  else if Nat.leb 97 n && Nat.leb n 102 then Some (N.of_nat (n - 87))
  else None.

(** The four hexadecimal digits of a [\uXXXX] escape. *)
Definition decode_uXXXX (s : string) : option (N * string) :=
  match s with
  | String a (String b (String c (String d r))) =>
      match hex_value a, hex_value b, hex_value c, hex_value d with
      | Some x, Some y, Some z, Some w =>
          Some ((((x * 16 + y) * 16 + z) * 16 + w)%N, r)
      | _, _, _, _ => None
      end
  | _ => None
  end.

Definition byte_of_N (n : N) : ascii := Ascii.ascii_of_N n.

(** [chr(cp)] in the UTF-8 representation of the embedding (a lone
    surrogate, which a Python string can hold, gets the three-byte form). *)
Definition utf8_of_codepoint (cp : N) : string :=
  (if cp <? 128 then str1 (byte_of_N cp)
   else if cp <? 2048 then
     String (byte_of_N (192 + cp / 64))
       (str1 (byte_of_N (128 + cp mod 64)))
   else if cp <? 65536 then
     String (byte_of_N (224 + cp / 4096))
       (String (byte_of_N (128 + (cp / 64) mod 64))
          (str1 (byte_of_N (128 + cp mod 64))))
   else
     String (byte_of_N (240 + cp / 262144))
       (String (byte_of_N (128 + (cp / 4096) mod 64))
          (String (byte_of_N (128 + (cp / 64) mod 64))
             (str1 (byte_of_N (128 + cp mod 64))))))%N.

(** The table [BACKSLASH] of the decoder. *)
Definition backslash_escape (c : ascii) : option ascii :=
  if Ascii.eqb c chr_quote then Some chr_quote
  else if Ascii.eqb c chr_backslash then Some chr_backslash
  else if Ascii.eqb c "/"%char then Some "/"%char
  else if Ascii.eqb c "b"%char then Some (Ascii.ascii_of_nat 8)
  else if Ascii.eqb c "f"%char then Some (Ascii.ascii_of_nat 12)
  else if Ascii.eqb c "n"%char then Some chr_lf
  else if Ascii.eqb c "r"%char then Some chr_cr
  else if Ascii.eqb c "t"%char then Some chr_tab
  else None.

(** [scanstring]: the text after the opening quote, up to and including the
    closing one.  [fuel] bounds the number of characters looked at. *)
Fixpoint scanstring (fuel : nat) (s : string) : res (string * string) :=
  match fuel with
  | 0 => raise RecursionError "scanstring"
  | S fuel' =>
      match s with
      | EmptyString => decode_error "Unterminated string starting at"
      | String c r =>
          if Ascii.eqb c chr_quote then Ret (EmptyString, r)
          else if Ascii.eqb c chr_backslash then
            match r with
            | EmptyString => decode_error "Unterminated string starting at"
            | String e r1 =>
                if Ascii.eqb e "u"%char then
                  match decode_uXXXX r1 with
                  | None => decode_error "Invalid \uXXXX escape"
                  | Some (uni, r2) =>
                      if ((55296 <=? uni) && (uni <=? 56319))%N then
                        match r2 with
                        | String b1 (String b2 r3) =>
                            if Ascii.eqb b1 chr_backslash
                               && Ascii.eqb b2 "u"%char then
                              match decode_uXXXX r3 with
                              | None => decode_error "Invalid \uXXXX escape"
                              | Some (uni2, r4) =>
                                  if ((56320 <=? uni2) && (uni2 <=? 57343))%N
                                  then
                                    '(rest, r') <- scanstring fuel' r4 ;;
                                    Ret ((utf8_of_codepoint
                                            (65536 + ((uni - 55296) * 1024
                                                      + (uni2 - 56320)))%N
                                          ++ rest)%string, r')
                                  else
                                    '(rest, r') <- scanstring fuel' r2 ;;
                                    Ret ((utf8_of_codepoint uni ++ rest)%string,
                                         r')
                              end
                            else
                              '(rest, r') <- scanstring fuel' r2 ;;
                              Ret ((utf8_of_codepoint uni ++ rest)%string, r')
                        | _ =>
                            '(rest, r') <- scanstring fuel' r2 ;;
                            Ret ((utf8_of_codepoint uni ++ rest)%string, r')
                        end
                      else
                        '(rest, r') <- scanstring fuel' r2 ;;
                        Ret ((utf8_of_codepoint uni ++ rest)%string, r')
                  end
                else
                  match backslash_escape e with
                  | None => decode_error "Invalid \escape"
                  | Some x =>
                      '(rest, r') <- scanstring fuel' r1 ;;
                      Ret (String x rest, r')
                  end
            end
          else if Nat.ltb (Ascii.nat_of_ascii c) 32 then
            decode_error "Invalid control character at"
          else
            '(rest, r') <- scanstring fuel' r ;;
            Ret (String c rest, r')
      end
  end.

(** The longest run of decimal digits at the start of [s]. *)
Fixpoint take_digits (s : string) : string * string :=
  match s with
  | String c s' =>
      if is_digit c then
        let '(d, r) := take_digits s' in (String c d, r)
      else (EmptyString, s)
  | EmptyString => (EmptyString, s)
  end.

Fixpoint digits_value (acc : Z) (d : string) : Z :=
  match d with
  | String c d' =>
      digits_value (acc * 10 + Z.of_nat (Ascii.nat_of_ascii c - 48)) d'
  | EmptyString => acc
  end.

(** The integer part of [NUMBER_RE]: an optional minus sign, then a single
    zero or a nonzero digit followed by digits. *)
Definition scan_integer (s : string) : option (string * string) :=
  let '(sign, s1) :=
    match s with
    | String c r => if Ascii.eqb c "-"%char then ("-", r) else ("", s)
    | EmptyString => ("", s)
    end in
  match s1 with
  | String c r =>
      if Ascii.eqb c "0"%char then Some ((sign ++ "0")%string, r)
      else if is_digit c then
        let '(d, r') := take_digits r in
        Some ((sign ++ String c d)%string, r')
      else None
  | EmptyString => None
  end.

(** The optional fraction of [NUMBER_RE]: a dot and at least one digit. *)
Definition scan_frac (s : string) : string * string :=
  match s with
  | String c r =>
      if Ascii.eqb c "."%char then
        match take_digits r with
        | (EmptyString, _) => (EmptyString, s)
        | (d, r') => (String c d, r')
        end
      else (EmptyString, s)
  | EmptyString => (EmptyString, s)
  end.

(** The optional exponent of [NUMBER_RE]: e or E, an optional sign, and at
    least one digit. *)
Definition scan_exp (s : string) : string * string :=
  match s with
  | String e r =>
      if Ascii.eqb e "e"%char || Ascii.eqb e "E"%char then
        let '(sign, r1) :=
          match r with
          | String c r0 =>
              if Ascii.eqb c "-"%char || Ascii.eqb c "+"%char
              then (str1 c, r0) else (EmptyString, r)
          | EmptyString => (EmptyString, r)
          end in
        match take_digits r1 with
        | (EmptyString, _) => (EmptyString, s)
        | (d, r') => ((String e sign ++ d)%string, r')
        end
      else (EmptyString, s)
  | EmptyString => (EmptyString, s)
  end.

Definition int_of_lexeme (l : string) : Z :=
  match l with
  | String c d =>
      if Ascii.eqb c "-"%char then (- digits_value 0 d)%Z
      else digits_value 0 l
  | EmptyString => 0%Z
  end.

(** [match_number] and the choice between [int] and [float]. *)
Definition scan_number (s : string) : option (json * string) :=
  match scan_integer s with
  | None => None
  | Some (integer, r) =>
      let '(frac, r1) := scan_frac r in
      let '(exp, r2) := scan_exp r1 in
      match frac, exp with
      | EmptyString, EmptyString => Some (JInt (int_of_lexeme integer), r2)
      | _, _ => Some (JFloat (integer ++ frac ++ exp)%string, r2)
      end
  end.

(** [dict(pairs)]: a repeated key keeps its first place and its last value. *)
Definition dict_of_pairs (pairs : list (string * json))
    : list (string * json) :=
  fold_left (fun d kv => assoc_set (fst kv) (snd kv) d) pairs [].

Section Decoder.

(** [scan_once], handed down to [JSONObject] and [JSONArray] as the
    library does. *)
Variable scan_once : string -> res (json * string).

(** The loop of [JSONObject]; [s] stands after the quote that opens a
    key. *)
Fixpoint object_loop (fuel : nat) (s : string)
    (pairs : list (string * json)) : res (list (string * json) * string) :=
  match fuel with
  | 0 => raise RecursionError "JSONObject"
  | S fuel' =>
      '(key, s1) <- scanstring (S (String.length s)) s ;;
      match skip_ws s1 with
      | String c1 s2 =>
          if Ascii.eqb c1 ":"%char then
            '(value, s3) <- scan_once (skip_ws s2) ;;
            let pairs' := (pairs ++ [(key, value)])%list in
            match skip_ws s3 with
            | String c s4 =>
                if Ascii.eqb c chr_rbrace then Ret (pairs', s4)
                else if Ascii.eqb c ","%char then
                  match skip_ws s4 with
                  | String q s5 =>
                      if Ascii.eqb q chr_quote
                      then object_loop fuel' s5 pairs'
                      else decode_error
                        "Expecting property name enclosed in double quotes"
                  | EmptyString =>
                      decode_error
                        "Expecting property name enclosed in double quotes"
                  end
                else decode_error "Expecting ',' delimiter"
            | EmptyString => decode_error "Expecting ',' delimiter"
            end
          else decode_error "Expecting ':' delimiter"
      | EmptyString => decode_error "Expecting ':' delimiter"
      end
  end.

(** [JSONObject]; [s] stands after the opening brace. *)
Definition JSONObject (fuel : nat) (s : string)
    : res (list (string * json) * string) :=
  match skip_ws s with
  | String c r =>
      if Ascii.eqb c chr_rbrace then Ret ([], r)
      else if Ascii.eqb c chr_quote then
        '(pairs, r') <- object_loop fuel r [] ;;
        Ret (dict_of_pairs pairs, r')
      else decode_error "Expecting property name enclosed in double quotes"
  | EmptyString =>
      decode_error "Expecting property name enclosed in double quotes"
  end.

(** The loop of [JSONArray]; [s] stands at the start of a value. *)
Fixpoint array_loop (fuel : nat) (s : string) (values : list json)
    : res (list json * string) :=
  match fuel with
  | 0 => raise RecursionError "JSONArray"
  | S fuel' =>
      '(value, s1) <- scan_once s ;;
      let values' := (values ++ [value])%list in
      match skip_ws s1 with
      | String c s2 =>
          if Ascii.eqb c "]"%char then Ret (values', s2)
          else if Ascii.eqb c ","%char
          then array_loop fuel' (skip_ws s2) values'
          else decode_error "Expecting ',' delimiter"
      | EmptyString => decode_error "Expecting ',' delimiter"
      end
  end.

(** [JSONArray]; [s] stands after the opening bracket. *)
Definition JSONArray (fuel : nat) (s : string) : res (list json * string) :=
  match skip_ws s with
  | String c r =>
      if Ascii.eqb c "]"%char then Ret ([], r)
      else array_loop fuel (skip_ws s) []
  | EmptyString => array_loop fuel EmptyString []
  end.

End Decoder.

(** [scan_once]: one JSON value at the start of [s]. *)
Fixpoint scan_once (fuel : nat) (s : string) : res (json * string) :=
  match fuel with
  | 0 => raise RecursionError "scan_once"
  | S fuel' =>
      match s with
      | EmptyString => decode_error "Expecting value"
      | String c r =>
          if Ascii.eqb c chr_quote then
            '(str, r') <- scanstring (S (String.length r)) r ;;
            Ret (JStr str, r')
          else if Ascii.eqb c chr_lbrace then
            '(fields, r') <- JSONObject (scan_once fuel') fuel' r ;;
            Ret (JObj fields, r')
          else if Ascii.eqb c "["%char then
            '(items, r') <- JSONArray (scan_once fuel') fuel' r ;;
            Ret (JArr items, r')
          else if starts_with "null" s then Ret (JNull, slice 4 (String.length s) s)
          else if starts_with "true" s
          then Ret (JBool true, slice 4 (String.length s) s)
          else if starts_with "false" s
          then Ret (JBool false, slice 5 (String.length s) s)
          else
            match scan_number s with
            | Some vr => Ret vr
            | None =>
                if starts_with "NaN" s
                then Ret (JFloat "nan", slice 3 (String.length s) s)
                else if starts_with "Infinity" s
                then Ret (JFloat "inf", slice 8 (String.length s) s)
                else if starts_with "-Infinity" s
                then Ret (JFloat "-inf", slice 9 (String.length s) s)
                else decode_error "Expecting value"
            end
      end
  end.

(** The byte order mark U+FEFF. *)
Definition BOM : string :=
  String (Ascii.ascii_of_nat 239)
    (String (Ascii.ascii_of_nat 187) (str1 (Ascii.ascii_of_nat 191))).

(** [json.loads(s)] for a [str]. *)
Definition json_loads (s : string) : res json :=
  if starts_with BOM s
  then decode_error "Unexpected UTF-8 BOM (decode using utf-8-sig)"
  else
    '(obj, r) <- scan_once (S (String.length s)) (skip_ws s) ;;
    match skip_ws r with
    | EmptyString => Ret obj
    | String _ _ => decode_error "Extra data"
    end.

(** [k in v] for a string [k]. *)
Definition py_in (k : string) (v : json) : res bool :=
  match v with
  | JObj fields => Ret (assoc_mem k fields)
  | JArr items => Ret (existsb (fun x => match x with
                                         | JStr s => String.eqb s k
                                         | _ => false
                                         end) items)
  | JStr s => Ret (contains k s)
  | _ =>
      raise TypeError
        ("argument of type '" ++ type_name v ++ "' is not iterable")
  end.

(** [v[k] = x] for a string key. *)
Definition py_setitem (v : json) (k : string) (x : json) : res json :=
  match v with
  | JObj fields => Ret (JObj (assoc_set k x fields))
  | JArr _ =>
      raise TypeError "list indices must be integers or slices, not str"
  | _ =>
      raise TypeError
        ("'" ++ type_name v ++ "' object does not support item assignment")
  end.

(** [v.items()]. *)
Definition py_items (v : json) : res (list (string * json)) :=
  match v with
  | JObj fields => Ret fields
  | _ =>
      raise AttributeError
        ("'" ++ type_name v ++ "' object has no attribute 'items'")
  end.

(** [v == s] for a string literal [s]. *)
Definition is_str (s : string) (v : json) : bool :=
  match v with JStr x => String.eqb x s | _ => false end.

Definition str_of_Z (z : Z) : string := NilZero.string_of_int (Z.to_int z).

(** [sep.join(parts)]. *)
Fixpoint join (sep : string) (parts : list string) : string :=
  match parts with
  | [] => ""
  | [p] => p
  | p :: rest => p ++ sep ++ join sep rest
  end.

(* ------------------------------------------------------------------ *)
(** ** The world of the program

    The contents of regular files are kept by path.  Everything else that
    the program touches is an oracle over an environment state [E]: what
    the user types, what the remote endpoint answers, what a shell command
    prints and does, which operations the operating system refuses. *)

(** The operations the tool executors and the configuration loader ask of
    the operating system. *)
Inductive os_op :=
  | OpOpenRead (path : string)
  | OpOpenWrite (path : string)
  | OpWrite (path content : string).

(** A [requests.Response]: what [raise_for_status()] and [json()] do, and
    the raw [text]. *)
Record Response := mkResponse {
  raise_for_status : res unit;
  response_json : res json;
  response_text : string
}.

(** What the terminal shows and what goes out to the network, in order.
    Rendering is presentation only and is taken to succeed. *)
Inductive effect :=
  | Print (text : string)
  | PrintPanel (body : json)
  | PrintMarkdown (body : json)
  | PrintToolCall (tool_name : json) (args : list (string * json))
  | Post (url : string) (headers data : json).

Record Message := mkMessage { role : string; content : json }.

Definition message_json (m : Message) : json :=
  JObj [("role", JStr (role m)); ("content", content m)].

Inductive control :=
  | AwaitUserInput
  | SendToModel
  | Returned
  | Escaped (e : exn).

(** The contents of the regular files, and the rest of the environment. *)
Record World (E : Type) := mkWorld {
  files : string -> option string;
  env : E
}.
Arguments mkWorld {E}.
Arguments files {E}.
Arguments env {E}.

(** The host of the program: the oracles of its environment and the two
    constants that the platform fixes. *)
Record Host (E : Type) := mkHost {
  (** [console.input(...)]: the line typed, or the exception of a closed
      terminal. *)
  console_input : E -> res string * E;
  (** [requests.post(url, headers=..., json=...)]. *)
  requests_post : E -> string -> json -> json -> res Response * E;
  (** [subprocess.run(command, shell=True, capture_output=True, text=True)]:
      the captured standard output and standard error, or the exception of a
      failed launch; the command may change the world. *)
  subprocess_run : World E -> json -> res (string * string) * World E;
  (** [os.listdir(path)]. *)
  os_listdir : World E -> json -> res (list string);
  (** The exception, if any, with which the operating system refuses an
      operation (permissions, a missing directory, a full disk, text that
      does not decode). *)
  os_refuses : E -> os_op -> option exn;
  (** [os.path.exists] for what is not a regular file of [files]. *)
  os_exists : E -> string -> bool;
  (** [str(x)] of a float, a list or a dict, and whether a float is not
      zero: the program prints such values but never computes with them. *)
  str_of_other : json -> string;
  float_nonzero : string -> bool;
  (** The constants [SYSTEM_PROMPT] (handler.py) and [CONFIG_FILE]
      (tools.py, chosen by platform when the module is loaded). *)
  SYSTEM_PROMPT : string;
  CONFIG_FILE : string
}.
Arguments mkHost {E}.
Arguments console_input {E}.
Arguments requests_post {E}.
Arguments subprocess_run {E}.
Arguments os_listdir {E}.
Arguments os_refuses {E}.
Arguments os_exists {E}.
Arguments str_of_other {E}.
Arguments float_nonzero {E}.
Arguments SYSTEM_PROMPT {E}.
Arguments CONFIG_FILE {E}.

(* ------------------------------------------------------------------ *)
(** ** Computations over a state that may raise *)

Section StateExn.

Variable S : Type.

Definition SE (A : Type) : Type := S -> res A * S.

Definition ret {A} (a : A) : SE A := fun st => (Ret a, st).

Definition bindM {A B} (m : SE A) (k : A -> SE B) : SE B :=
  fun st =>
    match m st with
    | (Ret a, st') => k a st'
    | (Raise e, st') => (Raise e, st')
    end.

Definition lift {A} (r : res A) : SE A := fun st => (r, st).

(** The first [except] clause that catches [e]. *)
Fixpoint find_clause {A} (e : exn)
    (clauses : list (list exn_class * (exn -> SE A)))
    : option (exn -> SE A) :=
  match clauses with
  | [] => None
  | (classes, handler) :: rest =>
      if caught_by classes e then Some handler else find_clause e rest
  end.

(** [try: body except classes1: handler1 except classes2: handler2 ...];
    what [body] did to the state before it raised stays done, and an
    exception raised by a handler is not caught by a sibling clause. *)
Definition tryM {A} (body : SE A)
    (clauses : list (list exn_class * (exn -> SE A))) : SE A :=
  fun st =>
    match body st with
    | (Ret a, st') => (Ret a, st')
    | (Raise e, st') =>
        match find_clause e clauses with
        | Some handler => handler e st'
        | None => (Raise e, st')
        end
    end.

End StateExn.

Arguments ret {S A}.
Arguments bindM {S A B}.
Arguments lift {S A}.
Arguments find_clause {S A}.
Arguments tryM {S A}.

Declare Scope M_scope.
Delimit Scope M_scope with M.
Notation "x <- m ;; k" := (bindM m (fun x => k))
  (at level 61, m at next level, right associativity) : M_scope.
Notation "m ;;; k" := (bindM m (fun _ => k))
  (at level 61, right associativity) : M_scope.

Section Agent.

Context {E : Type}.
Variable host : Host E.

(** [str(v)], as an f-string formats a value. *)
Definition py_str (v : json) : string :=
  match v with
  | JNull => "None"
  | JBool true => "True"
  | JBool false => "False"
  | JInt z => str_of_Z z
  | JStr s => s
  | _ => str_of_other host v
  end.

(** Truth value of [v], as [if v] and [not v] see it. *)
Definition py_truthy (v : json) : bool :=
  match v with
  | JNull => false
  | JBool b => b
  | JInt z => negb (Z.eqb z 0)
  | JFloat l => float_nonzero host l
  | JStr s => negb (String.eqb s "")
  | JArr l => match l with [] => false | _ => true end
  | JObj d => match d with [] => false | _ => true end
  end.

Definition set_file (w : World E) (p c : string) : World E :=
  mkWorld (fun p' => if String.eqb p' p then Some c else files w p') (env w).

(** A value used where a path is expected.  A descriptor number given as a
    path is taken not to be open. *)
Definition as_path (p : json) : res string :=
  match p with
  | JStr s => Ret s
  | JInt _ | JBool _ => raise OSError "[Errno 9] Bad file descriptor"
  | _ =>
      raise TypeError
        ("expected str, bytes or os.PathLike object, not " ++ type_name p)
  end.

(** [open(path, "r", encoding="utf-8")] followed by [read()]. *)
Definition open_read (w : World E) (path : json) : res string :=
  p <- as_path path ;;
  match os_refuses host (env w) (OpOpenRead p) with
  | Some e => Raise e
  | None =>
      match files w p with
      | Some c => Ret c
      | None =>
          raise FileNotFoundError
            ("[Errno 2] No such file or directory: '" ++ p ++ "'")
      end
  end.

(** [open(path, "w", encoding="utf-8")]: the file is created or emptied. *)
Definition open_write (path : json) : SE (World E) string :=
  fun w =>
    match as_path path with
    | Raise e => (Raise e, w)
    | Ret p =>
        match os_refuses host (env w) (OpOpenWrite p) with
        | Some e => (Raise e, w)
        | None => (Ret p, set_file w p "")
        end
    end.

(** [f.write(content)] and the closing of the file. *)
Definition file_write (p : string) (c : json) : SE (World E) unit :=
  fun w =>
    match c with
    | JStr text =>
        match os_refuses host (env w) (OpWrite p text) with
        | Some e => (Raise e, w)
        | None => (Ret tt, set_file w p text)
        end
    | _ =>
        (raise TypeError
           ("write() argument must be str, not " ++ type_name c), w)
    end.

Definition path_exists (w : World E) (p : string) : bool :=
  match files w p with Some _ => true | None => os_exists host (env w) p end.

(* ---------------------------------------------------------------- *)
(** ** Tool executors (tools.py) *)

Definition agent_list_directory (w : World E) (path : json) : res string :=
  try_except
    (entries <- os_listdir host w path ;;
     Ret ("Содержимое директории '" ++ py_str path ++ "':" ++ LF
          ++ join LF entries))
    [Exception]
    (fun e => Ret ("Ошибка при просмотре директории: " ++ msg e)).

Definition agent_read_file (w : World E) (path : json) : res string :=
  try_except
    (text <- open_read w path ;;
     Ret ("Содержимое файла '" ++ py_str path ++ "':" ++ LF ++ "```" ++ LF
          ++ text ++ LF ++ "```"))
    [Exception]
    (fun e => Ret ("Ошибка при чтении файла: " ++ msg e)).

Definition write_ok (path : json) : string :=
  "Файл '" ++ py_str path ++ "' успешно записан.".

Definition write_failed (e : exn) : string :=
  "Ошибка при записи файла: " ++ msg e.

Definition agent_write_file (path content : json) : SE (World E) string :=
  (tryM
     (p <- open_write path ;;
      file_write p content ;;;
      ret (write_ok path))
     [([Exception], fun e => ret (write_failed e))])%M.

Definition no_output : string := "Команда выполнена без вывода.".

Definition shell_output (stdout stderr : string) : string :=
  let output := "" in
  let output :=
    if negb (String.eqb stdout "")
    then output ++ "STDOUT:" ++ LF ++ stdout ++ LF else output in
  let output :=
    if negb (String.eqb stderr "")
    then output ++ "STDERR:" ++ LF ++ stderr ++ LF else output in
  if String.eqb output "" then no_output else output.

Definition shell_failed (e : exn) : string :=
  "Ошибка при выполнении команды: " ++ msg e.

Definition agent_execute_shell (command : json) : SE (World E) string :=
  (tryM
     (result <- (fun w => subprocess_run host w command) ;;
      ret (shell_output (fst result) (snd result)))
     [([Exception], fun e => ret (shell_failed e))])%M.

(* ---------------------------------------------------------------- *)
(** ** The agent loop (handler.py, [chat_with_bot]) *)

Definition PROVIDER_URLS : json :=
  JObj
    [("base",
      JObj [("models", JStr "https://text.pollinations.ai/models");
            ("chat", JStr "https://text.pollinations.ai/openai")]);
     ("openrouter",
      JObj [("models", JStr "https://openrouter.ai/api/v1/models");
            ("chat",
             JStr "https://openrouter.ai/api/v1/chat/completions")]);
     ("gemini",
      JObj [("models",
             JStr "https://generativelanguage.googleapis.com/v1beta/models");
            ("chat",
             JStr "https://generativelanguage.googleapis.com/v1beta/models/gemini-pro:generateContent")])].

(** What [chat_with_bot] fixes before its loop. *)
Record Session := mkSession {
  model_name : json;
  provider : json;
  api_key : json;
  chat_url : json
}.

(** The variables of the loop that outlive an iteration ([response] is
    unbound until the first request returns), with the world and the trace
    of effects. *)
Record State := mkState {
  ctl : control;
  history : list Message;
  response : option Response;
  world : World E;
  log : list effect
}.

(** The computations of the loop: over its state, and they may raise. *)
Definition M : Type -> Type := SE State.

Definition emit (x : effect) : M unit :=
  fun st =>
    (Ret tt,
     mkState (ctl st) (history st) (response st) (world st)
       (log st ++ [x])%list).

(** [history.append({"role": r, "content": c})]. *)
Definition history_append (r : string) (c : json) : M unit :=
  fun st =>
    (Ret tt,
     mkState (ctl st) (history st ++ [mkMessage r c])%list (response st)
       (world st) (log st)).

Definition get_history : M (list Message) :=
  fun st => (Ret (history st), st).

(** [response = ...]. *)
Definition set_response (r : Response) : M unit :=
  fun st =>
    (Ret tt, mkState (ctl st) (history st) (Some r) (world st) (log st)).

(** Reading the local variable [response]. *)
Definition get_response : M Response :=
  fun st =>
    match response st with
    | Some r => (Ret r, st)
    | None =>
        (raise NameError
           "cannot access local variable 'response' where it is not associated with a value",
         st)
    end.

(** A tool executor that only reads the world. *)
Definition read_world {A} (f : World E -> res A) : M A :=
  fun st => (f (world st), st).

(** A tool executor that may change the world. *)
Definition on_world {A} (f : World E -> res A * World E) : M A :=
  fun st =>
    let '(r, w') := f (world st) in
    (r, mkState (ctl st) (history st) (response st) w' (log st)).

(** An oracle of the environment. *)
Definition on_env {A} (f : E -> res A * E) : M A :=
  on_world (fun w => let '(r, e') := f (env w) in (r, mkWorld (files w) e')).

(** The dict comprehension of the gemini request:
    [{"parts": [{"text": m["content"]}] for m in history
      if m["role"] == "user"}]. *)
Definition gemini_parts (history : list Message) : list (string * json) :=
  fold_left
    (fun d m => assoc_set "parts" (JArr [JObj [("text", content m)]]) d)
    (filter (fun m => String.eqb (role m) "user") history)
    [].

(** The body [data] of the chat request. *)
Definition request_data (s : Session) (history : list Message) : json :=
  if is_str "gemini" (provider s)
  then JObj [("contents", JArr [JObj (gemini_parts history)])]
  else JObj [("model", model_name s);
             ("messages", JArr (map message_json history))].

Definition request_headers (s : Session) : json :=
  let headers := [("Content-Type", JStr "application/json")] in
  if py_truthy (api_key s)
  then JObj (assoc_set "Authorization"
               (JStr ("Bearer " ++ py_str (api_key s))) headers)
  else JObj headers.

(** The reply text in the provider's response. *)
Definition extract_reply (s : Session) (response : json) : res json :=
  if is_str "gemini" (provider s) then
    (a <- py_getitem response "candidates" ;;
     b <- py_getitem0 a ;;
     c <- py_getitem b "content" ;;
     d <- py_getitem c "parts" ;;
     e <- py_getitem0 d ;;
     py_getitem e "text")%res
  else
    (a <- py_getitem response "choices" ;;
     b <- py_getitem0 a ;;
     c <- py_getitem b "message" ;;
     py_getitem c "content")%res.

(** [re.search(pattern, text, re.DOTALL)] on whatever the reply is. *)
Definition search_reply (reply : json) : res (option (string * (nat * nat))) :=
  match reply with
  | JStr text => Ret (option_map (fun m => (text, m)) (re_search brace_re text))
  | _ =>
      raise TypeError
        ("expected string or bytes-like object, got '" ++ type_name reply
         ++ "'")
  end.

(** How an iteration of the inner loop ends. *)
Inductive flow := Continue | Break.

Definition tool_unknown (tool_name : json) : string :=
  "Неизвестный инструмент: " ++ py_str tool_name.

(** The chain of [if tool_name == ...]: the tool result, or nothing for
    the two tools that leave the inner loop. *)
Definition run_tool (tool_name : json) (args : json) : M (option string) :=
  (if is_str "list_directory" tool_name then
     path <- lift (py_get args (JStr "path") (JStr ".")) ;;
     r <- read_world (fun w => agent_list_directory w path) ;;
     ret (Some r)
   else if is_str "read_file" tool_name then
     path <- lift (py_get args (JStr "path") JNull) ;;
     r <- read_world (fun w => agent_read_file w path) ;;
     ret (Some r)
   else if is_str "write_file" tool_name then
     path <- lift (py_get args (JStr "path") JNull) ;;
     text <- lift (py_get args (JStr "content") JNull) ;;
     r <- on_world (agent_write_file path text) ;;
     ret (Some r)
   else if is_str "execute_shell" tool_name then
     command <- lift (py_get args (JStr "command") JNull) ;;
     r <- on_world (agent_execute_shell command) ;;
     ret (Some r)
   else if is_str "ask_user" tool_name then
     question <- lift (py_get args (JStr "question") JNull) ;;
     emit (PrintPanel question) ;;;
     ret None
   else if is_str "final_answer" tool_name then
     text <- lift (py_get args (JStr "text") JNull) ;;
     emit (PrintMarkdown text) ;;;
     ret None
   else ret (Some (tool_unknown tool_name)))%M.

Definition tool_result_message (tool_result : string) : json :=
  JStr ("TOOL_RESULT: " ++ tool_result).

(** How the tool result is shown: in a green panel if it says that a file
    was written, plainly otherwise. *)
Definition show_result (tool_result : string) : effect :=
  if contains "успешно записан" tool_result
  then PrintPanel (JStr tool_result)
  else Print tool_result.

(** The reply shown as it is: [console.print(Markdown(response_text))] and
    [break]. *)
Definition plain_answer (reply : json) : M flow :=
  (emit (PrintMarkdown reply) ;;; ret Break)%M.

(** The body of the inner [try] after [action = json.loads(json_str)]. *)
Definition perform (action : json) : M flow :=
  (tool_name <- lift (py_get action (JStr "tool") JNull) ;;
   args <- lift (py_get action (JStr "args") (JObj [])) ;;
   items <- lift (py_items args) ;;
   emit (PrintToolCall tool_name items) ;;;
   result <- run_tool tool_name args ;;
   match result with
   | None => ret Break
   | Some tool_result =>
       emit (show_result tool_result) ;;;
       history_append "user" (tool_result_message tool_result) ;;;
       ret Continue
   end)%M.

(** From [json_match = re.search(...)] to the end of the iteration. *)
Definition dispatch (reply : json) : M flow :=
  (found <- lift (search_reply reply) ;;
   match found with
   | Some (text, m) =>
       let json_str := group text m in
       tryM
         (action <- lift (json_loads json_str) ;; perform action)
         [([JSONDecodeError], fun _ => plain_answer reply)]
   | None => plain_answer reply
   end)%M.

(** [except requests.exceptions.RequestException as e]. *)
Definition request_failed (e : exn) : M flow :=
  (emit (Print ("[bold red]Ошибка при отправке запроса: " ++ msg e
                ++ "[/bold red]")) ;;;
   ret Break)%M.

(** [except (IndexError, KeyError) as e]. *)
Definition reply_malformed (e : exn) : M flow :=
  (r <- get_response ;;
   emit (Print ("[bold red]Не удалось разобрать ответ от API: " ++ msg e
                ++ "[/bold red]" ++ LF ++ "Ответ: " ++ response_text r)) ;;;
   ret Break)%M.

Definition outer_clauses : list (list exn_class * (exn -> M flow)) :=
  [([RequestException], request_failed);
   ([IndexError; KeyError], reply_malformed)].

(** The request is made and answered, the reply is appended and
    dispatched: the [try] body after [data] is built. *)
Definition exchange (s : Session) (data : json) : M flow :=
  (r <- on_env (fun e =>
                  requests_post host e (py_str (chat_url s))
                    (request_headers s) data) ;;
   set_response r ;;;
   lift (raise_for_status r) ;;;
   response_json <- lift (response_json r) ;;
   reply <- lift (extract_reply s response_json) ;;
   history_append "assistant" reply ;;;
   dispatch reply)%M.

(** One pass through the body of the inner [while True]. *)
Definition inner_body (s : Session) : M flow :=
  (tryM
     (h <- get_history ;;
      let data := request_data s h in
      emit (Post (py_str (chat_url s)) (request_headers s) data) ;;;
      exchange s data)
     outer_clauses)%M.

Definition is_exit (user_prompt : string) : bool :=
  let l := lower user_prompt in String.eqb l "/exit" || String.eqb l "/back".

Definition set_ctl (c : control) (st : State) : State :=
  mkState c (history st) (response st) (world st) (log st).

(** One step of [chat_with_bot]'s loops: at [AwaitUserInput] the head of
    the outer [while True] up to the inner loop, at [SendToModel] one pass
    through the inner loop.  [Returned] is the [break] of the outer loop,
    [Escaped e] an exception that leaves the function. *)
Definition step (s : Session) (st : State) : State :=
  match ctl st with
  | AwaitUserInput =>
      match on_env (console_input host) st with
      | (Raise e, st') => set_ctl (Escaped e) st'
      | (Ret user_prompt, st') =>
          if is_exit user_prompt then set_ctl Returned st'
          else if String.eqb user_prompt "" then st'
          else
            set_ctl SendToModel
              (snd (history_append "user" (JStr user_prompt) st'))
      end
  | SendToModel =>
      match inner_body s st with
      | (Ret Continue, st') => st'
      | (Ret Break, st') => set_ctl AwaitUserInput st'
      | (Raise e, st') => set_ctl (Escaped e) st'
      end
  | Returned | Escaped _ => st
  end.

Fixpoint run (n : nat) (s : Session) (st : State) : State :=
  match n with
  | 0 => st
  | S n' => run n' s (step s st)
  end.

Definition system_message : Message :=
  mkMessage "system" (JStr (SYSTEM_PROMPT host)).

(** The state in which the loop of [chat_with_bot] is entered. *)
Definition initial_state (w : World E) (shown : list effect) : State :=
  mkState AwaitUserInput [system_message] None w shown.

(** [chat_with_bot] up to its loop: the session, or nothing when the
    function returns before the loop; with what it printed. *)
Definition chat_setup (model_name config : json)
    : res (list effect * option Session) :=
  (provider <- py_get config (JStr "default_provider") (JStr "base") ;;
   providers <- py_get config (JStr "providers") (JObj []) ;;
   provider_config <- py_get providers provider (JObj []) ;;
   api_key <- py_get provider_config (JStr "api_key") JNull ;;
   urls <- py_get PROVIDER_URLS provider (JObj []) ;;
   chat_url <- py_get urls (JStr "chat") JNull ;;
   if negb (py_truthy chat_url) then
     Ret ([Print ("[bold red]URL для чата у провайдера '"
                  ++ py_str provider ++ "' не найден.[/bold red]")], None)
   else if negb (py_truthy api_key) then
     Ret ([Print ("[bold red]API ключ для провайдера '"
                  ++ py_str provider
                  ++ "' не найден. Пожалуйста, установите его с помощью команды /settings set api_key "
                  ++ py_str provider ++ " <ваш_ключ>[/bold red]")], None)
   else
     Ret ([PrintPanel
             (JStr ("Начат чат с ИИ-агентом [bold white]"
                    ++ py_str model_name ++ "[/bold white] (провайдер: "
                    ++ py_str provider ++ ")." ++ LF
                    ++ "Введите [white]/back[/white] или [white]/exit[/white] для выхода."))],
          Some (mkSession model_name provider api_key chat_url)))%res.

(** [chat_with_bot(model_name, config)], for [n] steps of its loops. *)
Definition chat_with_bot (n : nat) (model_name config : json) (w : World E)
    : res (option State) :=
  ('(shown, session) <- chat_setup model_name config ;;
   match session with
   | None => Ret None
   | Some s => Ret (Some (run n s (initial_state w shown)))
   end)%res.

(** The [/chat] branch of [main] (main.py): [args] are the words after the
    command. *)
Definition main_chat (n : nat) (config : json) (args : list string)
    (w : World E) : res (option State) :=
  (current_provider <- py_get config (JStr "default_provider") JNull ;;
   providers <- py_get config (JStr "providers") (JObj []) ;;
   provider_config <- py_get providers current_provider (JObj []) ;;
   model_name <- match args with
                 | a :: _ => Ret (JStr a)
                 | [] => py_get provider_config (JStr "model") JNull
                 end ;;
   if negb (py_truthy model_name) || is_str "default-model" model_name
   then Ret None
   else chat_with_bot n model_name config w)%res.

(* ---------------------------------------------------------------- *)
(** ** The configuration loader (tools.py, [load_config]) *)

Definition default_provider_config : json :=
  JObj [("api_key", JStr ""); ("model", JStr "default-model")].

Definition default_providers : list (string * json) :=
  [("base", default_provider_config);
   ("openrouter", default_provider_config);
   ("gemini", default_provider_config)].

Definition default_config : json :=
  JObj [("default_provider", JStr "base");
        ("providers", JObj default_providers)].

(** One pass of [for provider in default_config["providers"]]. *)
Definition backfill (config : json) (provider : string) : res json :=
  (providers <- py_getitem config "providers" ;;
   present <- py_in provider providers ;;
   if present then Ret config
   else
     value <- py_getitem (JObj default_providers) provider ;;
     providers' <- py_setitem providers provider value ;;
     py_setitem config "providers" providers')%res.

Fixpoint backfill_all (config : json) (names : list string) : res json :=
  match names with
  | [] => Ret config
  | p :: rest => (config' <- backfill config p ;; backfill_all config' rest)%res
  end.

Definition load_config (w : World E) : res json :=
  if path_exists w (CONFIG_FILE host) then
    try_except
      (text <- open_read w (JStr (CONFIG_FILE host)) ;;
       config <- json_loads text ;;
       backfill_all config (map fst default_providers))%res
      [JSONDecodeError; FileNotFoundError; KeyError]
      (fun _ => Ret default_config)
  else Ret default_config.

End Agent.

(* ------------------------------------------------------------------ *)
(** ** More of [str]: whitespace and characters

    [str.strip()], [str.split()], [len] and slices work on characters (code
    points).  In the UTF-8 text of the embedding a character starts at every
    byte that is not a continuation byte. *)

Definition byte_in (lo hi : nat) (c : ascii) : bool :=
  let n := Ascii.nat_of_ascii c in Nat.leb lo n && Nat.leb n hi.

Definition is_continuation (c : ascii) : bool := byte_in 128 191 c.

(** The number of bytes of the whitespace character at the start of [s], and
    0 when [s] starts with none.  [str.isspace] holds of U+0009 to U+000D,
    U+001C to U+0020, U+0085, U+00A0, U+1680, U+2000 to U+200A, U+2028,
    U+2029, U+202F, U+205F and U+3000. *)
Definition space_width (s : string) : nat :=
  match s with
  | EmptyString => 0
  | String a r =>
      if byte_in 9 13 a || byte_in 28 32 a then 1
      else
        match r with
        | String b r' =>
            if byte_in 194 194 a then
              if byte_in 133 133 b || byte_in 160 160 b then 2 else 0
            else
              match r' with
              | String c _ =>
                  if byte_in 225 225 a && byte_in 154 154 b
                     && byte_in 128 128 c then 3
                  else if byte_in 226 226 a && byte_in 128 128 b
                          && (byte_in 128 138 c || byte_in 168 169 c
                              || byte_in 175 175 c) then 3
                  else if byte_in 226 226 a && byte_in 129 129 b
                          && byte_in 159 159 c then 3
                  else if byte_in 227 227 a && byte_in 128 128 b
                          && byte_in 128 128 c then 3
                  else 0
              | EmptyString => 0
              end
        | EmptyString => 0
        end
  end.

Definition flush (word : string) : list string :=
  if String.eqb word "" then [] else [word].

(** [inside] counts the bytes still to pass of a whitespace character, [word]
    is the word read so far. *)
Fixpoint split_from (inside : nat) (word : string) (s : string)
    : list string :=
  match s with
  | EmptyString => flush word
  | String c r =>
      match inside with
      | S k => split_from k word r
      | 0 =>
          match space_width s with
          | 0 => split_from 0 (word ++ str1 c) r
          | S k => (flush word ++ split_from k "" r)%list
          end
      end
  end.

(** [s.split()]: the words between runs of whitespace. *)
Definition py_split (s : string) : list string := split_from 0 "" s.

Fixpoint lstrip_from (inside : nat) (s : string) : string :=
  match s with
  | EmptyString => s
  | String c r =>
      match inside with
      | S k => lstrip_from k r
      | 0 =>
          match space_width s with
          | 0 => s
          | S k => lstrip_from k r
          end
      end
  end.

Definition is_blank (s : string) : bool :=
  match py_split s with [] => true | _ => false end.

Fixpoint rstrip (s : string) : string :=
  match s with
  | EmptyString => s
  | String c r => if is_blank s then "" else String c (rstrip r)
  end.

(** [s.strip()]. *)
Definition py_strip (s : string) : string := rstrip (lstrip_from 0 s).

(** [len(s)]. *)
Fixpoint py_len (s : string) : nat :=
  match s with
  | EmptyString => 0
  | String c r => (if is_continuation c then 0 else 1) + py_len r
  end.

(** [s[:n]]. *)
Fixpoint cp_take (n : nat) (s : string) : string :=
  match s with
  | EmptyString => s
  | String c r =>
      if is_continuation c then String c (cp_take n r)
      else match n with
           | 0 => ""
           | S k => String c (cp_take k r)
           end
  end.

(** [s[n:]]. *)
Fixpoint cp_drop (n : nat) (s : string) : string :=
  match s with
  | EmptyString => s
  | String c r =>
      if is_continuation c then cp_drop n r
      else match n with
           | 0 => s
           | S k => cp_drop k r
           end
  end.

(** The characters of [s], as iterating over it gives them. *)
Fixpoint chars_from (current : string) (s : string) : list string :=
  match s with
  | EmptyString => flush current
  | String c r =>
      if is_continuation c then chars_from (current ++ str1 c) r
      else (flush current ++ chars_from (str1 c) r)%list
  end.

Definition characters (s : string) : list string := chars_from "" s.

(** [key[:4] + "..." + key[-3:]], for a key of more than seven characters
    (handler.py, [handle_settings]). *)
Definition mask_key (key : string) : string :=
  cp_take 4 key ++ "..." ++ cp_drop (py_len key - 3) key.

(* ------------------------------------------------------------------ *)
(** ** [json.dump(config, f, indent=4)]

    The encoder of the Python standard library with the options of
    [save_config]: [ensure_ascii] on, keys in insertion order, items
    separated by a comma and a new line, four spaces per level.  [json.dump]
    writes the chunks that the encoder yields one after the other, so that
    an exception of the encoder leaves the chunks before it written. *)

Definition hex_digit (n : N) : ascii :=
  if (n <? 10)%N then Ascii.ascii_of_N (48 + n) else Ascii.ascii_of_N (87 + n).

Definition hex4 (n : N) : string :=
  String (hex_digit ((n / 4096) mod 16)%N)
    (String (hex_digit ((n / 256) mod 16)%N)
       (String (hex_digit ((n / 16) mod 16)%N)
          (str1 (hex_digit (n mod 16)%N)))).

Definition u_escape (n : N) : string :=
  String chr_backslash (String "u"%char (hex4 n)).

(** The number of bytes that the leading byte of a character announces. *)
Definition char_width (c : ascii) : nat :=
  let n := Ascii.nat_of_ascii c in
  if Nat.ltb n 192 then 1
  else if Nat.ltb n 224 then 2
  else if Nat.ltb n 240 then 3
  else 4.

Definition continuation_bits (c : ascii) : N := (Ascii.N_of_ascii c mod 64)%N.

(** The code point of the character at the start of [s].  (A text of the
    embedding is well formed; on a cut sequence the leading byte is given
    back.) *)
Definition codepoint_at (s : string) : N :=
  match s with
  | EmptyString => 0%N
  | String a r =>
      let x := Ascii.N_of_ascii a in
      match char_width a, r with
      | 2, String b _ => ((x - 192) * 64 + continuation_bits b)%N
      | 3, String b (String c _) =>
          (((x - 224) * 64 + continuation_bits b) * 64
           + continuation_bits c)%N
      | 4, String b (String c (String d _)) =>
          ((((x - 240) * 64 + continuation_bits b) * 64
            + continuation_bits c) * 64 + continuation_bits d)%N
      | _, _ => x
      end
  end.

(** The replacement of one character by [py_encode_basestring_ascii]:
    printable ASCII stays, the quote, the backslash and five control
    characters get their short escape, everything else [\uXXXX], as a
    surrogate pair above U+FFFF. *)
Definition escape_char (cp : N) : string :=
  if (cp =? 34)%N then String chr_backslash (str1 chr_quote)
  else if (cp =? 92)%N then String chr_backslash (str1 chr_backslash)
  else if (cp =? 10)%N then String chr_backslash "n"
  else if (cp =? 13)%N then String chr_backslash "r"
  else if (cp =? 9)%N then String chr_backslash "t"
  else if (cp =? 12)%N then String chr_backslash "f"
  else if (cp =? 8)%N then String chr_backslash "b"
  else if ((32 <=? cp) && (cp <=? 126))%N then str1 (Ascii.ascii_of_N cp)
  else if (cp <? 65536)%N then u_escape cp
  else
    let n := (cp - 65536)%N in
    u_escape (55296 + (n / 1024) mod 1024)%N
    ++ u_escape (56320 + n mod 1024)%N.

(** [inside] counts the bytes still to pass of the current character. *)
Fixpoint encode_chars (inside : nat) (s : string) : string :=
  match s with
  | EmptyString => ""
  | String c r =>
      match inside with
      | S k => encode_chars k r
      | 0 => escape_char (codepoint_at s) ++ encode_chars (char_width c - 1) r
      end
  end.

Definition py_encode_basestring_ascii (s : string) : string :=
  str1 chr_quote ++ encode_chars 0 s ++ str1 chr_quote.

(** [int.__repr__], which refuses more than 4300 digits. *)
Definition int_repr (z : Z) : res string :=
  if Nat.ltb 4300 (String.length (str_of_Z (Z.abs z)))
  then raise ValueError
         "Exceeds the limit (4300 digits) for integer string conversion"
  else Ret (str_of_Z z).

Fixpoint spaces (n : nat) : string :=
  match n with
  | 0 => ""
  | S k => String " "%char (spaces k)
  end.

Definition newline_indent (level : nat) : string := LF ++ spaces (4 * level).

(** What has been written, and the exception that cut the writing short. *)
Definition written : Type := string * option exn.

Definition chunk (s : string) : written := (s, None).

Definition and_then (a b : written) : written :=
  match a with
  | (s, None) => ((s ++ fst b)%string, snd b)
  | (_, Some _) => a
  end.

Section Encoder.

(** [float.__repr__], with [NaN], [Infinity] and [-Infinity] for the
    values that have no JSON form: the text of the float read from the
    lexeme. *)
Variable float_repr : string -> string.

(** The text of a value that is neither a list nor a dict. *)
Definition encode_atom (v : json) : res string :=
  match v with
  | JNull => Ret "null"
  | JBool true => Ret "true"
  | JBool false => Ret "false"
  | JInt z => int_repr z
  | JFloat l => Ret (float_repr l)
  | JStr s => Ret (py_encode_basestring_ascii s)
  | JArr _ | JObj _ => Ret ""
  end.

(** [yield buf + text]: nothing of the chunk is written when the text
    cannot be made. *)
Definition atom_chunk (buf : string) (v : json) : written :=
  match encode_atom v with
  | Ret text => chunk (buf ++ text)
  | Raise e => ("", Some e)
  end.

(** [_iterencode], [_iterencode_list] and [_iterencode_dict]: a list holds
    its separator back until the text of an atom is made, a dict yields it
    at once. *)
Fixpoint iterencode (level : nat) (v : json) {struct v} : written :=
  match v with
  | JArr [] => chunk "[]"
  | JArr (x :: rest) =>
      let item (buf : string) (y : json) : written :=
        match y with
        | JArr _ | JObj _ => and_then (chunk buf) (iterencode (S level) y)
        | _ => atom_chunk buf y
        end in
      and_then (item ("[" ++ newline_indent (S level)) x)
        (and_then
           ((fix more (l : list json) : written :=
               match l with
               | [] => chunk ""
               | y :: l' =>
                   and_then (item ("," ++ newline_indent (S level)) y)
                     (more l')
               end) rest)
           (chunk (newline_indent level ++ "]")))
  | JObj [] => chunk "{}"
  | JObj ((k, x) :: rest) =>
      let item (buf : string) (key : string) (y : json) : written :=
        and_then
          (chunk (buf ++ py_encode_basestring_ascii key ++ ": "))
          match y with
          | JArr _ | JObj _ => iterencode (S level) y
          | _ => atom_chunk "" y
          end in
      and_then (item ("{" ++ newline_indent (S level)) k x)
        (and_then
           ((fix more (l : list (string * json)) : written :=
               match l with
               | [] => chunk ""
               | (key, y) :: l' =>
                   and_then (item ("," ++ newline_indent (S level)) key y)
                     (more l')
               end) rest)
           (chunk (newline_indent level ++ "}")))
  | _ => atom_chunk "" v
  end.

Definition json_dump (v : json) : written := iterencode 0 v.

End Encoder.

(* ------------------------------------------------------------------ *)
(** ** The command line (main.py) and its commands (handler.py, tools.py) *)

(** What the command line needs of its platform beyond the [Host] of the
    chat. *)
Record Platform (E : Type) := mkPlatform {
  (** [os.path.dirname(CONFIG_FILE)]. *)
  CONFIG_DIR : string;
  (** [os.makedirs(path, exist_ok=True)]. *)
  os_makedirs : E -> string -> res unit * E;
  (** [requests.get(url, headers=...)]. *)
  requests_get : E -> string -> json -> res Response * E;
  (** [rich.markup.escape]. *)
  markup_escape : string -> string;
  (** The JSON text of a float (see [encode_atom]). *)
  float_repr : string -> string;
  (** [str.lower()] of a text that is not all ASCII. *)
  str_lower : string -> string;
  (** What subscripting a dict with a slice raises: a [TypeError] up to
      Python 3.11, a [KeyError] since. *)
  dict_slice_error : exn
}.
Arguments mkPlatform {E}.
Arguments CONFIG_DIR {E}.
Arguments os_makedirs {E}.
Arguments requests_get {E}.
Arguments markup_escape {E}.
Arguments float_repr {E}.
Arguments str_lower {E}.
Arguments dict_slice_error {E}.

(** What the command line shows and requests, in order: the effects of the
    chat, the tables, the requests for the list of models, and three outputs
    that take no input: the banner, the help and a traceback. *)
Inductive output :=
  | Out (x : effect)
  | ShownTable (title : string) (rows : list (list string))
  | Get (url : string) (headers : json)
  | Banner
  | Help
  | Traceback (e : exn).

(** [v.keys()]. *)
Definition py_keys (v : json) : res (list string) :=
  match v with
  | JObj fields => Ret (map fst fields)
  | _ =>
      raise AttributeError
        ("'" ++ type_name v ++ "' object has no attribute 'keys'")
  end.

(** [len(v)]. *)
Definition py_len_of (v : json) : res nat :=
  match v with
  | JStr s => Ret (py_len s)
  | JArr items => Ret (length items)
  | JObj fields => Ret (length fields)
  | _ => raise TypeError ("object of type '" ++ type_name v ++ "' has no len()")
  end.

(** A cell of a [rich] table, as [Table.add_row] takes it: a text, or
    [None] for an empty cell; anything else is refused with a
    [NotRenderableError], a direct subclass of [Exception] for the
    purposes of the program. *)
Definition table_cell (v : json) : res string :=
  match v with
  | JNull => Ret ""
  | JStr s => Ret s
  | _ =>
      raise Exception
        ("unable to render " ++ type_name v
         ++ "; a string or other renderable object is required")
  end.

Definition is_ascii (s : string) : bool :=
  forallb (fun c => Nat.ltb (Ascii.nat_of_ascii c) 128) (list_ascii_of_string s).

Section Cli.

Context {E : Type}.
Variable host : Host E.
Variable plat : Platform E.

(** [s.lower()]: on ASCII text the capitals A to Z change, the rest is
    left to the platform. *)
Definition py_lower (s : string) : string :=
  if is_ascii s then lower s else str_lower plat s.

(** The variables of [main] that its commands share, with the world and
    the trace: the configuration dict, mutated in place by
    [handle_settings], and the list [available_models]. *)
Record Cli := mkCli {
  cli_config : json;
  cli_models : list json;
  cli_world : World E;
  cli_out : list output
}.

Definition say (x : output) : SE Cli unit :=
  fun c =>
    (Ret tt,
     mkCli (cli_config c) (cli_models c) (cli_world c)
       (cli_out c ++ [x])%list).

(** [console.print(text)]. *)
Definition print (text : string) : SE Cli unit := say (Out (Print text)).

Definition get_config : SE Cli json := fun c => (Ret (cli_config c), c).

Definition set_config (config : json) : SE Cli unit :=
  fun c => (Ret tt, mkCli config (cli_models c) (cli_world c) (cli_out c)).

Definition set_models (names : list json) : SE Cli unit :=
  fun c => (Ret tt, mkCli (cli_config c) names (cli_world c) (cli_out c)).

Definition in_world {A} (m : SE (World E) A) : SE Cli A :=
  fun c =>
    let '(r, w') := m (cli_world c) in
    (r, mkCli (cli_config c) (cli_models c) w' (cli_out c)).

(* ---------------------------------------------------------------- *)
(** ** [save_config] (tools.py) *)

Definition makedirs (dir : string) : SE (World E) unit :=
  fun w =>
    let '(r, e') := os_makedirs plat (env w) dir in
    (r, mkWorld (files w) e').

Definition save_config (config : json) : SE (World E) unit :=
  (present <- (fun w => (Ret (path_exists host w (CONFIG_DIR plat)), w)) ;;
   (if present : bool then ret tt else makedirs (CONFIG_DIR plat)) ;;;
   p <- open_write host (JStr (CONFIG_FILE host)) ;;
   let '(text, failure) := json_dump (float_repr plat) config in
   file_write host p (JStr text) ;;;
   match failure with
   | Some e => lift (Raise e)
   | None => ret tt
   end)%M.

(* ---------------------------------------------------------------- *)
(** ** [handle_settings] (handler.py) *)

(** [key_display[:4] + "..." + key_display[-3:]] under
    [if key_display and len(key_display) > 7]. *)
Definition key_display (key : json) : res json :=
  if py_truthy host key then
    n <- py_len_of key ;;
    if Nat.ltb 7 n then
      match key with
      | JStr k => Ret (JStr (mask_key k))
      | JArr _ =>
          raise TypeError
            ("can only concatenate list (not " ++ str1 chr_quote ++ "str"
             ++ str1 chr_quote ++ ") to list")
      | _ => Raise (dict_slice_error plat)
      end
    else Ret key
  else Ret key.

(** [v or default]. *)
Definition py_or (v default : json) : json :=
  if py_truthy host v then v else default.

(** The rows of the providers, three for each. *)
Fixpoint provider_rows (items : list (string * json))
    : res (list (list string)) :=
  match items with
  | [] => Ret []
  | (provider_name, provider_config) :: rest =>
      key <- py_get provider_config (JStr "api_key") JNull ;;
      key <- key_display key ;;
      key_cell <- table_cell (py_or key (JStr "Не установлен")) ;;
      model <- py_get provider_config (JStr "model") JNull ;;
      model_cell <- table_cell (py_or model (JStr "Не установлена")) ;;
      more <- provider_rows rest ;;
      Ret (["[bold]" ++ provider_name ++ "[/bold]"; ""]
           :: ["  API ключ"; key_cell]
           :: ["  Модель по умолчанию"; model_cell] :: more)
  end.

Definition settings_show : SE Cli unit :=
  (config <- get_config ;;
   default_provider <-
     lift (py_get config (JStr "default_provider") (JStr "N/A")) ;;
   first <- lift (table_cell default_provider) ;;
   providers <- lift (py_get config (JStr "providers") (JObj [])) ;;
   items <- lift (py_items providers) ;;
   rows <- lift (provider_rows items) ;;
   say (ShownTable "[bold white]Текущие настройки[/bold white]"
          (["Провайдер по умолчанию"; first] :: rows)))%M.

(** [config["providers"][provider_name][field] = value], then
    [save_config(config)]: the dict is changed before it is saved. *)
Definition store_field (provider_name field value : string)
    : SE Cli unit :=
  (config <- get_config ;;
   providers <- lift (py_getitem config "providers") ;;
   entry <- lift (py_getitem providers provider_name) ;;
   entry' <- lift (py_setitem entry field (JStr value)) ;;
   providers' <- lift (py_setitem providers provider_name entry') ;;
   config' <- lift (py_setitem config "providers" providers') ;;
   set_config config' ;;;
   in_world (save_config config'))%M.

(** [provider_name in config["providers"]]. *)
Definition provider_listed (provider_name : string) : SE Cli bool :=
  (config <- get_config ;;
   providers <- lift (py_getitem config "providers") ;;
   lift (py_in provider_name providers))%M.

Definition set_provider (provider_name : string) : SE Cli unit :=
  (listed <- provider_listed provider_name ;;
   if listed : bool then
     config <- get_config ;;
     config' <-
       lift (py_setitem config "default_provider" (JStr provider_name)) ;;
     set_config config' ;;;
     in_world (save_config config') ;;;
     print ("[bold #ffb6c1]✓ Провайдер по умолчанию установлен на '"
            ++ provider_name ++ "'.[/bold #ffb6c1]")
   else
     config <- get_config ;;
     providers <- lift (py_getitem config "providers") ;;
     names <- lift (py_keys providers) ;;
     print ("[bold red]Ошибка: Провайдер '" ++ provider_name
            ++ "' не найден. Доступные: " ++ join ", " names
            ++ ".[/bold red]"))%M.

Definition set_api_key (provider_name value : string) : SE Cli unit :=
  (listed <- provider_listed provider_name ;;
   if listed : bool then
     store_field provider_name "api_key" value ;;;
     print ("[bold #ffb6c1]✓ API ключ для '" ++ provider_name
            ++ "' сохранен.[/bold #ffb6c1]")
   else
     print ("[bold red]Ошибка: Провайдер '" ++ provider_name
            ++ "' не найден.[/bold red]"))%M.

Definition set_model (provider_name value : string) : SE Cli unit :=
  (listed <- provider_listed provider_name ;;
   if listed : bool then
     store_field provider_name "model" value ;;;
     print ("[bold #ffb6c1]✓ Модель по умолчанию для '" ++ provider_name
            ++ "' установлена на '" ++ value ++ "'.[/bold #ffb6c1]")
   else
     print ("[bold red]Ошибка: Провайдер '" ++ provider_name
            ++ "' не найден.[/bold red]"))%M.

(** [handle_settings(args, config, available_models)]; the last argument
    is not used by the function. *)
Definition handle_settings (args : list string) : SE Cli unit :=
  match args with
  | [] => settings_show
  | first :: rest =>
      if String.eqb first "show" then settings_show
      else if Nat.leb 3 (length args) && String.eqb first "set" then
        match rest with
        | setting :: name :: values =>
            let key_to_set := py_lower setting in
            if String.eqb key_to_set "provider" then
              set_provider (py_lower name)
            else if String.eqb key_to_set "api_key" then
              match values with
              | value :: _ => set_api_key (py_lower name) value
              | [] =>
                  print "[bold red]Ошибка: Укажите провайдера и ключ. /settings set api_key <провайдер> <ключ>[/bold red]"
              end
            else if String.eqb key_to_set "model" then
              match values with
              | _ :: _ => set_model (py_lower name) (join " " values)
              | [] =>
                  print "[bold red]Ошибка: Укажите провайдера и модель. /settings set model <провайдер> <модель>[/bold red]"
              end
            else
              print ("[bold red]Неизвестная настройка '" ++ key_to_set
                     ++ "'.[/bold red]")
        | _ => say Help
        end
      else say Help
  end.

End Cli.

Arguments mkCli {E}.
Arguments cli_config {E}.
Arguments cli_models {E}.
Arguments cli_world {E}.
Arguments cli_out {E}.

(* ------------------------------------------------------------------ *)
(** ** [get_available_models] (handler.py) *)

(** [for m in v]: the items of a list, the keys of a dict, the characters
    of a text. *)
Definition py_iter (v : json) : res (list json) :=
  match v with
  | JArr items => Ret items
  | JObj fields => Ret (map (fun kv => JStr (fst kv)) fields)
  | JStr s => Ret (map JStr (characters s))
  | _ => raise TypeError ("'" ++ type_name v ++ "' object is not iterable")
  end.

Section Models.

Context {E : Type}.
Variable host : Host E.
Variable plat : Platform E.

(** [escape(name)] of [rich.markup], which takes a text only. *)
Definition escape (name : json) : res string :=
  match name with
  | JStr s => Ret (markup_escape plat s)
  | _ =>
      raise TypeError
        ("expected string or bytes-like object, got '" ++ type_name name
         ++ "'")
  end.

(** [m.get("community")] for every model, as the two list comprehensions
    ask it before any row is made. *)
Fixpoint community_flags (models : list json) : res (list (json * bool)) :=
  match models with
  | [] => Ret []
  | m :: rest =>
      flag <- py_get m (JStr "community") JNull ;;
      more <- community_flags rest ;;
      Ret ((m, py_truthy host flag) :: more)
  end.

(** The rows and the names of one of the two groups. *)
Fixpoint listed_rows (kind : string) (models : list json)
    : res (list (list string) * list json) :=
  match models with
  | [] => Ret ([], [])
  | m :: rest =>
      name <- py_get m (JStr "name") (JStr "N/A") ;;
      escaped <- escape name ;;
      description <- py_get m (JStr "description") (JStr "Нет описания") ;;
      description_cell <- table_cell description ;;
      '(rows, names) <- listed_rows kind rest ;;
      Ret ([escaped; description_cell; kind] :: rows, name :: names)
  end.

(** The loop over the models of gemini: a model without a name is left
    out. *)
Fixpoint gemini_rows (models : list json)
    : res (list (list string) * list json) :=
  match models with
  | [] => Ret ([], [])
  | m :: rest =>
      name <- py_get m (JStr "name") JNull ;;
      if py_truthy host name then
        escaped <- escape name ;;
        '(rows, names) <- gemini_rows rest ;;
        Ret ([escaped] :: rows, name :: names)
      else gemini_rows rest
  end.

Definition official (flags : list (json * bool)) : list json :=
  map fst (filter (fun f => negb (snd f)) flags).

Definition community (flags : list (json * bool)) : list json :=
  map fst (filter (fun f => snd f) flags).

(** The table and [model_names], from the decoded answer. *)
Definition models_table (provider models : json)
    : res (list (list string) * list json) :=
  items <- py_iter models ;;
  if is_str "gemini" provider then gemini_rows items
  else
    flags <- community_flags items ;;
    '(rows1, names1) <- listed_rows "Официальная" (official flags) ;;
    '(rows2, names2) <- listed_rows "Сообщество" (community flags) ;;
    Ret ((rows1 ++ rows2)%list, (names1 ++ names2)%list).

(** The local variable [response], unbound until [requests.get]
    returns. *)
Definition bound_response (r : option Response) : res Response :=
  match r with
  | Some response => Ret response
  | None =>
      raise NameError
        "cannot access local variable 'response' where it is not associated with a value"
  end.

Definition http_get (url : string) (headers : json)
    : SE (@Cli E) Response :=
  (say (Get url headers) ;;;
   in_world (fun w =>
               let '(r, e') := requests_get plat (env w) url headers in
               (r, mkWorld (files w) e')))%M.

(** What the [try] block does once the response is there. *)
Definition list_models (provider : json) (response : Response)
    : SE (@Cli E) (list json) :=
  (lift (raise_for_status response) ;;;
   models_data <- lift (response_json response) ;;
   models <-
     lift (if is_str "openrouter" provider
           then py_get models_data (JStr "data") (JArr [])
           else if is_str "gemini" provider
           then py_get models_data (JStr "models") (JArr [])
           else Ret models_data) ;;
   table <- lift (models_table provider models) ;;
   say (ShownTable ("[bold white]Доступные модели AI (" ++ py_str host provider
                    ++ ")[/bold white]") (fst table)) ;;;
   ret (snd table))%M.

Definition models_clauses (response : option Response)
    : list (list exn_class * (exn -> SE (@Cli E) (list json))) :=
  [([RequestException],
    fun e =>
      (print ("[bold red]Ошибка при получении моделей:[/bold red] " ++ msg e) ;;;
       ret [])%M);
   ([JSONDecodeError],
    fun _ =>
      (r <- lift (bound_response response) ;;
       print ("[bold red]Не удалось декодировать ответ от API моделей. Ответ:"
              ++ LF ++ response_text r ++ "[/bold red]") ;;;
       ret [])%M)].

(** The [except] clauses, entered with [response] bound or not. *)
Definition models_failed (response : option Response) (e : exn)
    : SE (@Cli E) (list json) :=
  match find_clause e (models_clauses response) with
  | Some handler => handler e
  | None => lift (Raise e)
  end.

(** The [try] statement. *)
Definition fetch_models (provider : json) (url : string) (headers : json)
    : SE (@Cli E) (list json) :=
  fun c =>
    match http_get url headers c with
    | (Raise e, c1) => models_failed None e c1
    | (Ret response, c1) =>
        match list_models provider response c1 with
        | (Ret names, c2) => (Ret names, c2)
        | (Raise e, c2) => models_failed (Some response) e c2
        end
    end.

(** [get_available_models(config)]. *)
Definition get_available_models : SE (@Cli E) (list json) :=
  (config <- get_config ;;
   provider <- lift (py_get config (JStr "default_provider") (JStr "base")) ;;
   providers <- lift (py_get config (JStr "providers") (JObj [])) ;;
   provider_config <- lift (py_get providers provider (JObj [])) ;;
   key <- lift (py_get provider_config (JStr "api_key") JNull) ;;
   urls <- lift (py_get PROVIDER_URLS provider (JObj [])) ;;
   models_url <- lift (py_get urls (JStr "models") JNull) ;;
   if negb (py_truthy host models_url) then
     print ("[bold red]URL для получения моделей у провайдера '"
            ++ py_str host provider ++ "' не найден.[/bold red]") ;;;
     ret []
   else
     fetch_models provider (py_str host models_url)
       (if py_truthy host key
        then JObj [("Authorization", JStr ("Bearer " ++ py_str host key))]
        else JObj []))%M.

End Models.

(* ------------------------------------------------------------------ *)
(** ** [main] (main.py) *)

Section Main.

Context {E : Type}.
Variable host : Host E.
Variable plat : Platform E.

(** Where an iteration of the loop of [main] leaves it: at the prompt
    again, out of the loop, or inside [chat_with_bot]. *)
Inductive next :=
  | Stay
  | Leave
  | Enter (s : Session) (shown : list effect).

Fixpoint say_all (xs : list effect) : SE (@Cli E) unit :=
  match xs with
  | [] => ret tt
  | x :: rest => (say (Out x) ;;; say_all rest)%M
  end.

(** The [/chat] branch, up to the loop of [chat_with_bot]. *)
Definition chat_command (args : list string) : SE (@Cli E) next :=
  (config <- get_config ;;
   current_provider <-
     lift (py_get config (JStr "default_provider") JNull) ;;
   providers <- lift (py_get config (JStr "providers") (JObj [])) ;;
   provider_config <- lift (py_get providers current_provider (JObj [])) ;;
   model_name <- lift match args with
                      | a :: _ => Ret (JStr a)
                      | [] => py_get provider_config (JStr "model") JNull
                      end ;;
   if negb (py_truthy host model_name) || is_str "default-model" model_name
   then
     print ("[bold red]Ошибка: Модель не указана и модель по умолчанию для '"
            ++ py_str host current_provider
            ++ "' не установлена. Укажите модель (например, /chat <имя_модели>) или установите ее через /settings.[/bold red]") ;;;
     ret Stay
   else
     setup <- lift (chat_setup host model_name config) ;;
     match snd setup with
     | None => say_all (fst setup) ;;; ret Stay
     | Some s => ret (Enter s (fst setup))
     end)%M.

(** The chain of [if command == ...], on the lower-cased first word and
    the words after it. *)
Definition run_command (name : string) (args : list string)
    : SE (@Cli E) next :=
  (if String.eqb name "/help" then
     print "[bold white]Доступные команды: /help, /settings, /models, /chat, /exit[/bold white]" ;;;
     ret Stay
   else if String.eqb name "/settings" then
     handle_settings host plat args ;;; ret Stay
   else if String.eqb name "/models" then
     names <- get_available_models host plat ;;
     set_models names ;;;
     ret Stay
   else if String.eqb name "/chat" then chat_command args
   else if String.eqb name "/exit" then
     print "[bold yellow]До свидания![/bold yellow]" ;;;
     ret Leave
   else
     print ("[bold red]Неизвестная команда '" ++ name
            ++ "'. Введите /help для справки.[/bold red]") ;;;
     ret Stay)%M.

(** The body of the [try] of the loop, from the line that was typed. *)
Definition command (line : string) : SE (@Cli E) next :=
  let command_line := py_strip line in
  if String.eqb command_line "" then ret Stay
  else
    match py_split command_line with
    | [] => lift (raise IndexError "list index out of range")
    | word :: args => run_command (py_lower plat word) args
    end.

(** The clause [except Exception as e] of the loop. *)
Definition unexpected (e : exn) : SE (@Cli E) unit :=
  (print ("[bold red]Произошла непредвиденная ошибка: "
          ++ markup_escape plat (msg e) ++ "[/bold red]") ;;;
   say (Traceback e))%M.

Inductive mode :=
  | AtPrompt
  | InChat (s : Session) (st : @State E)
  | Exited.

Record Main := mkMain { mode_of : mode; cli : @Cli E }.

(** What [chat_with_bot] leaves behind when control comes back to
    [main]: its world and what it showed. *)
Definition leave_chat (st : @State E) (c : @Cli E) : @Cli E :=
  mkCli (cli_config c) (cli_models c) (world st)
    (cli_out c ++ map Out (log st))%list.

(** [console.input(...)]. *)
Definition console_line : SE (@Cli E) string :=
  in_world (fun w =>
              let '(r, e') := console_input host (env w) in
              (r, mkWorld (files w) e')).

(** The state once the terminal has answered. *)
Definition after_input (c : @Cli E) (e' : E) : @Cli E :=
  mkCli (cli_config c) (cli_models c) (mkWorld (files (cli_world c)) e')
    (cli_out c).

(** One step of [main]: one iteration of its loop when at the prompt, one
    step of the chat when inside [chat_with_bot].  Every exception of the
    model is an [Exception], so that the last clause catches what the body
    raises. *)
Definition main_step (m : Main) : Main :=
  match mode_of m with
  | Exited => m
  | InChat s st =>
      match ctl st with
      | Returned => mkMain AtPrompt (leave_chat st (cli m))
      | Escaped e =>
          mkMain AtPrompt (snd (unexpected e (leave_chat st (cli m))))
      | _ => mkMain (InChat s (step host s st)) (cli m)
      end
  | AtPrompt =>
      match (line <- console_line ;; command line)%M (cli m) with
      | (Ret Stay, c) => mkMain AtPrompt c
      | (Ret Leave, c) => mkMain Exited c
      | (Ret (Enter s shown), c) =>
          mkMain (InChat s (initial_state host (cli_world c) shown)) c
      | (Raise e, c) => mkMain AtPrompt (snd (unexpected e c))
      end
  end.

Fixpoint main_run (n : nat) (m : Main) : Main :=
  match n with
  | 0 => m
  | S k => main_run k (main_step m)
  end.

(** [main] up to its loop; an exception here ends the program. *)
Definition main_start : SE (World E) Main :=
  (config <- (fun w => (load_config host w, w)) ;;
   save_config host plat config ;;;
   provider <- lift (py_get config (JStr "default_provider") JNull) ;;
   providers <- lift (py_get config (JStr "providers") (JObj [])) ;;
   provider_config <- lift (py_get providers provider (JObj [])) ;;
   key <- lift (py_get provider_config (JStr "api_key") JNull) ;;
   fun w =>
     (Ret (mkMain AtPrompt
             (mkCli config [] w
                (Banner
                 :: if py_truthy host key then []
                    else [Out (Print
                                 ("[bold #ffb6c1]API ключ для провайдера '"
                                  ++ py_str host provider
                                  ++ "' не найден. Пожалуйста, установите его с помощью команды /settings set api_key "
                                  ++ py_str host provider
                                  ++ " <ваш_ключ>[/bold #ffb6c1]"))]))),
      w))%M.

End Main.

Arguments mkMain {E}.
Arguments mode_of {E}.
Arguments cli {E}.
Arguments AtPrompt {E}.
Arguments InChat {E}.
Arguments Exited {E}.

(* ------------------------------------------------------------------ *)
(** ** A scripted environment

    The user's lines and the endpoint's answers are read off two lists; the
    operating system refuses the paths of [refused]; a shell command prints
    nothing.  It serves to run the loop on concrete conversations. *)

Record Script := mkScript {
  typed : list string;
  answers : list (res Response);
  refused : list (os_op * exn)
}.

Definition script_input (e : Script) : res string * Script :=
  match typed e with
  | line :: rest => (Ret line, mkScript rest (answers e) (refused e))
  | [] => (raise EOFError "EOF when reading a line", e)
  end.

Definition script_post (e : Script) (url : string) (headers data : json)
    : res Response * Script :=
  match answers e with
  | a :: rest => (a, mkScript (typed e) rest (refused e))
  | [] => (raise RequestException "connection refused", e)
  end.

Definition script_run (w : World Script) (command : json)
    : res (string * string) * World Script :=
  match command with
  | JStr _ => (Ret ("", ""), w)
  | _ => (raise TypeError "expected str, bytes or os.PathLike object", w)
  end.

Definition script_listdir (w : World Script) (path : json)
    : res (list string) :=
  raise FileNotFoundError "[Errno 2] No such file or directory".

Definition os_op_eqb (a b : os_op) : bool :=
  match a, b with
  | OpOpenRead p, OpOpenRead q => String.eqb p q
  | OpOpenWrite p, OpOpenWrite q => String.eqb p q
  | OpWrite p c, OpWrite q d => String.eqb p q && String.eqb c d
  | _, _ => false
  end.

Definition script_refuses (e : Script) (op : os_op) : option exn :=
  option_map snd (List.find (fun r => os_op_eqb (fst r) op) (refused e)).

Definition script_exists (e : Script) (p : string) : bool :=
  existsb (fun r => os_op_eqb (fst r) (OpOpenRead p)) (refused e).

Definition no_files : string -> option string := fun _ => None.

Definition script_world (lines : list string) (replies : list (res Response))
    : World Script :=
  mkWorld no_files (mkScript lines replies []).

(** A successful response whose body is [body]. *)
Definition ok_response (body : json) : res Response :=
  Ret (mkResponse (Ret tt) (Ret body) "").

(** The OpenAI-style envelope around a reply text. *)
Definition openai_reply (text : string) : json :=
  JObj [("choices",
         JArr [JObj [("message", JObj [("role", JStr "assistant");
                                       ("content", JStr text)])]])].

Definition script_host : Host Script :=
  mkHost script_input script_post script_run script_listdir script_refuses
    script_exists (fun _ => "?") (fun _ => true) "SYSTEM" "config.json".

Definition quote : string := str1 chr_quote.

(** The text [{"tool":"bogus"}]. *)
Definition bogus_reply : string :=
  "{" ++ quote ++ "tool" ++ quote ++ ":" ++ quote ++ "bogus" ++ quote ++ "}".

Definition base_session : Session :=
  mkSession (JStr "gpt") (JStr "base") (JStr "key")
    (JStr "https://text.pollinations.ai/openai").

Definition gemini_session : Session :=
  mkSession (JStr "gemini-pro") (JStr "gemini") (JStr "key")
    (JStr "https://generativelanguage.googleapis.com/v1beta/models/gemini-pro:generateContent").

(** The scripted environment as Linux gives it to the command line when
    [XDG_CONFIG_HOME] is not set: the configuration is
    [meowcli/config.json], directories can be made, and the list of models
    is answered from the same list as the chat. *)
Definition cli_host : Host Script :=
  mkHost script_input script_post script_run script_listdir script_refuses
    script_exists (fun _ => "?") (fun _ => true) "SYSTEM"
    "meowcli/config.json".

Definition cli_platform : Platform Script :=
  mkPlatform "meowcli" (fun e _ => (Ret tt, e))
    (fun e url headers => script_post e url headers JNull)
    (fun s => s) (fun l => l) lower
    (mkExn KeyError "slice(None, 4, None)").

(* ------------------------------------------------------------------ *)
(** ** The vocabulary of the specification *)

Definition is_system (m : Message) : bool := String.eqb (role m) "system".
Definition is_user (m : Message) : bool := String.eqb (role m) "user".

(** The role expected after [h] when the roles of [h] alternate user,
    assistant, user, ... from [expect_user] on (a tool result is a user
    entry); nothing when they do not. *)
Fixpoint next_role (expect_user : bool) (h : list Message) : option bool :=
  match h with
  | [] => Some expect_user
  | m :: rest =>
      if String.eqb (role m) (if expect_user then "user" else "assistant")
      then next_role (negb expect_user) rest
      else None
  end.

Definition alternates (h : list Message) : bool :=
  match next_role true h with Some _ => true | None => false end.

(** The system message, then user and assistant entries in strict
    alternation. *)
Definition history_alternates (sys : Message) (h : list Message) : Prop :=
  exists rest, h = sys :: rest /\ alternates rest = true.

Definition is_assistant (m : Message) : bool :=
  String.eqb (role m) "assistant".

(** A user entry that holds a tool result. *)
Definition is_tool_result (m : Message) : bool :=
  is_user m
  && match content m with
     | JStr s => starts_with "TOOL_RESULT: " s
     | _ => false
     end.

(** Where an entry stands in the pattern of the specification,
    user -> assistant -> (tool result)* -> assistant -> ... *)
Inductive place := AtStart | AfterUser | AfterAssistant | AfterToolResult.

(** The entries follow the pattern from [q] on, read as widely as its
    words allow: after an assistant entry come any number of tool results
    and then an assistant entry, or the user entry of the next turn. *)
Fixpoint follows (q : place) (h : list Message) : bool :=
  match h with
  | [] => true
  | m :: rest =>
      match q with
      | AtStart => is_user m && follows AfterUser rest
      | AfterUser => is_assistant m && follows AfterAssistant rest
      | AfterAssistant =>
          (is_tool_result m && follows AfterToolResult rest)
          || (is_assistant m && follows AfterAssistant rest)
          || (is_user m && follows AfterUser rest)
      | AfterToolResult =>
          (is_tool_result m && follows AfterToolResult rest)
          || (is_assistant m && follows AfterAssistant rest)
      end
  end.

(** The shape the specification gives to the History: the system message,
    then entries that follow the pattern. *)
Definition history_pattern (sys : Message) (h : list Message) : Prop :=
  exists rest, h = sys :: rest /\ follows AtStart rest = true.

(** One system message, at index 0. *)
Definition one_system_first (sys : Message) (h : list Message) : Prop :=
  exists rest, h = sys :: rest /\ forallb (fun m => negb (is_system m)) rest = true.

Definition extends {A} (l l' : list A) : Prop :=
  exists extra, l' = (l ++ extra)%list.

(** The content of the last user entry of the History. *)
Fixpoint last_user_content (h : list Message) : option json :=
  match h with
  | [] => None
  | m :: rest =>
      match last_user_content rest with
      | Some c => Some c
      | None => if is_user m then Some (content m) else None
      end
  end.

(** The loop stands where it awaits the user or the model. *)
Definition awaiting (c : control) : Prop :=
  c = AwaitUserInput \/ c = SendToModel.

(** A request body carries the text [c] in the gemini shape:
    [{"contents": [{"parts": [{"text": c}]}]}]. *)
Definition carries_text (c : json) (data : json) : Prop :=
  exists fields items entry parts,
    data = JObj fields
    /\ assoc_get "contents" fields = Some (JArr items)
    /\ In (JObj entry) items
    /\ assoc_get "parts" entry = Some (JArr parts)
    /\ In (JObj [("text", c)]) parts.

(** A request body carries the message [m] in the OpenAI shape:
    [{"model": ..., "messages": [..., m, ...]}]. *)
Definition carries_message (m : Message) (data : json) : Prop :=
  exists fields items,
    data = JObj fields
    /\ assoc_get "messages" fields = Some (JArr items)
    /\ In (message_json m) items.

(** The message is represented in the request body, in one envelope shape
    or the other. *)
Definition represented (m : Message) (data : json) : Prop :=
  carries_message m data \/ carries_text (content m) data.

(** The providers of a loaded file with the missing ones filled in from the
    defaults. *)
Definition backfilled (ps : list (string * json)) : list (string * json) :=
  fold_left
    (fun d kv => if assoc_mem (fst kv) d then d
                 else assoc_set (fst kv) (snd kv) d)
    default_providers ps.

Definition known_provider (p : json) : Prop :=
  p = JStr "base" \/ p = JStr "openrouter" \/ p = JStr "gemini".

(** The tool names that the dispatch recognises. *)
Definition recognized (tool_name : json) : bool :=
  is_str "list_directory" tool_name || is_str "read_file" tool_name
  || is_str "write_file" tool_name || is_str "execute_shell" tool_name
  || is_str "ask_user" tool_name || is_str "final_answer" tool_name.

(** The text that the specification gives for an unknown tool. *)
Definition claimed_unknown_tool (name : string) : string :=
  "Unknown tool: " ++ name.

Section Replies.

Context {E : Type}.
Variable host : Host E.

(** In state [st] the endpoint answers the request of the loop with a
    response [r] from which the reply [reply] is extracted. *)
Definition model_replies (s : Session) (st : @State E) (reply : json)
    (r : Response) (e' : E) : Prop :=
  requests_post host (env (world st)) (py_str host (chat_url s))
    (request_headers host s) (request_data s (history st)) = (Ret r, e')
  /\ raise_for_status r = Ret tt
  /\ exists body,
       response_json r = Ret body /\ extract_reply s body = Ret reply.

(** The request of the loop in state [st]. *)
Definition the_request (s : Session) (st : @State E) : effect :=
  Post (py_str host (chat_url s)) (request_headers host s)
    (request_data s (history st)).

(** The state once the reply is appended to the History. *)
Definition received (s : Session) (st : @State E) (reply : json)
    (r : Response) (e' : E) : @State E :=
  mkState (ctl st) (history st ++ [mkMessage "assistant" reply])%list
    (Some r) (mkWorld (files (world st)) e')
    (log st ++ [the_request s st])%list.

Definition logged (st : @State E) (x : effect) : @State E :=
  mkState (ctl st) (history st) (response st) (world st)
    (log st ++ [x])%list.

Definition with_world (st : @State E) (w : World E) : @State E :=
  mkState (ctl st) (history st) (response st) w (log st).

(** The state in which a turn ends once the reply was shown as it is:
    the loop awaits the user, the History has gained the reply and nothing
    else, no file has changed, and the terminal has gained the reply. *)
Definition plain_turn (s : Session) (st : @State E) (text : string)
    (r : Response) (e' : E) : @State E :=
  mkState AwaitUserInput
    (history st ++ [mkMessage "assistant" (JStr text)])%list
    (Some r) (mkWorld (files (world st)) e')
    (log st ++ [the_request s st; PrintMarkdown (JStr text)])%list.

(** The state in which a pass ends once a tool result was fed back: the
    loop is about to send to the model again, and the History has gained
    the reply and the tool result as a user message. *)
Definition fed_back (s : Session) (st : @State E) (text : string)
    (r : Response) (w' : World E) (tool_name : json)
    (items : list (string * json)) (tool_result : string) : @State E :=
  mkState SendToModel
    (history st ++ [mkMessage "assistant" (JStr text);
                    mkMessage "user" (JStr ("TOOL_RESULT: " ++ tool_result))])%list
    (Some r) w'
    (log st ++ [the_request s st; PrintToolCall tool_name items;
                show_result tool_result])%list.

(** From [st] to [st'] the History has only gained entries, none of them
    a system message, and the trace of effects has only gained entries. *)
Definition advances (st st' : @State E) : Prop :=
  (exists extra,
     history st' = (history st ++ extra)%list
     /\ forallb (fun m => negb (is_system m)) extra = true)
  /\ extends (log st) (log st').

(** The same, within one place of the loop. *)
Definition grows (st st' : @State E) : Prop :=
  ctl st' = ctl st /\ advances st st'.

(** From [st] to [st'] the loop stands at the same place, the History is
    untouched and the trace of effects has only gained entries. *)
Definition quiet (st st' : @State E) : Prop :=
  ctl st' = ctl st /\ history st' = history st
  /\ extends (log st) (log st').

(** A computation of the loop takes every state to one related by [R]. *)
Definition respects (R : @State E -> @State E -> Prop) {A} (m : M A)
    : Prop :=
  forall st, R st (snd (m st)).

(** What an iteration of the inner loop leaves of the History [h] it
    started from, once the reply [reply] is in: the reply and a tool
    result when the loop goes on, the reply alone when it stops. *)
Definition pass_shape (h : list Message) (reply : json)
    (out : res flow * @State E) : Prop :=
  (fst out = Ret Continue
   /\ exists c,
        history (snd out)
        = (h ++ [mkMessage "assistant" reply; mkMessage "user" c])%list)
  \/ (fst out <> Ret Continue
      /\ history (snd out) = (h ++ [mkMessage "assistant" reply])%list).

(** The invariant behind the alternation: after the system message the
    roles alternate, and the next entry is the user's where the loop
    awaits the user, the assistant's where it awaits the model. *)
Definition alternation_invariant (sys : Message) (st : @State E) : Prop :=
  exists rest,
    history st = sys :: rest
    /\ match ctl st with
       | AwaitUserInput => next_role true rest = Some true
       | SendToModel => next_role true rest = Some false
       | Returned | Escaped _ => True
       end.

(** Every request of the first [n] steps was answered with a reply. *)
Definition always_replied (s : Session) (st0 : @State E) (n : nat) : Prop :=
  forall k, k < n ->
    ctl (run host k s st0) = SendToModel ->
    exists reply r e', model_replies s (run host k s st0) reply r e'.

End Replies.

(* ------------------------------------------------------------------ *)
(** ** Further vocabulary *)

(** An effect is no request, or a request to [url] with [headers]. *)
Definition posts_only (url : string) (headers : json) (x : effect) : Prop :=
  match x with
  | Post u h _ => u = url /\ h = headers
  | _ => True
  end.

(** The three chat endpoints of [PROVIDER_URLS]. *)
Definition chat_endpoint (url : string) : Prop :=
  url = "https://text.pollinations.ai/openai"
  \/ url = "https://openrouter.ai/api/v1/chat/completions"
  \/ url = "https://generativelanguage.googleapis.com/v1beta/models/gemini-pro:generateContent".

Section MoreRelations.

Context {E : Type}.

(** From [st] to [st'] the trace has only gained effects that satisfy
    [P]. *)
Definition logs_only (P : effect -> Prop) (st st' : @State E) : Prop :=
  exists l, log st' = (log st ++ l)%list /\ Forall P l.

End MoreRelations.

(* ------------------------------------------------------------------ *)
(** ** Notions for the command line *)

(** A text, as opposed to any other JSON value. *)
Definition is_text (v : json) : Prop := exists s, v = JStr s.

(** The last cell of a row of the table of models: the kind of the model. *)
Definition kind_of (row : list string) : string := last row "".

Section CliSpec.

Context {E : Type}.

(** The configuration, the list of models and the world are as they
    were. *)
Definition untouched (c c' : @Cli E) : Prop :=
  cli_config c' = cli_config c
  /\ cli_models c' = cli_models c
  /\ cli_world c' = cli_world c.

(** A computation that at most shows something. *)
Definition only_says {A} (m : SE (@Cli E) A) : Prop :=
  forall c, untouched c (snd (m c)).

(** A relation between the state before and after that [m] keeps. *)
Definition keeps {A} (R : @Cli E -> @Cli E -> Prop) (m : SE (@Cli E) A)
    : Prop :=
  forall c, R c (snd (m c)).

(** The configuration, the list of models and the files are as they
    were; the rest of the environment may have moved on. *)
Definition settled (c c' : @Cli E) : Prop :=
  cli_config c' = cli_config c
  /\ cli_models c' = cli_models c
  /\ files (cli_world c') = files (cli_world c).

Definition same_models (c c' : @Cli E) : Prop :=
  cli_models c' = cli_models c.

Definition same_stored (c c' : @Cli E) : Prop :=
  cli_config c' = cli_config c
  /\ files (cli_world c') = files (cli_world c).

(** No file other than [path] differs between the two worlds. *)
Definition same_files_but (path : string) (w w' : World E) : Prop :=
  forall p, p <> path -> files w' p = files w p.

Variable host : Host E.
Variable plat : Platform E.

(** The configuration with one field of one provider replaced. *)
Definition with_field (fields ps entry : list (string * json))
    (p field value : string) : json :=
  JObj (assoc_set "providers"
          (JObj (assoc_set p (JObj (assoc_set field (JStr value) entry)) ps))
          fields).

(** What an accepted [set api_key] or [set model] comes to: the changed
    configuration, saved, and a line shown when the saving returned. *)
Definition stored (c : @Cli E) (config' : json) (shown : list output)
    : res unit * @Cli E :=
  match save_config host plat config' (cli_world c) with
  | (Ret _, w') =>
      (Ret tt, mkCli config' (cli_models c) w' (cli_out c ++ shown)%list)
  | (Raise e, w') => (Raise e, mkCli config' (cli_models c) w' (cli_out c))
  end.

(** [main] is at its prompt and the line typed next has [name] as its
    lower-cased first word. *)
Definition typed_command (m : @Main E) (name : string) : Prop :=
  mode_of m = AtPrompt
  /\ exists line e' word args,
       console_input host (env (cli_world (cli m))) = (Ret line, e')
       /\ py_split (py_strip line) = word :: args
       /\ py_lower plat word = name.

(** The address that [get_available_models] asks for provider [p], and
    the headers it sends with a key. *)
Definition models_endpoint (p : string) : string :=
  match py_get PROVIDER_URLS (JStr p) (JObj []) with
  | Ret urls =>
      match py_get urls (JStr "models") JNull with
      | Ret (JStr url) => url
      | _ => ""
      end
  | Raise _ => ""
  end.

Definition models_headers (key : json) : json :=
  if py_truthy host key
  then JObj [("Authorization", JStr ("Bearer " ++ py_str host key))]
  else JObj [].

(** What the request for the models comes to before the table is made:
    the decoded body, or the exception of the transport, of the status or
    of the decoding. *)
Definition models_answer (r : res Response) : res json :=
  (response <- r ;;
   _ <- raise_for_status response ;;
   response_json response)%res.

End CliSpec.

(* ------------------------------------------------------------------ *)
(** ** Notions for the written configuration *)

Fixpoint distinct (keys : list string) : bool :=
  match keys with
  | [] => true
  | k :: rest => negb (existsb (String.eqb k) rest) && distinct rest
  end.

(** A value that [json.dump] writes and [json.load] reads back as it is: no
    float (of which the embedding keeps the lexeme only), integers within
    the limit of the conversion to text, ASCII texts, and dicts with
    distinct keys, as every Python dict has them. *)
Fixpoint storable (v : json) : bool :=
  match v with
  | JNull | JBool _ => true
  | JInt z => Nat.leb (String.length (str_of_Z (Z.abs z))) 4300
  | JFloat _ => false
  | JStr s => is_ascii s
  | JArr items => forallb storable items
  | JObj fields =>
      forallb (fun kv => is_ascii (fst kv) && storable (snd kv)) fields
      && distinct (map fst fields)
  end.

(** What may follow a value in the text of the encoder: nothing, a comma or
    a new line. *)
Definition ends_value (rest : string) : bool :=
  match rest with
  | EmptyString => true
  | String c _ => Ascii.eqb c ","%char || Ascii.eqb c chr_lf
  end.

(** The characters with which the text of a value can start. *)
Definition value_head (c : ascii) : bool :=
  Ascii.eqb c chr_quote || Ascii.eqb c chr_lbrace || Ascii.eqb c "["%char
  || Ascii.eqb c "n"%char || Ascii.eqb c "t"%char || Ascii.eqb c "f"%char
  || Ascii.eqb c "-"%char || is_digit c.

(** A decimal number that starts with a digit other than zero. *)
Definition head_nonzero (d : Decimal.uint) : Prop :=
  match d with
  | Decimal.Nil | Decimal.D0 _ => False
  | _ => True
  end.

(** A text that does not go on with a digit, a dot or an exponent. *)
Definition ends_number (rest : string) : bool :=
  match rest with
  | EmptyString => true
  | String c _ =>
      negb (is_digit c || Ascii.eqb c "."%char || Ascii.eqb c "e"%char
            || Ascii.eqb c "E"%char)
  end.

Section EncoderSpec.

Variable float_repr : string -> string.

(** The items of a list and of a dict as [iterencode] writes them, under
    names of their own. *)
Definition item_arr (level : nat) (buf : string) (y : json) : written :=
  match y with
  | JArr _ | JObj _ =>
      and_then (chunk buf) (iterencode float_repr (S level) y)
  | _ => atom_chunk float_repr buf y
  end.

Fixpoint more_arr (level : nat) (l : list json) : written :=
  match l with
  | [] => chunk ""
  | y :: l' =>
      and_then (item_arr level ("," ++ newline_indent (S level)) y)
        (more_arr level l')
  end.

Definition item_obj (level : nat) (buf key : string) (y : json) : written :=
  and_then (chunk (buf ++ py_encode_basestring_ascii key ++ ": "))
    match y with
    | JArr _ | JObj _ => iterencode float_repr (S level) y
    | _ => atom_chunk float_repr "" y
    end.

Fixpoint more_obj (level : nat) (l : list (string * json)) : written :=
  match l with
  | [] => chunk ""
  | (key, y) :: l' =>
      and_then (item_obj level ("," ++ newline_indent (S level)) key y)
        (more_obj level l')
  end.

(** The text of [v] is complete, starts like a value, and the decoder
    reads it back as [v], whatever follows that may follow a value. *)
Definition reads_back (v : json) : Prop :=
  forall level,
    snd (iterencode float_repr level v) = None
    /\ (exists c t,
          fst (iterencode float_repr level v) = String c t
          /\ value_head c = true)
    /\ forall rest fuel,
         ends_value rest = true ->
         String.length (fst (iterencode float_repr level v) ++ rest) < fuel ->
         scan_once fuel (fst (iterencode float_repr level v) ++ rest)
         = Ret (v, rest).

(** A field with an ASCII key and a value that reads back. *)
Definition field_ok (kv : string * json) : Prop :=
  is_ascii (fst kv) = true /\ reads_back (snd kv).

End EncoderSpec.

(* ------------------------------------------------------------------ *)
(** ** Concrete conversations *)

(** The loop about to send its first request, the user having typed "hi";
    the endpoint will give [replies]. *)
Definition asking (replies : list (res Response)) : @State Script :=
  mkState SendToModel
    [system_message script_host; mkMessage "user" (JStr "hi")]
    None (script_world [] replies) [].

Definition the_response (text : string) : Response :=
  mkResponse (Ret tt) (Ret (openai_reply text)) "".

Definition after_reply : Script := mkScript [] [] [].

(** The text [{"tool":"write_file","args":{"path":"x.txt","content":"abc"}}]. *)
Definition write_reply : string :=
  "{" ++ quote ++ "tool" ++ quote ++ ":" ++ quote ++ "write_file" ++ quote
  ++ "," ++ quote ++ "args" ++ quote ++ ":{" ++ quote ++ "path" ++ quote
  ++ ":" ++ quote ++ "x.txt" ++ quote ++ "," ++ quote ++ "content" ++ quote
  ++ ":" ++ quote ++ "abc" ++ quote ++ "}}".

Definition write_action : json :=
  JObj [("tool", JStr "write_file");
        ("args", JObj [("path", JStr "x.txt"); ("content", JStr "abc")])].

(** The user types "a", the request fails, the user types "b". *)
Definition failed_then_asked_again : @State Script :=
  run script_host 3 base_session
    (initial_state script_host
       (script_world ["a"; "b"] [raise RequestException "connection refused"])
       []).

(** The user types "hi" and the model answers "done". *)
Definition short_chat : @State Script :=
  initial_state script_host
    (script_world ["hi"] [Ret (the_response "done")]) [].

(** A configuration file that exists and cannot be opened. *)
Definition unreadable_config : World Script :=
  mkWorld no_files
    (mkScript [] []
       [(OpOpenRead "config.json",
         mkExn PermissionError "[Errno 13] Permission denied: 'config.json'")]).

(** A configuration with a key for the default provider. *)
Definition keyed_config : json :=
  JObj [("default_provider", JStr "openrouter");
        ("providers",
         JObj [("base", default_provider_config);
               ("openrouter",
                JObj [("api_key", JStr "sk-1"); ("model", JStr "m1")]);
               ("gemini", default_provider_config)])].

(** The text of a configuration file without the gemini provider:
    [{"default_provider": "openrouter", "providers": {"base": {"api_key": "",
    "model": "default-model"}, "openrouter": {"api_key": "sk-1",
    "model": "m1"}}}]. *)
Definition gemini_less_text : string :=
  "{" ++ quote ++ "default_provider" ++ quote ++ ": " ++ quote ++ "openrouter"
  ++ quote ++ ", " ++ quote ++ "providers" ++ quote ++ ": {" ++ quote
  ++ "base" ++ quote ++ ": {" ++ quote ++ "api_key" ++ quote ++ ": " ++ quote
  ++ quote ++ ", " ++ quote ++ "model" ++ quote ++ ": " ++ quote
  ++ "default-model" ++ quote ++ "}, " ++ quote ++ "openrouter" ++ quote
  ++ ": {" ++ quote ++ "api_key" ++ quote ++ ": " ++ quote ++ "sk-1" ++ quote
  ++ ", " ++ quote ++ "model" ++ quote ++ ": " ++ quote ++ "m1" ++ quote
  ++ "}}}".

Definition gemini_less_config : World Script :=
  mkWorld (fun p => if String.eqb p "config.json"
                    then Some gemini_less_text else None)
    (mkScript [] [] []).

(** The text [{"tool":"final_answer","args":{"text":"hi"}}]. *)
Definition final_reply : string :=
  "{" ++ quote ++ "tool" ++ quote ++ ":" ++ quote ++ "final_answer" ++ quote
  ++ "," ++ quote ++ "args" ++ quote ++ ":{" ++ quote ++ "text" ++ quote
  ++ ":" ++ quote ++ "hi" ++ quote ++ "}}".

(** The text [{"tool":"ask_user","args":{"question":"which?"}}]. *)
Definition ask_reply : string :=
  "{" ++ quote ++ "tool" ++ quote ++ ":" ++ quote ++ "ask_user" ++ quote
  ++ "," ++ quote ++ "args" ++ quote ++ ":{" ++ quote ++ "question" ++ quote
  ++ ":" ++ quote ++ "which?" ++ quote ++ "}}".

(** The text [{"tool":"read_file","args":"x.txt"}]: the arguments are a text,
    not an object. *)
Definition bad_args_reply : string :=
  "{" ++ quote ++ "tool" ++ quote ++ ":" ++ quote ++ "read_file" ++ quote
  ++ "," ++ quote ++ "args" ++ quote ++ ":" ++ quote ++ "x.txt" ++ quote
  ++ "}".

(** A successful response without the "choices" key. *)
Definition choiceless_response : Response :=
  mkResponse (Ret tt) (Ret (JObj [("error", JStr "overloaded")]))
    "{error: overloaded}".

(** A successful response whose message has a null content. *)
Definition null_content_response : Response :=
  mkResponse (Ret tt)
    (Ret (JObj [("choices",
                 JArr [JObj [("message",
                              JObj [("role", JStr "assistant");
                                    ("content", JNull)])]])]))
    "".

(** The session that [/chat gpt-4] sets up from [keyed_config]. *)
Definition keyed_session : Session :=
  mkSession (JStr "gpt-4") (JStr "openrouter") (JStr "sk-1")
    (JStr "https://openrouter.ai/api/v1/chat/completions").

(** The user asks, the model writes a file and then answers. *)
Definition writing_chat : World Script :=
  script_world ["hi"; "/exit"]
    [Ret (the_response write_reply); Ret (the_response final_reply)].

(* ------------------------------------------------------------------ *)
(** ** Sessions at the command line *)

(** [main] at its prompt with [keyed_config] in memory; the user will type
    [lines], the endpoints will give [replies], the operating system refuses
    [refusals]. *)
Definition at_prompt (lines : list string) (replies : list (res Response))
    (refusals : list (os_op * exn)) : @Main Script :=
  mkMain AtPrompt
    (mkCli keyed_config [] (mkWorld no_files (mkScript lines replies refusals))
       []).

Definition keyed_providers : list (string * json) :=
  [("base", default_provider_config);
   ("openrouter", JObj [("api_key", JStr "sk-1"); ("model", JStr "m1")]);
   ("gemini", default_provider_config)].

Definition keyed_fields : list (string * json) :=
  [("default_provider", JStr "openrouter");
   ("providers", JObj keyed_providers)].

(** The configuration file cannot be written. *)
Definition read_only_config : list (os_op * exn) :=
  [(OpOpenWrite "meowcli/config.json",
    mkExn PermissionError
      "[Errno 13] Permission denied: 'meowcli/config.json'")].

(* ================================================================== *)
(** * Properties *)

(** ** Exceptions *)

Lemma caught_by_Exception (e : exn) : caught_by [Exception] e = true.
Proof. destruct e as [c m]; destruct c; reflexivity. Qed.

Lemma try_except_Exception {A} (body : res A) (handler : exn -> res A) :
  try_except body [Exception] handler
  = match body with Ret a => Ret a | Raise e => handler e end.
Proof.
  destruct body as [a|e]; unfold try_except; [reflexivity|].
  now rewrite caught_by_Exception.
Qed.

(** ** Text *)

Lemma append_nil_r (s : string) : (s ++ "")%string = s.
Proof. induction s; simpl; congruence. Qed.

Lemma append_assoc (a b c : string) :
  ((a ++ b) ++ c)%string = (a ++ b ++ c)%string.
Proof. induction a; simpl; congruence. Qed.

Lemma length_append (a b : string) :
  String.length (a ++ b) = String.length a + String.length b.
Proof. induction a; simpl; congruence. Qed.

Lemma slice_length_le (i n : nat) (s : string) :
  String.length (slice i n s) <= String.length s.
Proof.
  revert i n; induction s as [|c s IH]; intros [|i] [|n]; simpl; try lia.
  - specialize (IH 0 n); lia.
  - specialize (IH i 0); lia.
  - specialize (IH i (S n)); lia.
Qed.

Lemma slice_0_append (a b : string) :
  slice 0 (String.length a) (a ++ b) = a.
Proof. induction a; simpl; [destruct b; reflexivity | congruence]. Qed.

Lemma slice_skip (a b : string) (n : nat) :
  slice (String.length a) n (a ++ b) = slice 0 n b.
Proof. induction a; simpl; [destruct n, b; reflexivity | assumption]. Qed.

(** ** The regular expression *)

Lemma match_rbrace (s : string) :
  match_here [Lit chr_rbrace] s
  = match s with
    | String a _ => if Ascii.eqb a chr_rbrace then Some 1 else None
    | EmptyString => None
    end.
Proof. destruct s as [|a s]; simpl; [|destruct (Ascii.eqb a chr_rbrace)]; reflexivity. Qed.

(** The greedy star followed by the closing brace ends at the last closing
    brace. *)
Lemma match_tail_rfind (s : string) :
  match_here tail_re s = option_map S (rfind chr_rbrace s).
Proof.
  induction s as [|a s IH].
  - reflexivity.
  - change (match_here tail_re (String a s))
      with (match match_here tail_re s with
            | Some n => Some (S n)
            | None => match_here [Lit chr_rbrace] (String a s)
            end).
    rewrite IH, match_rbrace. simpl.
    destruct (rfind chr_rbrace s); simpl; [reflexivity|].
    destruct (Ascii.eqb a chr_rbrace); reflexivity.
Qed.

Lemma match_brace_re (s : string) :
  match_here brace_re s
  = match s with
    | String a s' =>
        if Ascii.eqb a chr_lbrace
        then option_map (fun j => S (S j)) (rfind chr_rbrace s')
        else None
    | EmptyString => None
    end.
Proof.
  destruct s as [|a s]; [reflexivity|].
  change (match_here brace_re (String a s))
    with (if Ascii.eqb a chr_lbrace
          then option_map S (match_here tail_re s) else None).
  rewrite match_tail_rfind.
  destruct (Ascii.eqb a chr_lbrace); [|reflexivity].
  destruct (rfind chr_rbrace s); reflexivity.
Qed.

Lemma rfind_none_search (s : string) (pos : nat) :
  rfind chr_rbrace s = None -> search_from brace_re s pos = None.
Proof.
  revert pos; induction s as [|a s IH]; intros pos H.
  - reflexivity.
  - simpl in H. destruct (rfind chr_rbrace s) eqn:R; [discriminate|].
    cbn [search_from]. rewrite match_brace_re, R. simpl.
    destruct (Ascii.eqb a chr_lbrace); now apply IH.
Qed.

(** The search of the source, in terms of [find] and [rfind]. *)
Lemma search_from_spec (s : string) (pos : nat) :
  search_from brace_re s pos
  = match find chr_lbrace s, rfind chr_rbrace s with
    | Some i, Some j =>
        if Nat.ltb i j then Some (pos + i, j - i + 1) else None
    | _, _ => None
    end.
Proof.
  revert pos; induction s as [|a s IH]; intros pos.
  - reflexivity.
  - cbn [search_from]. rewrite match_brace_re. cbn [find rfind].
    destruct (Ascii.eqb a chr_lbrace) eqn:L.
    + destruct (rfind chr_rbrace s) as [j|] eqn:R; simpl.
      * f_equal. f_equal; lia.
      * rewrite (rfind_none_search s (S pos) R).
        assert (Ascii.eqb a chr_rbrace = false) as ->.
        { apply Ascii.eqb_eq in L; subst a; reflexivity. }
        reflexivity.
    + simpl. rewrite IH.
      destruct (find chr_lbrace s) as [i|]; simpl; [|reflexivity].
      destruct (rfind chr_rbrace s) as [j|] eqn:R; simpl.
      * change (Nat.ltb (S i) (S j)) with (Nat.ltb i j).
        destruct (Nat.ltb i j); [|reflexivity].
        f_equal. f_equal; lia.
      * destruct (Ascii.eqb a chr_rbrace); reflexivity.
Qed.

(** The span the source extracts is the span of the specification. *)
Lemma group_search_greedy (s : string) :
  option_map (group s) (re_search brace_re s) = greedy_span s.
Proof.
  unfold re_search, greedy_span. rewrite search_from_spec.
  destruct (find chr_lbrace s) as [i|]; [|reflexivity].
  destruct (rfind chr_rbrace s) as [j|]; [|reflexivity].
  destruct (Nat.ltb i j); reflexivity.
Qed.

Lemma find_slice (c : ascii) (s : string) (i n : nat) :
  find c s = Some i -> exists r, slice i (S n) s = String c r.
Proof.
  revert i; induction s as [|a s IH]; intros i H; [discriminate|].
  simpl in H. destruct (Ascii.eqb a c) eqn:Eq.
  - injection H as <-. apply Ascii.eqb_eq in Eq; subst. simpl. eauto.
  - destruct (find c s) as [k|]; [|discriminate]. injection H as <-.
    simpl. now apply IH.
Qed.

(** The extracted span starts with an opening brace. *)
Lemma greedy_span_starts (s span : string) :
  greedy_span s = Some span -> exists r, span = String chr_lbrace r.
Proof.
  unfold greedy_span.
  destruct (find chr_lbrace s) as [i|] eqn:F; [|discriminate].
  destruct (rfind chr_rbrace s) as [j|]; [|discriminate].
  destruct (Nat.ltb i j); [|discriminate].
  intros [= <-]. replace (j - i + 1) with (S (j - i)) by lia.
  eapply find_slice; eassumption.
Qed.

Lemma find_split (c : ascii) (s : string) (i : nat) :
  find c s = Some i ->
  exists a b, s = (a ++ String c b)%string /\ String.length a = i.
Proof.
  revert i; induction s as [|x s IH]; intros i H; [discriminate|].
  simpl in H. destruct (Ascii.eqb x c) eqn:Eq.
  - injection H as <-. apply Ascii.eqb_eq in Eq; subst.
    exists EmptyString, s. auto.
  - destruct (find c s) as [k|]; [|discriminate]. injection H as <-.
    destruct (IH k eq_refl) as (a & b & -> & <-).
    exists (String x a), b. auto.
Qed.

Lemma find_append_none (c : ascii) (a b : string) :
  find c (a ++ b) = None -> find c a = None /\ find c b = None.
Proof.
  induction a as [|x a IH]; simpl; [auto|].
  destruct (Ascii.eqb x c); [discriminate|].
  destruct (find c (a ++ b)); [discriminate|]. intros _.
  destruct (IH eq_refl) as [-> ?]. auto.
Qed.

Lemma rfind_append_some (c : ascii) (a b : string) (j : nat) :
  rfind c b = Some j -> rfind c (a ++ b) = Some (String.length a + j).
Proof.
  intros H. induction a as [|x a IH]; simpl; [assumption|].
  now rewrite IH.
Qed.

Lemma find_append_le (c : ascii) (a b : string) (i : nat) :
  find c (a ++ String c b) = Some i -> i <= String.length a.
Proof.
  revert i; induction a as [|x a IH]; intros i; simpl.
  - rewrite Ascii.eqb_refl. intros [= <-]. lia.
  - destruct (Ascii.eqb x c); [intros [= <-]; lia|].
    destruct (find c (a ++ String c b)) as [k|]; [|discriminate].
    intros [= <-]. specialize (IH k eq_refl). lia.
Qed.

Lemma find_some_of_mem (c : ascii) (a b : string) :
  exists i, find c (a ++ String c b) = Some i.
Proof.
  induction a as [|x a [i IH]]; simpl.
  - rewrite Ascii.eqb_refl. eauto.
  - destruct (Ascii.eqb x c); [eauto|]. rewrite IH. simpl. eauto.
Qed.

Lemma rfind_some_of_mem (c : ascii) (a b : string) :
  exists j, rfind c (a ++ String c b) = Some j /\ String.length a <= j.
Proof.
  induction a as [|x a (j & IH & Hj)]; simpl.
  - destruct (rfind c b) as [k|]; [exists (S k); split; [reflexivity|lia]|].
    rewrite Ascii.eqb_refl. exists 0. auto.
  - rewrite IH. exists (S j). split; [reflexivity|lia].
Qed.

Lemma rfind_split (c : ascii) (s : string) (j : nat) :
  rfind c s = Some j -> exists a b, s = (a ++ String c b)%string.
Proof.
  revert j; induction s as [|y s IH]; intros j H; [discriminate|].
  simpl in H. destruct (rfind c s) as [k|] eqn:K.
  - destruct (IH k eq_refl) as (a & b & ->). exists (String y a), b. reflexivity.
  - destruct (Ascii.eqb y c) eqn:Y; [|discriminate].
    apply Ascii.eqb_eq in Y; subst y. exists EmptyString, s. reflexivity.
Qed.

(** A reply has a span exactly when it has a brace pair. *)
Lemma greedy_span_pair (s : string) :
  has_brace_pair s <-> exists span, greedy_span s = Some span.
Proof.
  unfold has_brace_pair, greedy_span, str1. split.
  - intros (a & b & c & ->).
    destruct (find_some_of_mem chr_lbrace a (b ++ String chr_rbrace c))
      as [i Hi].
    pose proof (find_append_le _ _ _ _ Hi) as Hle.
    change (a ++ String chr_lbrace "" ++ b ++ String chr_rbrace "" ++ c)%string
      with (a ++ String chr_lbrace (b ++ String chr_rbrace c))%string.
    rewrite Hi.
    destruct (rfind_some_of_mem chr_rbrace b c) as (j & Hj & Hjle).
    assert (rfind chr_rbrace (String chr_lbrace (b ++ String chr_rbrace c))
            = Some (S j)) as Hr by (simpl; now rewrite Hj).
    rewrite (rfind_append_some _ a _ _ Hr).
    assert (Nat.ltb i (String.length a + S j) = true) as -> by (apply Nat.ltb_lt; lia).
    eauto.
  - intros [span H].
    destruct (find chr_lbrace s) as [i|] eqn:F; [|discriminate].
    destruct (rfind chr_rbrace s) as [j|] eqn:R; [|discriminate].
    destruct (Nat.ltb i j) eqn:Lt; [|discriminate]. apply Nat.ltb_lt in Lt.
    destruct (find_split _ _ _ F) as (a & b & -> & <-).
    exists a.
    assert (exists j', rfind chr_rbrace b = Some j') as [j' Rb].
    { clear F H. revert j R Lt. induction a as [|x a IH]; intros j R Lt.
      - simpl in R. destruct (rfind chr_rbrace b) as [k|]; [eauto|].
        simpl in Lt. change (Ascii.eqb chr_lbrace chr_rbrace) with false in R.
        discriminate.
      - simpl in R.
        destruct (rfind chr_rbrace (a ++ String chr_lbrace b)) as [k|] eqn:K.
        + injection R as <-. apply (IH k eq_refl). simpl in Lt. lia.
        + destruct (Ascii.eqb x chr_rbrace); [|discriminate].
          injection R as <-. simpl in Lt. lia. }
    destruct (rfind_split _ _ _ Rb) as (b' & c & ->).
    exists b', c. reflexivity.
Qed.

(** ** The decoder *)

Lemma decode_ok_map {A B} (s s' : string) (m : res (A * string))
    (f : A -> B) :
  decode_ok s' m -> String.length s' <= String.length s ->
  decode_ok s (' (x, r) <- m ;; Ret (f x, r)).
Proof.
  destruct m as [[x r]|e]; simpl; intros; [lia|assumption].
Qed.

Lemma decode_uXXXX_length (s r : string) (n : N) :
  decode_uXXXX s = Some (n, r) -> String.length s = 4 + String.length r.
Proof.
  destruct s as [|a [|b [|c [|d t]]]]; simpl; try discriminate.
  destruct (hex_value a), (hex_value b), (hex_value c), (hex_value d);
    try discriminate.
  intros [= _ <-]. reflexivity.
Qed.

Lemma scanstring_ok (fuel : nat) :
  forall s, String.length s < fuel -> decode_ok s (scanstring fuel s).
Proof.
  induction fuel as [|fuel IH]; intros s Hs; [lia|].
  destruct s as [|c r]; [reflexivity|]. cbn [scanstring].
  simpl in Hs.
  destruct (Ascii.eqb c chr_quote); [simpl; lia|].
  destruct (Ascii.eqb c chr_backslash).
  - destruct r as [|e r1]; [reflexivity|]. simpl in Hs.
    destruct (Ascii.eqb e "u"%char).
    + destruct (decode_uXXXX r1) as [[uni r2]|] eqn:D; [|reflexivity].
      apply decode_uXXXX_length in D.
      assert (decode_ok (String c (String e r1))
                (' (rest, r') <- scanstring fuel r2 ;;
                 Ret ((utf8_of_codepoint uni ++ rest)%string, r'))) as Hplain.
      { apply decode_ok_map with (s' := r2) (f := fun rest => _).
        - apply IH; lia.
        - simpl; lia. }
      destruct ((55296 <=? uni) && (uni <=? 56319))%N; [|exact Hplain].
      destruct r2 as [|b1 [|b2 r3]]; try exact Hplain.
      destruct (Ascii.eqb b1 chr_backslash && Ascii.eqb b2 "u"%char);
        [|exact Hplain].
      destruct (decode_uXXXX r3) as [[uni2 r4]|] eqn:D2; [|reflexivity].
      apply decode_uXXXX_length in D2.
      destruct ((56320 <=? uni2) && (uni2 <=? 57343))%N; [|exact Hplain].
      apply decode_ok_map with (s' := r4) (f := fun rest => _).
      * apply IH. simpl in D. lia.
      * simpl in *. lia.
    + destruct (backslash_escape e); [|reflexivity].
      apply decode_ok_map with (s' := r1) (f := fun rest => _).
      * apply IH; lia.
      * simpl; lia.
  - destruct (Nat.ltb (nat_of_ascii c) 32); [reflexivity|].
    apply decode_ok_map with (s' := r) (f := fun rest => _).
    + apply IH; lia.
    + simpl; lia.
Qed.

Lemma skip_ws_length (s : string) :
  String.length (skip_ws s) <= String.length s.
Proof.
  induction s as [|c s IH]; simpl; [lia|].
  destruct (is_ws c); simpl; lia.
Qed.

Lemma take_digits_length (s d r : string) :
  take_digits s = (d, r) -> String.length r <= String.length s.
Proof.
  revert d r; induction s as [|c s IH]; intros d r; simpl.
  - intros [= _ <-]. simpl; lia.
  - destruct (is_digit c).
    + destruct (take_digits s) as [d0 r0]. intros [= _ <-].
      specialize (IH _ _ eq_refl). lia.
    + intros [= _ <-]. simpl; lia.
Qed.

Lemma scan_integer_length (s l r : string) :
  scan_integer s = Some (l, r) -> String.length r < String.length s.
Proof.
  unfold scan_integer.
  assert (exists sign s1,
            match s with
            | String c r0 => if Ascii.eqb c "-"%char then ("-", r0) else ("", s)
            | EmptyString => ("", s)
            end = (sign, s1) /\ String.length s1 <= String.length s)
    as (sign & s1 & -> & Hle).
  { destruct s as [|c r0]; [eexists _, _; split; [reflexivity|lia]|].
    destruct (Ascii.eqb c "-"%char);
      eexists _, _; (split; [reflexivity|simpl; lia]). }
  destruct s1 as [|c r0]; [discriminate|]. simpl in Hle.
  destruct (Ascii.eqb c "0"%char); [intros [= _ <-]; lia|].
  destruct (is_digit c); [|discriminate].
  destruct (take_digits r0) as [d r'] eqn:T. intros [= _ <-].
  apply take_digits_length in T. lia.
Qed.

Lemma scan_frac_length (s f r : string) :
  scan_frac s = (f, r) -> String.length r <= String.length s.
Proof.
  unfold scan_frac. destruct s as [|c s']; [intros [= _ <-]; lia|].
  destruct (Ascii.eqb c "."%char); [|intros [= _ <-]; lia].
  destruct (take_digits s') as [d r'] eqn:T. apply take_digits_length in T.
  destruct d; intros [= _ <-]; simpl; lia.
Qed.

Lemma scan_exp_length (s x r : string) :
  scan_exp s = (x, r) -> String.length r <= String.length s.
Proof.
  unfold scan_exp. destruct s as [|e s']; [intros [= _ <-]; lia|].
  destruct (Ascii.eqb e "e"%char || Ascii.eqb e "E"%char);
    [|intros [= _ <-]; lia].
  assert (exists sign r1,
            match s' with
            | String c r0 =>
                if Ascii.eqb c "-"%char || Ascii.eqb c "+"%char
                then (str1 c, r0) else ("", s')
            | EmptyString => ("", s')
            end = (sign, r1) /\ String.length r1 <= String.length s')
    as (sign & r1 & -> & Hle).
  { destruct s' as [|c r0]; [eexists _, _; split; [reflexivity|lia]|].
    destruct (Ascii.eqb c "-"%char || Ascii.eqb c "+"%char);
      eexists _, _; (split; [reflexivity|simpl; lia]). }
  destruct (take_digits r1) as [d r'] eqn:T. apply take_digits_length in T.
  destruct d; intros [= _ <-]; simpl; lia.
Qed.

Lemma scan_number_length (s r : string) (v : json) :
  scan_number s = Some (v, r) -> String.length r < String.length s.
Proof.
  unfold scan_number.
  destruct (scan_integer s) as [[l r0]|] eqn:I; [|discriminate].
  apply scan_integer_length in I.
  destruct (scan_frac r0) as [f r1] eqn:F. apply scan_frac_length in F.
  destruct (scan_exp r1) as [x r2] eqn:X. apply scan_exp_length in X.
  destruct f, x; intros [= _ <-]; lia.
Qed.

Lemma slice_rest_length (k : nat) (s : string) :
  s <> EmptyString ->
  String.length (slice (S k) (String.length s) s) < String.length s.
Proof.
  destruct s as [|c s']; [congruence|]. intros _. simpl.
  pose proof (slice_length_le k (S (String.length s')) s'). lia.
Qed.

Section DecoderProofs.

Variable scan : string -> res (json * string).
Variable bound : nat.
Hypothesis scan_ok :
  forall s, String.length s < bound -> decode_ok s (scan s).

Lemma object_loop_ok (fuel : nat) :
  forall s pairs,
    String.length s < fuel -> String.length s <= bound ->
    decode_ok s (object_loop scan fuel s pairs).
Proof.
  induction fuel as [|fuel IH]; intros s pairs Hf Hb; [lia|].
  cbn [object_loop].
  pose proof (scanstring_ok (S (String.length s)) s (Nat.lt_succ_diag_r _))
    as Hk.
  destruct (scanstring (S (String.length s)) s) as [[key s1]|e];
    [|exact Hk].
  simpl in Hk. cbn [bind].
  pose proof (skip_ws_length s1) as H1.
  destruct (skip_ws s1) as [|c1 s2]; [reflexivity|].
  destruct (Ascii.eqb c1 ":"%char); [|reflexivity].
  simpl in H1. pose proof (skip_ws_length s2) as H2.
  assert (String.length (skip_ws s2) < bound) as Hlt by lia.
  pose proof (scan_ok _ Hlt) as Hv.
  destruct (scan (skip_ws s2)) as [[value s3]|e]; [|exact Hv].
  simpl in Hv. cbn [bind].
  pose proof (skip_ws_length s3) as H3.
  destruct (skip_ws s3) as [|c s4]; [reflexivity|]. simpl in H3.
  destruct (Ascii.eqb c chr_rbrace); [simpl; lia|].
  destruct (Ascii.eqb c ","%char); [|reflexivity].
  pose proof (skip_ws_length s4) as H4.
  destruct (skip_ws s4) as [|q s5]; [reflexivity|]. simpl in H4.
  destruct (Ascii.eqb q chr_quote); [|reflexivity].
  assert (decode_ok s5 (object_loop scan fuel s5
                          (pairs ++ [(key, value)])%list)) as Hr.
  { apply IH; lia. }
  destruct (object_loop scan fuel s5 _) as [[ps r]|e]; simpl in *;
    [lia|assumption].
Qed.

Lemma JSONObject_ok (fuel : nat) (s : string) :
  String.length s < fuel -> String.length s <= bound ->
  match JSONObject scan fuel s with
  | Ret (_, r) => String.length r <= String.length s
  | Raise e => cls e = JSONDecodeError
  end.
Proof.
  intros Hf Hb. unfold JSONObject.
  pose proof (skip_ws_length s) as H0.
  destruct (skip_ws s) as [|c r]; [reflexivity|]. simpl in H0.
  destruct (Ascii.eqb c chr_rbrace); [lia|].
  destruct (Ascii.eqb c chr_quote); [|reflexivity].
  assert (decode_ok r (object_loop scan fuel r [])) as Hr.
  { apply object_loop_ok; lia. }
  destruct (object_loop scan fuel r []) as [[ps r']|e]; simpl in *;
    [lia|assumption].
Qed.

Lemma array_loop_ok (fuel : nat) :
  forall s values,
    String.length s < fuel -> String.length s < bound ->
    decode_ok s (array_loop scan fuel s values).
Proof.
  induction fuel as [|fuel IH]; intros s values Hf Hb; [lia|].
  cbn [array_loop].
  pose proof (scan_ok _ Hb) as Hv.
  destruct (scan s) as [[value s1]|e]; [|exact Hv].
  simpl in Hv. cbn [bind].
  pose proof (skip_ws_length s1) as H1.
  destruct (skip_ws s1) as [|c s2]; [reflexivity|]. simpl in H1.
  destruct (Ascii.eqb c "]"%char); [simpl; lia|].
  destruct (Ascii.eqb c ","%char); [|reflexivity].
  pose proof (skip_ws_length s2) as H2.
  assert (decode_ok (skip_ws s2)
            (array_loop scan fuel (skip_ws s2) (values ++ [value])%list))
    as Hr.
  { apply IH; lia. }
  destruct (array_loop scan fuel (skip_ws s2) _) as [[vs r]|e];
    simpl in *; [lia|assumption].
Qed.

Lemma JSONArray_ok (fuel : nat) (s : string) :
  String.length s < fuel -> String.length s < bound ->
  match JSONArray scan fuel s with
  | Ret (_, r) => String.length r <= String.length s
  | Raise e => cls e = JSONDecodeError
  end.
Proof.
  intros Hf Hb. unfold JSONArray.
  pose proof (skip_ws_length s) as H0.
  assert (forall t, String.length t <= String.length s ->
            match array_loop scan fuel t [] with
            | Ret (_, r) => String.length r <= String.length s
            | Raise e => cls e = JSONDecodeError
            end) as Hloop.
  { intros t Ht.
    assert (decode_ok t (array_loop scan fuel t [])) as Hr
      by (apply array_loop_ok; lia).
    destruct (array_loop scan fuel t []) as [[vs r]|e]; simpl in *;
      [lia|assumption]. }
  destruct (skip_ws s) as [|c r] eqn:W.
  - apply Hloop. simpl; lia.
  - destruct (Ascii.eqb c "]"%char); [simpl in H0; lia|].
    apply Hloop. exact H0.
Qed.

End DecoderProofs.

(** The length of the text is fuel enough. *)
Lemma scan_once_fuel (fuel : nat) :
  forall s, String.length s < fuel -> decode_ok s (scan_once fuel s).
Proof.
  induction fuel as [|fuel IH]; intros s Hs; [lia|].
  destruct s as [|c r]; [reflexivity|]. cbn [scan_once]. simpl in Hs.
  destruct (Ascii.eqb c chr_quote).
  { pose proof (scanstring_ok (S (String.length r)) r (Nat.lt_succ_diag_r _))
      as Hk.
    destruct (scanstring _ r) as [[str r']|e]; simpl in *; [lia|assumption]. }
  destruct (Ascii.eqb c chr_lbrace).
  { assert (String.length r < fuel) as Hr by lia.
    assert (String.length r <= fuel) as Hle by lia.
    pose proof (JSONObject_ok (scan_once fuel) fuel IH fuel r Hr Hle) as Ho.
    destruct (JSONObject (scan_once fuel) fuel r) as [[fs r']|e];
      simpl in *; [lia|assumption]. }
  destruct (Ascii.eqb c "["%char).
  { assert (String.length r < fuel) as Hr by lia.
    pose proof (JSONArray_ok (scan_once fuel) fuel IH fuel r Hr Hr) as Ha.
    destruct (JSONArray (scan_once fuel) fuel r) as [[vs r']|e];
      simpl in *; [lia|assumption]. }
  assert (forall k, decode_ok (String c r)
            (Ret (JNull, slice (S k) (String.length (String c r))
                           (String c r)))) as Hlit.
  { intros k. simpl.
    pose proof (slice_length_le k (S (String.length r)) r). lia. }
  destruct (starts_with "null" (String c r)); [apply (Hlit 3)|].
  destruct (starts_with "true" (String c r)); [apply (Hlit 3)|].
  destruct (starts_with "false" (String c r)); [apply (Hlit 4)|].
  destruct (scan_number (String c r)) as [[v r']|] eqn:Nm.
  { apply scan_number_length in Nm. exact Nm. }
  destruct (starts_with "NaN" (String c r)); [apply (Hlit 2)|].
  destruct (starts_with "Infinity" (String c r)); [apply (Hlit 7)|].
  destruct (starts_with "-Infinity" (String c r)); [apply (Hlit 8)|].
  reflexivity.
Qed.

(** [json.loads] raises nothing but [JSONDecodeError]. *)
Lemma json_loads_raises (s : string) (e : exn) :
  json_loads s = Raise e -> cls e = JSONDecodeError.
Proof.
  unfold json_loads.
  destruct (starts_with BOM s); [intros [= <-]; reflexivity|].
  pose proof (skip_ws_length s) as Hw.
  assert (String.length (skip_ws s) < S (String.length s)) as Hlt by lia.
  pose proof (scan_once_fuel _ _ Hlt) as Hok.
  destruct (scan_once (S (String.length s)) (skip_ws s)) as [[obj r]|e'];
    simpl in *.
  - destruct (skip_ws r); [discriminate|intros [= <-]; reflexivity].
  - intros [= <-]. assumption.
Qed.

(** A text that starts with an opening brace decodes, if at all, to a
    dict. *)
Lemma json_loads_object (r : string) (v : json) :
  json_loads (String chr_lbrace r) = Ret v -> is_dict v = true.
Proof.
  unfold json_loads.
  change (starts_with BOM (String chr_lbrace r)) with false.
  change (skip_ws (String chr_lbrace r)) with (String chr_lbrace r).
  cbn [scan_once].
  change (Ascii.eqb chr_lbrace chr_quote) with false.
  change (Ascii.eqb chr_lbrace chr_lbrace) with true.
  cbv iota.
  destruct (JSONObject _ _ r) as [[fs r']|e]; simpl; [|discriminate].
  destruct (skip_ws r'); [|discriminate]. intros [= <-]. reflexivity.
Qed.

(** ** The agent loop *)

Section LoopProofs.

Context {E : Type}.
Variable host : Host E.

Lemma plain_answer_run (reply : json) (st : @State E) :
  plain_answer reply st = (Ret Break, logged st (PrintMarkdown reply)).
Proof. reflexivity. Qed.

(** With a reply extracted, the pass is the dispatch of that reply on the
    History that now ends with it. *)
Lemma inner_body_received (s : Session) (st : @State E) (reply : json)
    (r : Response) (e' : E) :
  model_replies host s st reply r e' ->
  inner_body host s st
  = tryM (dispatch host reply) outer_clauses (received host s st reply r e').
Proof.
  intros (Hpost & Hstatus & body & Hjson & Hreply).
  unfold inner_body, exchange, tryM at 1, bindM, get_history, emit, on_env,
    on_world, set_response, lift, history_append. simpl.
  rewrite Hpost. simpl. rewrite Hstatus, Hjson, Hreply.
  reflexivity.
Qed.

Lemma search_reply_text (text : string) :
  search_reply (JStr text)
  = Ret (option_map (fun m => (text, m)) (re_search brace_re text)).
Proof. reflexivity. Qed.

(** No span: the reply is shown as it is. *)
Lemma dispatch_no_span (text : string) (st : @State E) :
  greedy_span text = None ->
  dispatch host (JStr text) st
  = (Ret Break, logged st (PrintMarkdown (JStr text))).
Proof.
  intros H. rewrite <- group_search_greedy in H.
  unfold dispatch, bindM, lift. rewrite search_reply_text.
  destruct (re_search brace_re text); [discriminate|]. reflexivity.
Qed.

(** A span that does not decode: the reply is shown as it is. *)
Lemma dispatch_decode_fails (text span : string) (e : exn) (st : @State E) :
  greedy_span text = Some span -> json_loads span = Raise e ->
  dispatch host (JStr text) st
  = (Ret Break, logged st (PrintMarkdown (JStr text))).
Proof.
  intros H D. rewrite <- group_search_greedy in H.
  unfold dispatch, bindM at 1, lift at 1. rewrite search_reply_text.
  destruct (re_search brace_re text) as [m|]; [|discriminate].
  injection H as H. simpl. unfold tryM, bindM, lift. rewrite H, D.
  simpl. unfold caught_by. simpl.
  rewrite (json_loads_raises _ _ D). reflexivity.
Qed.

(** A span that decodes: the decoded value is acted upon. *)
Lemma dispatch_decoded (text span : string) (action : json) (st : @State E) :
  greedy_span text = Some span -> json_loads span = Ret action ->
  dispatch host (JStr text) st
  = tryM (perform host action)
      [([JSONDecodeError], fun _ => plain_answer (JStr text))] st.
Proof.
  intros H D. rewrite <- group_search_greedy in H.
  unfold dispatch, bindM at 1, lift at 1. rewrite search_reply_text.
  destruct (re_search brace_re text) as [m|]; [|discriminate].
  injection H as H. simpl. unfold tryM, bindM at 1, lift at 1.
  rewrite H, D. reflexivity.
Qed.

Lemma step_plain (s : Session) (st : @State E) (text : string)
    (r : Response) (e' : E) :
  ctl st = SendToModel ->
  model_replies host s st (JStr text) r e' ->
  dispatch host (JStr text) (received host s st (JStr text) r e')
  = (Ret Break,
     logged (received host s st (JStr text) r e')
       (PrintMarkdown (JStr text))) ->
  step host s st = plain_turn host s st text r e'.
Proof.
  intros Hc Hm Hd. unfold step. rewrite Hc.
  rewrite (inner_body_received _ _ _ _ _ Hm). unfold tryM. rewrite Hd.
  unfold plain_turn, set_ctl, logged, received. simpl.
  rewrite <- app_assoc. reflexivity.
Qed.

Lemma perform_feeds_back (action tool_name args : json)
    (items : list (string * json)) (tool_result : string)
    (st : @State E) (w' : World E) :
  py_get action (JStr "tool") JNull = Ret tool_name ->
  py_get action (JStr "args") (JObj []) = Ret args ->
  py_items args = Ret items ->
  run_tool host tool_name args (logged st (PrintToolCall tool_name items))
  = (Ret (Some tool_result),
     with_world (logged st (PrintToolCall tool_name items)) w') ->
  perform host action st
  = (Ret Continue,
     mkState (ctl st)
       (history st
        ++ [mkMessage "user" (tool_result_message tool_result)])%list
       (response st) w'
       (log st ++ [PrintToolCall tool_name items;
                   show_result tool_result])%list).
Proof.
  intros Ht Ha Hi Hr.
  unfold perform, bindM, lift. rewrite Ht, Ha, Hi.
  change (emit (PrintToolCall tool_name items) st)
    with (Ret tt, logged st (PrintToolCall tool_name items)).
  cbv iota. rewrite Hr.
  unfold emit, history_append, ret, with_world, logged. simpl.
  rewrite <- app_assoc. reflexivity.
Qed.

Lemma perform_terminal (action tool_name args : json)
    (items : list (string * json)) (st st' : @State E) :
  py_get action (JStr "tool") JNull = Ret tool_name ->
  py_get action (JStr "args") (JObj []) = Ret args ->
  py_items args = Ret items ->
  run_tool host tool_name args (logged st (PrintToolCall tool_name items))
  = (Ret None, st') ->
  perform host action st = (Ret Break, st').
Proof.
  intros Ht Ha Hi Hr.
  unfold perform, bindM, lift. rewrite Ht, Ha, Hi.
  change (emit (PrintToolCall tool_name items) st)
    with (Ret tt, logged st (PrintToolCall tool_name items)).
  cbv iota. rewrite Hr. reflexivity.
Qed.

(** A tool result is fed back and the loop goes on to the next request. *)
Lemma step_fed_back (s : Session) (st : @State E) (text span : string)
    (r : Response) (e' : E) (action tool_name args : json)
    (items : list (string * json)) (tool_result : string) (w' : World E) :
  ctl st = SendToModel ->
  model_replies host s st (JStr text) r e' ->
  greedy_span text = Some span ->
  json_loads span = Ret action ->
  py_get action (JStr "tool") JNull = Ret tool_name ->
  py_get action (JStr "args") (JObj []) = Ret args ->
  py_items args = Ret items ->
  run_tool host tool_name args
    (logged (received host s st (JStr text) r e')
       (PrintToolCall tool_name items))
  = (Ret (Some tool_result),
     with_world (logged (received host s st (JStr text) r e')
                   (PrintToolCall tool_name items)) w') ->
  step host s st = fed_back host s st text r w' tool_name items tool_result.
Proof.
  intros Hc Hm Hs Hd Ht Ha Hi Hr. unfold step. rewrite Hc.
  rewrite (inner_body_received _ _ _ _ _ Hm). unfold tryM at 1.
  rewrite (dispatch_decoded _ _ _ _ Hs Hd). unfold tryM.
  rewrite (perform_feeds_back _ _ _ _ _ _ _ Ht Ha Hi Hr).
  unfold fed_back, received, tool_result_message. simpl. rewrite Hc.
  repeat rewrite <- app_assoc. reflexivity.
Qed.

Lemma run_tool_unknown (tool_name args : json) (st : @State E) :
  recognized tool_name = false ->
  run_tool host tool_name args st
  = (Ret (Some (tool_unknown host tool_name)), st).
Proof.
  unfold recognized. intros H.
  repeat (apply orb_false_elim in H; destruct H as [H ?]).
  unfold run_tool.
  repeat match goal with
         | Hx : is_str _ tool_name = false |- _ => rewrite Hx; clear Hx
         end.
  reflexivity.
Qed.

(** ** The tool executors *)

Lemma agent_write_file_cases (w : World E) (p c : string) :
  agent_write_file host (JStr p) (JStr c) w
  = match os_refuses host (env w) (OpOpenWrite p) with
    | Some e => (Ret (write_failed e), w)
    | None =>
        match os_refuses host (env w) (OpWrite p c) with
        | Some e => (Ret (write_failed e), set_file w p "")
        | None =>
            (Ret (write_ok host (JStr p)), set_file (set_file w p "") p c)
        end
    end.
Proof.
  unfold agent_write_file, tryM, bindM, open_write, file_write, as_path.
  cbn [find_clause].
  destruct (os_refuses host (env w) (OpOpenWrite p)) as [e|].
  - now rewrite caught_by_Exception.
  - change (env (set_file w p "")) with (env w).
    destruct (os_refuses host (env w) (OpWrite p c)) as [e|].
    + now rewrite caught_by_Exception.
    + reflexivity.
Qed.

(** [write_file] returns a text, whatever happens; when it reports
    success the file holds exactly the content and no other file has
    changed; otherwise the text describes the error. *)
Lemma agent_write_file_spec (w : World E) (p c : string) :
  exists tool_result w',
    agent_write_file host (JStr p) (JStr c) w = (Ret tool_result, w')
    /\ env w' = env w
    /\ ((tool_result = write_ok host (JStr p)
         /\ files w' p = Some c
         /\ forall q, q <> p -> files w' q = files w q)
        \/ (exists e, tool_result = write_failed e)).
Proof.
  rewrite agent_write_file_cases.
  destruct (os_refuses host (env w) (OpOpenWrite p)) as [e|].
  { eexists _, _. split; [reflexivity|]. split; [reflexivity|]. eauto. }
  destruct (os_refuses host (env w) (OpWrite p c)) as [e|].
  { eexists _, _. split; [reflexivity|]. split; [reflexivity|]. eauto. }
  eexists _, _. split; [reflexivity|]. split; [reflexivity|]. left.
  split; [reflexivity|]. simpl. rewrite String.eqb_refl.
  split; [reflexivity|]. intros q Hq.
  apply String.eqb_neq in Hq. now rewrite Hq.
Qed.

Lemma run_tool_write_file (items : list (string * json)) (p c : string)
    (st : @State E) :
  assoc_get "path" items = Some (JStr p) ->
  assoc_get "content" items = Some (JStr c) ->
  run_tool host (JStr "write_file") (JObj items) st
  = (Ret (Some (match fst (agent_write_file host (JStr p) (JStr c)
                             (world st)) with
                | Ret t => t
                | Raise e => write_failed e
                end)),
     with_world st (snd (agent_write_file host (JStr p) (JStr c)
                           (world st)))).
Proof.
  intros Hp Hc.
  destruct (agent_write_file_spec (world st) p c)
    as (t & w' & Hw & _ & _).
  unfold run_tool. simpl. unfold bindM, lift, on_world.
  rewrite Hp, Hc, Hw. reflexivity.
Qed.

Lemma shell_output_cases (out err : string) :
  (out = "" -> err = "" -> shell_output out err = no_output)
  /\ (out <> "" -> err = "" ->
      shell_output out err = "STDOUT:" ++ LF ++ out ++ LF)
  /\ (out = "" -> err <> "" ->
      shell_output out err = "STDERR:" ++ LF ++ err ++ LF)
  /\ (out <> "" -> err <> "" ->
      shell_output out err
      = "STDOUT:" ++ LF ++ out ++ LF ++ "STDERR:" ++ LF ++ err ++ LF).
Proof.
  unfold shell_output.
  repeat split; intros Ho He;
    repeat match goal with
           | H : _ = "" |- _ => rewrite H; clear H
           | H : _ <> "" |- _ => apply String.eqb_neq in H; rewrite H; clear H
           end; simpl; try reflexivity.
  rewrite !append_assoc. reflexivity.
Qed.

End LoopProofs.

(** ** What the loop does to the History and to the trace *)

Section Growth.

Context {E : Type}.
Variable host : Host E.

Lemma extends_refl {A} (l : list A) : extends l l.
Proof. exists []. now rewrite app_nil_r. Qed.

Lemma extends_trans {A} (a b c : list A) :
  extends a b -> extends b c -> extends a c.
Proof. intros [x ->] [y ->]. exists (x ++ y)%list. now rewrite app_assoc. Qed.

Lemma extends_snoc {A} (l : list A) (x : A) : extends l (l ++ [x]).
Proof. now exists [x]. Qed.

Lemma quiet_refl (st : @State E) : quiet st st.
Proof. repeat split; apply extends_refl. Qed.

Lemma quiet_trans (a b c : @State E) : quiet a b -> quiet b c -> quiet a c.
Proof.
  intros (C1 & H1 & L1) (C2 & H2 & L2). repeat split; try congruence.
  eapply extends_trans; eassumption.
Qed.

Lemma advances_refl (st : @State E) : advances st st.
Proof.
  split; [|apply extends_refl]. exists []. now rewrite app_nil_r.
Qed.

Lemma advances_trans (a b c : @State E) :
  advances a b -> advances b c -> advances a c.
Proof.
  intros [(x & Hx & Fx) L1] [(y & Hy & Fy) L2]. split.
  - exists (x ++ y)%list. rewrite Hy, Hx, app_assoc. split; [reflexivity|].
    rewrite forallb_app, Fx, Fy. reflexivity.
  - eapply extends_trans; eassumption.
Qed.

Lemma grows_refl (st : @State E) : grows st st.
Proof. split; [reflexivity|apply advances_refl]. Qed.

Lemma grows_trans (a b c : @State E) : grows a b -> grows b c -> grows a c.
Proof.
  intros [C1 A1] [C2 A2]. split; [congruence|].
  eapply advances_trans; eassumption.
Qed.

Lemma quiet_grows (a b : @State E) : quiet a b -> grows a b.
Proof.
  intros (C & H & L). split; [assumption|]. split; [|assumption].
  exists []. now rewrite app_nil_r.
Qed.

Section Preorder.

Variable R : @State E -> @State E -> Prop.
Hypothesis R_refl : forall st, R st st.
Hypothesis R_trans : forall a b c, R a b -> R b c -> R a c.
Hypothesis R_quiet : forall a b, quiet a b -> R a b.

Lemma respects_ret {A} (a : A) : respects R (ret a).
Proof. intros st. apply R_refl. Qed.

Lemma respects_lift {A} (r : res A) : respects R (lift r).
Proof. intros st. apply R_refl. Qed.

Lemma respects_get_history : respects R get_history.
Proof. intros st. apply R_refl. Qed.

Lemma respects_get_response : respects R get_response.
Proof. intros st. unfold get_response. destruct (response st); apply R_refl. Qed.

Lemma respects_emit (x : effect) : respects R (emit x).
Proof.
  intros st. apply R_quiet.
  repeat split. apply extends_snoc.
Qed.

Lemma respects_set_response (r : Response) : respects R (set_response r).
Proof. intros st. apply R_quiet. repeat split. apply extends_refl. Qed.

Lemma respects_read_world {A} (f : World E -> res A) :
  respects R (read_world f).
Proof. intros st. apply R_refl. Qed.

Lemma respects_on_world {A} (f : World E -> res A * World E) :
  respects R (on_world f).
Proof.
  intros st. unfold on_world. destruct (f (world st)) as [r w'].
  apply R_quiet. repeat split. apply extends_refl.
Qed.

Lemma respects_on_env {A} (f : E -> res A * E) : respects R (on_env f).
Proof. apply respects_on_world. Qed.

Lemma respects_bind {A B} (m : M A) (k : A -> M B) :
  respects R m -> (forall a, respects R (k a)) -> respects R (bindM m k).
Proof.
  intros Hm Hk st. unfold bindM. specialize (Hm st).
  destruct (m st) as [[a|e] st']; simpl in *; [|assumption].
  eapply R_trans; [eassumption|apply Hk].
Qed.

Lemma respects_try {A} (body : M A)
    (clauses : list (list exn_class * (exn -> M A))) :
  respects R body ->
  Forall (fun cl => forall e, respects R (snd cl e)) clauses ->
  respects R (tryM body clauses).
Proof.
  intros Hb Hc st. unfold tryM. specialize (Hb st).
  destruct (body st) as [[a|e] st']; simpl in *; [assumption|].
  assert (match find_clause e clauses with
          | Some handler => forall x, respects R (handler x)
          | None => True
          end) as Hf.
  { induction Hc as [|[cs h] rest Hh _ IH]; simpl; [exact I|].
    destruct (caught_by cs e); [exact Hh|exact IH]. }
  destruct (find_clause e clauses) as [handler|]; [|assumption].
  eapply R_trans; [eassumption|apply Hf].
Qed.

Lemma respects_if {A} (b : bool) (m1 m2 : M A) :
  respects R m1 -> respects R m2 -> respects R (if b then m1 else m2).
Proof. destruct b; auto. Qed.

Lemma respects_run_tool (tool_name args : json) :
  respects R (run_tool host tool_name args).
Proof.
  unfold run_tool.
  repeat first
    [ apply respects_if
    | apply respects_bind; [|intros ?]
    | apply respects_ret
    | apply respects_lift
    | apply respects_emit
    | apply respects_read_world
    | apply respects_on_world ].
Qed.

Lemma respects_plain_answer (reply : json) :
  respects R (plain_answer reply).
Proof.
  unfold plain_answer. apply respects_bind; [apply respects_emit|].
  intros _. apply respects_ret.
Qed.

Lemma respects_outer_clauses :
  Forall (fun cl : list exn_class * (exn -> M flow) =>
            forall e, respects R (snd cl e)) (@outer_clauses E).
Proof.
  repeat constructor; intros e; simpl.
  - unfold request_failed. apply respects_bind; [apply respects_emit|].
    intros _. apply respects_ret.
  - unfold reply_malformed.
    apply respects_bind; [apply respects_get_response|]. intros r.
    apply respects_bind; [apply respects_emit|].
    intros _. apply respects_ret.
Qed.

End Preorder.

Lemma grows_history_append (r : string) (c : json) :
  String.eqb r "system" = false -> respects (@grows E) (history_append r c).
Proof.
  intros Hr st. split; [reflexivity|]. split; [|apply extends_refl].
  exists [mkMessage r c]. split; [reflexivity|].
  simpl. unfold is_system. simpl. now rewrite Hr.
Qed.

Lemma grows_perform (action : json) :
  respects (@grows E) (perform host action).
Proof.
  unfold perform.
  apply respects_bind; [exact grows_trans| |intros tool_name].
  { apply respects_lift. exact grows_refl. }
  apply respects_bind; [exact grows_trans| |intros args].
  { apply respects_lift. exact grows_refl. }
  apply respects_bind; [exact grows_trans| |intros items].
  { apply respects_lift. exact grows_refl. }
  apply respects_bind; [exact grows_trans| |intros _].
  { apply respects_emit. exact quiet_grows. }
  apply respects_bind; [exact grows_trans| |intros [tool_result|]].
  { apply (respects_run_tool (@grows E) grows_refl grows_trans
             quiet_grows). }
  - apply respects_bind; [exact grows_trans| |intros _].
    { apply respects_emit. exact quiet_grows. }
    apply respects_bind; [exact grows_trans| |intros _].
    { now apply grows_history_append. }
    apply respects_ret. exact grows_refl.
  - apply respects_ret. exact grows_refl.
Qed.

Lemma grows_dispatch (reply : json) : respects (@grows E) (dispatch host reply).
Proof.
  unfold dispatch.
  apply respects_bind; [exact grows_trans| |intros [[text m]|]].
  - apply respects_lift. exact grows_refl.
  - apply respects_try; [exact grows_trans| |].
    + apply respects_bind; [exact grows_trans| |intros action].
      * apply respects_lift. exact grows_refl.
      * apply grows_perform.
    + constructor; [|constructor]. intros x. simpl.
      apply (respects_plain_answer (@grows E) grows_refl grows_trans
               quiet_grows).
  - apply (respects_plain_answer (@grows E) grows_refl grows_trans
             quiet_grows).
Qed.

Lemma grows_exchange (s : Session) (data : json) :
  respects (@grows E) (exchange host s data).
Proof.
  unfold exchange.
  apply respects_bind; [exact grows_trans| |intros r].
  { apply respects_on_env. exact quiet_grows. }
  apply respects_bind; [exact grows_trans| |intros _].
  { apply respects_set_response. exact quiet_grows. }
  apply respects_bind; [exact grows_trans| |intros _].
  { apply respects_lift. exact grows_refl. }
  apply respects_bind; [exact grows_trans| |intros body].
  { apply respects_lift. exact grows_refl. }
  apply respects_bind; [exact grows_trans| |intros reply].
  { apply respects_lift. exact grows_refl. }
  apply respects_bind; [exact grows_trans| |intros _].
  { now apply grows_history_append. }
  apply grows_dispatch.
Qed.

(** The pass starts by making the request, built from the whole current
    History. *)
Lemma inner_body_posted (s : Session) (st : @State E) :
  inner_body host s st
  = tryM (exchange host s (request_data s (history st))) outer_clauses
      (logged st (the_request host s st)).
Proof. reflexivity. Qed.

Lemma grows_after_post (s : Session) (st : @State E) :
  grows (logged st (the_request host s st)) (snd (inner_body host s st)).
Proof.
  rewrite inner_body_posted.
  apply (respects_try (@grows E) grows_trans); [apply grows_exchange|].
  apply (respects_outer_clauses (@grows E) grows_refl grows_trans
           quiet_grows).
Qed.

Lemma grows_logged (st : @State E) (x : effect) : grows st (logged st x).
Proof. apply quiet_grows. repeat split. apply extends_snoc. Qed.

Lemma grows_pass (s : Session) (st : @State E) :
  grows st (snd (inner_body host s st)).
Proof.
  eapply grows_trans; [apply grows_logged|apply grows_after_post].
Qed.

Lemma advances_step (s : Session) (st : @State E) :
  advances st (step host s st).
Proof.
  unfold step. destruct (ctl st).
  - pose proof (respects_on_env (@grows E) quiet_grows (console_input host)
                  st) as [_ Hin].
    destruct (on_env (console_input host) st) as [[line|e] st'];
      simpl in Hin; [|exact Hin].
    destruct (is_exit line); [exact Hin|].
    destruct (String.eqb line ""); [exact Hin|].
    eapply advances_trans; [exact Hin|].
    now apply (grows_history_append "user").
  - pose proof (grows_pass s st) as [_ Hs].
    destruct (inner_body host s st) as [[[|]|e] st']; exact Hs.
  - apply advances_refl.
  - apply advances_refl.
Qed.

Lemma run_S (n : nat) (s : Session) (st : @State E) :
  run host (S n) s st = step host s (run host n s st).
Proof.
  revert st; induction n as [|n IH]; intros st; [reflexivity|].
  change (run host (S (S n)) s st) with (run host (S n) s (step host s st)).
  rewrite IH. reflexivity.
Qed.

Lemma run_add (k j : nat) (s : Session) (st : @State E) :
  run host (k + j) s st = run host j s (run host k s st).
Proof.
  revert st; induction k as [|k IH]; intros st; [reflexivity|].
  simpl. apply IH.
Qed.

Lemma advances_run (n : nat) (s : Session) (st : @State E) :
  advances st (run host n s st).
Proof.
  induction n as [|n IH]; [apply advances_refl|].
  rewrite run_S. eapply advances_trans; [exact IH|apply advances_step].
Qed.

(** The first effect of a pass is the request. *)
Lemma step_posts (s : Session) (st : @State E) :
  ctl st = SendToModel ->
  exists rest,
    log (step host s st) = (log st ++ the_request host s st :: rest)%list.
Proof.
  intros Hc. pose proof (grows_after_post s st) as (_ & _ & l & Hl).
  exists l. unfold step. rewrite Hc.
  destruct (inner_body host s st) as [[[|]|e] st']; simpl in *;
    rewrite Hl, <- app_assoc; reflexivity.
Qed.

End Growth.

(** ** The shape of the History *)

Lemma next_role_app (e : bool) (h : list Message) (m : Message) :
  next_role e (h ++ [m])
  = match next_role e h with
    | Some e' =>
        if String.eqb (role m) (if e' then "user" else "assistant")
        then Some (negb e') else None
    | None => None
    end.
Proof.
  revert e; induction h as [|x h IH]; intros e; simpl.
  - destruct (String.eqb (role m) (if e then "user" else "assistant"));
      reflexivity.
  - destruct (String.eqb (role x) (if e then "user" else "assistant"));
      [apply IH|reflexivity].
Qed.

(** Strict alternation is within the pattern of the specification. *)
Lemma alternates_follows (h : list Message) :
  forall (e : bool) (q : place),
    (if e then q = AtStart \/ q = AfterAssistant
     else q = AfterUser \/ q = AfterToolResult) ->
    next_role e h <> None -> follows q h = true.
Proof.
  induction h as [|m rest IH]; intros e q Hq Hn; [reflexivity|].
  simpl in Hn.
  destruct (String.eqb (role m) (if e then "user" else "assistant")) eqn:R;
    [|congruence].
  destruct e; simpl in R.
  - assert (follows AfterUser rest = true) as Hr
      by (apply (IH false); [left; reflexivity|exact Hn]).
    destruct Hq as [->| ->]; simpl; unfold is_user; rewrite R, Hr.
    + reflexivity.
    + now rewrite !orb_true_r.
  - assert (follows AfterAssistant rest = true) as Hr
      by (apply (IH true); [right; reflexivity|exact Hn]).
    destruct Hq as [->| ->]; simpl; unfold is_assistant; rewrite R, Hr.
    + reflexivity.
    + now rewrite orb_true_r.
Qed.

Lemma history_alternates_pattern (sys : Message) (h : list Message) :
  history_alternates sys h -> history_pattern sys h.
Proof.
  intros (rest & Hh & Ha). exists rest. split; [exact Hh|].
  apply (alternates_follows rest true); [left; reflexivity|].
  unfold alternates in Ha. destruct (next_role true rest); congruence.
Qed.

Section Shape.

Context {E : Type}.
Variable host : Host E.

Lemma quiet_run_tool (tool_name args : json) (st : @State E) :
  quiet st (snd (run_tool host tool_name args st)).
Proof.
  apply (respects_run_tool host (@quiet E) quiet_refl quiet_trans).
  auto.
Qed.

Lemma perform_shape (action : json) (st : @State E) :
  (fst (perform host action st) = Ret Continue
   /\ exists c,
        history (snd (perform host action st))
        = (history st ++ [mkMessage "user" c])%list)
  \/ (fst (perform host action st) <> Ret Continue
      /\ history (snd (perform host action st)) = history st).
Proof.
  unfold perform, bindM, lift.
  destruct (py_get action (JStr "tool") JNull) as [tool_name|e];
    [|right; split; [discriminate|reflexivity]].
  destruct (py_get action (JStr "args") (JObj [])) as [args|e];
    [|right; split; [discriminate|reflexivity]].
  destruct (py_items args) as [items|e];
    [|right; split; [discriminate|reflexivity]].
  change (emit (PrintToolCall tool_name items) st)
    with (Ret tt, logged st (PrintToolCall tool_name items)).
  cbv iota.
  pose proof (quiet_run_tool tool_name args
                (logged st (PrintToolCall tool_name items)))
    as (_ & Hh & _).
  destruct (run_tool host tool_name args _) as [[[tool_result|]|e] st2];
    simpl in Hh |- *.
  - left. split; [reflexivity|]. rewrite Hh. eauto.
  - right. split; [discriminate|assumption].
  - right. split; [discriminate|assumption].
Qed.

Lemma dispatch_shape (reply : json) (st : @State E) :
  (fst (dispatch host reply st) = Ret Continue
   /\ exists c,
        history (snd (dispatch host reply st))
        = (history st ++ [mkMessage "user" c])%list)
  \/ (fst (dispatch host reply st) <> Ret Continue
      /\ history (snd (dispatch host reply st)) = history st).
Proof.
  unfold dispatch, bindM at 1, lift at 1.
  destruct (search_reply reply) as [[[text m]|]|e].
  - unfold tryM, bindM, lift.
    destruct (json_loads (group text m)) as [action|e].
    + pose proof (perform_shape action st) as Hp.
      destruct (perform host action st) as [[f|e] st2]; [exact Hp|].
      simpl in Hp. destruct Hp as [[Hp _]|[_ Hp]]; [discriminate|].
      simpl. destruct (isinstance_of (cls e) JSONDecodeError); simpl.
      * right. split; [discriminate|assumption].
      * right. split; [discriminate|assumption].
    + simpl. destruct (isinstance_of (cls e) JSONDecodeError); simpl;
        right; (split; [discriminate|reflexivity]).
  - right. split; [discriminate|reflexivity].
  - right. split; [discriminate|reflexivity].
Qed.

(** An [except] clause of the pass stops the inner loop or raises, and
    leaves the History as it is. *)
Lemma outer_clause_shape (e : exn) (handler : exn -> M flow)
    (st : @State E) :
  find_clause e outer_clauses = Some handler ->
  fst (handler e st) <> Ret Continue
  /\ history (snd (handler e st)) = history st.
Proof.
  unfold outer_clauses. cbn [find_clause].
  destruct (caught_by [RequestException] e).
  { intros [= <-]. split; [discriminate|reflexivity]. }
  destruct (caught_by [IndexError; KeyError] e); [|discriminate].
  intros [= <-]. unfold reply_malformed, bindM, get_response.
  destruct (response st); simpl; split; (discriminate || reflexivity).
Qed.

(** With a reply, a pass leaves the History with the reply and, when the
    loop goes on, a tool result after it. *)
Lemma inner_body_shape (s : Session) (st : @State E) (reply : json)
    (r : Response) (e' : E) :
  model_replies host s st reply r e' ->
  pass_shape (history st) reply (inner_body host s st).
Proof.
  intros Hm. rewrite (inner_body_received host _ _ _ _ _ Hm).
  unfold pass_shape, tryM.
  pose proof (dispatch_shape reply (received host s st reply r e')) as Hd.
  destruct (dispatch host reply (received host s st reply r e'))
    as [[f|e] st2]; simpl in Hd.
  - destruct Hd as [[-> [c Hc]]|[Hf Hh]]; simpl.
    + left. split; [reflexivity|]. exists c. rewrite Hc. simpl.
      now rewrite <- app_assoc.
    + right. split; [assumption|]. rewrite Hh. reflexivity.
  - destruct Hd as [[Hf _]|[_ Hh]]; [discriminate|].
    destruct (find_clause e outer_clauses) as [handler|] eqn:F.
    + destruct (outer_clause_shape e handler st2 F) as [Hn Hk].
      right. split; [assumption|]. rewrite Hk, Hh. reflexivity.
    + right. split; [discriminate|]. simpl. rewrite Hh. reflexivity.
Qed.

Lemma step_alternation (s : Session) (st : @State E) :
  alternation_invariant (system_message host) st ->
  (ctl st = SendToModel ->
   exists reply r e', model_replies host s st reply r e') ->
  alternation_invariant (system_message host) (step host s st).
Proof.
  intros (rest & Hh & Hinv) Hm. unfold step.
  destruct (ctl st) eqn:Hc.
  - unfold on_env, on_world.
    destruct (console_input host (env (world st))) as [[line|e] e2].
    + destruct (is_exit line).
      { exists rest. simpl. auto. }
      destruct (String.eqb line "").
      { exists rest. simpl. rewrite Hc. auto. }
      exists (rest ++ [mkMessage "user" (JStr line)])%list. simpl.
      rewrite Hh. split; [reflexivity|].
      rewrite next_role_app, Hinv. reflexivity.
    + exists rest. simpl. auto.
  - destruct (Hm eq_refl) as (reply & r & e' & Hr).
    pose proof (inner_body_shape s st reply r e' Hr) as Hs.
    pose proof (grows_pass host s st) as [Hctl _].
    unfold pass_shape in Hs.
    destruct (inner_body host s st) as [[[|]|e] st2]; simpl in *.
    + destruct Hs as [[_ [c Hc2]]|[Hn _]]; [|congruence].
      exists (rest ++ [mkMessage "assistant" reply; mkMessage "user" c])%list.
      rewrite Hc2, Hh, Hctl, Hc. split; [reflexivity|].
      change [mkMessage "assistant" reply; mkMessage "user" c]
        with ([mkMessage "assistant" reply] ++ [mkMessage "user" c])%list.
      rewrite app_assoc, !next_role_app, Hinv. reflexivity.
    + destruct Hs as [[Hx _]|[_ Hh2]]; [discriminate|].
      exists (rest ++ [mkMessage "assistant" reply])%list.
      unfold set_ctl. simpl. rewrite Hh2, Hh. split; [reflexivity|].
      rewrite next_role_app, Hinv. reflexivity.
    + destruct Hs as [[Hx _]|[_ Hh2]]; [discriminate|].
      exists (rest ++ [mkMessage "assistant" reply])%list.
      unfold set_ctl. simpl. rewrite Hh2, Hh. split; [reflexivity|exact I].
  - exists rest. rewrite Hc. auto.
  - exists rest. rewrite Hc. auto.
Qed.

Lemma run_alternation (s : Session) (st0 : @State E) (n : nat) :
  alternation_invariant (system_message host) st0 ->
  always_replied host s st0 n ->
  alternation_invariant (system_message host) (run host n s st0).
Proof.
  intros H0. induction n as [|n IH]; intros Hr; [exact H0|].
  rewrite run_S. apply step_alternation.
  - apply IH. intros k Hk. apply Hr. lia.
  - apply Hr. lia.
Qed.

End Shape.

(** ** The request body *)

Lemma gemini_fold (h : list Message) (d : list (string * json)) :
  (d = [] \/ exists x, d = [("parts", x)]) ->
  fold_left
    (fun d m => assoc_set "parts" (JArr [JObj [("text", content m)]]) d)
    (filter (fun m => String.eqb (role m) "user") h) d
  = match last_user_content h with
    | Some c => [("parts", JArr [JObj [("text", c)]])]
    | None => d
    end.
Proof.
  revert d; induction h as [|m h IH]; intros d Hd; [reflexivity|].
  cbn [filter last_user_content]. unfold is_user.
  destruct (String.eqb (role m) "user").
  - cbn [fold_left]. rewrite IH.
    + destruct (last_user_content h); [reflexivity|].
      destruct Hd as [->|[x ->]]; reflexivity.
    + right. destruct Hd as [->|[x ->]]; eexists; reflexivity.
  - rewrite (IH d Hd). destruct (last_user_content h); reflexivity.
Qed.

Lemma gemini_parts_spec (h : list Message) :
  gemini_parts h
  = match last_user_content h with
    | Some c => [("parts", JArr [JObj [("text", c)]])]
    | None => []
    end.
Proof. unfold gemini_parts. apply gemini_fold. now left. Qed.

Lemma last_user_content_in (h : list Message) (c : json) :
  last_user_content h = Some c ->
  exists m, In m h /\ role m = "user" /\ content m = c.
Proof.
  induction h as [|x h IH]; [discriminate|]. simpl.
  destruct (last_user_content h) as [c'|].
  - intros [= <-]. destruct (IH eq_refl) as (m & Hin & Hm). eauto.
  - unfold is_user. destruct (String.eqb (role x) "user") eqn:U;
      [|discriminate].
    intros [= <-]. apply String.eqb_eq in U. eauto.
Qed.

(** What the gemini request carries is the content of the last user entry
    of the History, and nothing else. *)
Lemma gemini_carries (s : Session) (h : list Message) (c : json) :
  is_str "gemini" (provider s) = true ->
  carries_text c (request_data s h) <-> last_user_content h = Some c.
Proof.
  intros Hg. unfold request_data. rewrite Hg, gemini_parts_spec. split.
  - intros (fields & items & entry & parts & Hd & Hc & Hi & Hp & Hx).
    injection Hd as <-. simpl in Hc. injection Hc as <-.
    destruct Hi as [Hi|[]]. injection Hi as <-.
    destruct (last_user_content h) as [c0|]; [|discriminate].
    simpl in Hp. injection Hp as <-.
    destruct Hx as [Hx|[]]. now injection Hx as <-.
  - intros ->. unfold carries_text.
    eexists _, _, _, _. split; [reflexivity|].
    split; [reflexivity|]. split; [left; reflexivity|].
    split; [reflexivity|]. now left.
Qed.

Lemma openai_represents (s : Session) (h : list Message) (m : Message) :
  is_str "gemini" (provider s) = false ->
  In m h -> represented m (request_data s h).
Proof.
  intros Hg Hin. left. unfold request_data. rewrite Hg.
  eexists _, _. split; [reflexivity|]. split; [reflexivity|].
  now apply in_map.
Qed.

(** ** The configuration loader *)

Lemma assoc_get_set_same {A} (k : string) (v : A) (d : list (string * A)) :
  assoc_get k (assoc_set k v d) = Some v.
Proof.
  induction d as [|[k' v'] d IH]; simpl.
  - now rewrite String.eqb_refl.
  - destruct (String.eqb k k') eqn:K; simpl; rewrite K; [reflexivity|exact IH].
Qed.

Lemma assoc_get_set_other {A} (k q : string) (v : A)
    (d : list (string * A)) :
  q <> k -> assoc_get q (assoc_set k v d) = assoc_get q d.
Proof.
  intros Hq. induction d as [|[k' v'] d IH]; simpl.
  - apply String.eqb_neq in Hq. now rewrite Hq.
  - destruct (String.eqb k k') eqn:K; simpl.
    + apply String.eqb_eq in K; subst k'.
      apply String.eqb_neq in Hq. now rewrite Hq.
    + destruct (String.eqb q k'); [reflexivity|exact IH].
Qed.

Lemma assoc_set_set {A} (k : string) (v1 v2 : A) (d : list (string * A)) :
  assoc_set k v2 (assoc_set k v1 d) = assoc_set k v2 d.
Proof.
  induction d as [|[k' v'] d IH]; simpl.
  - now rewrite String.eqb_refl.
  - destruct (String.eqb k k') eqn:K; simpl; rewrite K;
      [reflexivity|now rewrite IH].
Qed.

Lemma assoc_set_get {A} (k : string) (v : A) (d : list (string * A)) :
  assoc_get k d = Some v -> assoc_set k v d = d.
Proof.
  induction d as [|[k' v'] d IH]; simpl; [discriminate|].
  destruct (String.eqb k k'); [now intros [= ->]|].
  intros H. now rewrite IH.
Qed.

Section ConfigProofs.

Context {E : Type}.
Variable host : Host E.

(** One pass of the back-filling loop over a well-shaped file. *)
Lemma backfill_step (fields ps : list (string * json)) (p : string)
    (v : json) :
  assoc_get p default_providers = Some v ->
  backfill (JObj (assoc_set "providers" (JObj ps) fields)) p
  = Ret (JObj (assoc_set "providers"
                 (JObj (if assoc_mem p ps then ps else assoc_set p v ps))
                 fields)).
Proof.
  intros Hv. unfold backfill, py_getitem at 1, bind.
  rewrite assoc_get_set_same. unfold py_in.
  destruct (assoc_mem p ps); [reflexivity|].
  unfold py_getitem. rewrite Hv. unfold py_setitem.
  now rewrite assoc_set_set.
Qed.

Lemma backfill_all_shape (fields ps : list (string * json)) :
  assoc_get "providers" fields = Some (JObj ps) ->
  backfill_all (JObj fields) (map fst default_providers)
  = Ret (JObj (assoc_set "providers" (JObj (backfilled ps)) fields)).
Proof.
  intros Hp. rewrite <- (assoc_set_get _ _ _ Hp) at 1.
  unfold backfilled, default_providers. cbn [map fst backfill_all bind].
  rewrite (backfill_step fields ps "base" default_provider_config eq_refl).
  cbn [bind].
  rewrite (backfill_step fields _ "openrouter" default_provider_config
             eq_refl).
  cbn [bind].
  rewrite (backfill_step fields _ "gemini" default_provider_config
             eq_refl).
  reflexivity.
Qed.

Lemma backfilled_lookup (ps : list (string * json)) (q : string) :
  assoc_get q (backfilled ps)
  = match assoc_get q ps with
    | Some v => Some v
    | None => assoc_get q default_providers
    end.
Proof.
  unfold backfilled.
  assert (forall (defaults d : list (string * json)),
            assoc_get q
              (fold_left
                 (fun d kv => if assoc_mem (fst kv) d then d
                              else assoc_set (fst kv) (snd kv) d)
                 defaults d)
            = match assoc_get q d with
              | Some v => Some v
              | None => assoc_get q defaults
              end) as H.
  { induction defaults as [|[k v] defaults IH]; intros d; simpl.
    - destruct (assoc_get q d); reflexivity.
    - rewrite IH. unfold assoc_mem.
      destruct (assoc_get k d) as [x|] eqn:K.
      + destruct (assoc_get q d) as [y|] eqn:Q; [reflexivity|].
        destruct (String.eqb q k) eqn:QK; [|reflexivity].
        apply String.eqb_eq in QK; subst q. congruence.
      + destruct (String.eqb q k) eqn:QK.
        * apply String.eqb_eq in QK; subst q.
          rewrite assoc_get_set_same, K. reflexivity.
        * apply String.eqb_neq in QK.
          rewrite (assoc_get_set_other _ _ _ _ QK).
          destruct (assoc_get q d); reflexivity. }
  apply H.
Qed.

End ConfigProofs.

(* ================================================================== *)
(** * The claims *)

Section Claims.

Context {E : Type}.
Variable host : Host E.

(** C1, as amended.  On every pass of the inner loop the first effect is
    the request, whose body is built from the whole current History.  For
    a provider other than gemini (base, openrouter) the body holds the
    model name and every message of the History, in order.  For gemini the
    body holds contents of user messages only (system and assistant
    messages are filtered out), the last user message among them. *)
Theorem C1_request_from_history (s : Session) (st : @State E) :
  ctl st = SendToModel ->
  (exists rest,
     log (step host s st) = (log st ++ the_request host s st :: rest)%list)
  /\ (is_str "gemini" (provider s) = false ->
      request_data s (history st)
      = JObj [("model", model_name s);
              ("messages", JArr (map message_json (history st)))]
      /\ forall m, In m (history st) ->
                   represented m (request_data s (history st)))
  /\ (is_str "gemini" (provider s) = true ->
      (forall c, carries_text c (request_data s (history st)) ->
                 exists m, In m (history st) /\ role m = "user"
                           /\ content m = c)
      /\ (forall c, last_user_content (history st) = Some c ->
                    carries_text c (request_data s (history st)))).
Proof.
  intros Hc. split; [now apply step_posts|]. split.
  - intros Hg. split.
    + unfold request_data. now rewrite Hg.
    + intros m. now apply openai_represents.
  - intros Hg. split.
    + intros c Hx. apply last_user_content_in.
      now apply (gemini_carries s).
    + intros c Hx. now apply (gemini_carries s).
Qed.

(** C2, as amended.  Whatever happens (tool calls, transport errors,
    malformed responses), the History begins with the one system message
    at index 0 and holds no other, and it only grows: the History of an
    earlier step is a prefix of the History of a later one.  As long as
    every request was answered with a reply, at every point where the loop
    awaits the user or the model the entries after the system message
    alternate user, assistant, user, ... (a tool result being a user
    entry), which is within the pattern
    user -> assistant -> (tool result)* -> assistant -> ... *)
Theorem C2_history_shape (s : Session) (w : World E)
    (shown : list effect) (n : nat) :
  one_system_first (system_message host)
    (history (run host n s (initial_state host w shown)))
  /\ (forall k, k <= n ->
        extends (history (run host k s (initial_state host w shown)))
          (history (run host n s (initial_state host w shown))))
  /\ (always_replied host s (initial_state host w shown) n ->
      awaiting (ctl (run host n s (initial_state host w shown))) ->
      history_alternates (system_message host)
        (history (run host n s (initial_state host w shown)))
      /\ history_pattern (system_message host)
           (history (run host n s (initial_state host w shown)))).
Proof.
  split; [|split].
  - destruct (advances_run host n s (initial_state host w shown))
      as [(extra & Hx & Fx) _].
    exists extra. split; [exact Hx|exact Fx].
  - intros k Hk. replace n with (k + (n - k)) by lia.
    rewrite run_add.
    destruct (advances_run host (n - k) s
                (run host k s (initial_state host w shown)))
      as [(extra & Hx & _) _].
    exists extra. exact Hx.
  - intros Hr Ha.
    assert (history_alternates (system_message host)
              (history (run host n s (initial_state host w shown))))
      as Hs.
    { destruct (run_alternation host s (initial_state host w shown) n)
        as (rest & Hh & Hi); [|exact Hr|].
      { exists []. split; reflexivity. }
      exists rest. split; [exact Hh|]. unfold alternates.
      destruct Ha as [Ha|Ha]; rewrite Ha in Hi; now rewrite Hi. }
    split; [exact Hs|]. now apply history_alternates_pattern.
Qed.


(** C4.  For a reply without a brace pair the parser yields no action: the
    reply is shown as it is as the final text of the turn, the loop goes
    back to awaiting the user, and nothing is reported as an error. *)
Theorem C4_no_braces_plain_answer (s : Session) (st : @State E)
    (text : string) (r : Response) (e' : E) :
  ctl st = SendToModel ->
  model_replies host s st (JStr text) r e' ->
  ~ has_brace_pair text ->
  step host s st = plain_turn host s st text r e'.
Proof.
  intros Hc Hm Hn. apply step_plain; try assumption.
  apply dispatch_no_span.
  destruct (greedy_span text) as [span|] eqn:G; [|reflexivity].
  exfalso. apply Hn. apply greedy_span_pair. eauto.
Qed.





(** X1.  Loading a configuration file that parses to a dict whose "providers"
    value is a dict returns the file's configuration with every provider
    that is missing (gemini, say) filled in with the default
    [{api_key: "", model: "default-model"}]; what the file holds for a
    provider, and every other key of the file, stays as it is. *)
Theorem X1_load_config_backfills (w : World E) (text : string)
    (fields ps : list (string * json)) :
  path_exists host w (CONFIG_FILE host) = true ->
  open_read host w (JStr (CONFIG_FILE host)) = Ret text ->
  json_loads text = Ret (JObj fields) ->
  assoc_get "providers" fields = Some (JObj ps) ->
  exists ps',
    load_config host w = Ret (JObj (assoc_set "providers" (JObj ps') fields))
    /\ (forall q v, assoc_get q ps = Some v -> assoc_get q ps' = Some v)
    /\ (forall q, assoc_get q ps = None ->
                  assoc_get q ps' = assoc_get q default_providers)
    /\ (assoc_get "gemini" ps = None ->
        assoc_get "gemini" ps'
        = Some (JObj [("api_key", JStr ""); ("model", JStr "default-model")])).
Proof.
  intros Hx Hr Hj Hp. exists (backfilled ps). split; [|split; [|split]].
  - unfold load_config. rewrite Hx, Hr. cbn [bind]. rewrite Hj. cbn [bind].
    rewrite (backfill_all_shape _ _ Hp). reflexivity.
  - intros q v Hq. now rewrite backfilled_lookup, Hq.
  - intros q Hq. now rewrite backfilled_lookup, Hq.
  - intros Hq. now rewrite backfilled_lookup, Hq.
Qed.




(** X5.  Where the loop awaits the user: [/exit] and [/back] (in any case of
    letters) end the session, an empty line changes nothing but the
    environment, and any other line is appended to the History as a user
    message, after which the loop sends to the model. *)
Theorem X5_user_line (s : Session) (st : @State E) (line : string)
    (e' : E) :
  ctl st = AwaitUserInput ->
  console_input host (env (world st)) = (Ret line, e') ->
  step host s st
  = if is_exit line then
      mkState Returned (history st) (response st)
        (mkWorld (files (world st)) e') (log st)
    else if String.eqb line "" then
      mkState AwaitUserInput (history st) (response st)
        (mkWorld (files (world st)) e') (log st)
    else
      mkState SendToModel
        (history st ++ [mkMessage "user" (JStr line)])%list (response st)
        (mkWorld (files (world st)) e') (log st).
Proof.
  intros Hc Hi. unfold step, on_env, on_world. rewrite Hc, Hi.
  destruct (is_exit line); [reflexivity|].
  destruct (String.eqb line ""); reflexivity.
Qed.

End Claims.

(** C10.  Whenever the span that the regular expression extracts decodes,
    the decoded value is a dict, so the lookups of "tool" and "args" in the
    dispatch return and do not raise. *)
Theorem C10_decoded_action_is_dict (text : string) (m : nat * nat)
    (action : json) :
  re_search brace_re text = Some m ->
  json_loads (group text m) = Ret action ->
  is_dict action = true
  /\ (exists tool_name, py_get action (JStr "tool") JNull = Ret tool_name)
  /\ (exists args, py_get action (JStr "args") (JObj []) = Ret args).
Proof.
  intros Hm Hd.
  assert (greedy_span text = Some (group text m)) as Hs.
  { rewrite <- group_search_greedy, Hm. reflexivity. }
  destruct (greedy_span_starts _ _ Hs) as [rest Hr].
  rewrite Hr in Hd. apply json_loads_object in Hd.
  destruct action; try discriminate.
  split; [reflexivity|]. split; eexists; reflexivity.
Qed.


Lemma C4_witness :
  step script_host base_session (asking [Ret (the_response "done } {")])
  = plain_turn script_host base_session
      (asking [Ret (the_response "done } {")])
      "done } {" (the_response "done } {") after_reply.
Proof.
  apply (C4_no_braces_plain_answer script_host).
  - reflexivity.
  - repeat split. eexists. split; reflexivity.
  - intros H. apply greedy_span_pair in H. destruct H as [span H].
    discriminate H.
Defined.

Lemma C10_witness :
  is_dict (JObj [("tool", JStr "bogus")]) = true
  /\ (exists tool_name,
        py_get (JObj [("tool", JStr "bogus")]) (JStr "tool") JNull
        = Ret tool_name)
  /\ (exists args,
        py_get (JObj [("tool", JStr "bogus")]) (JStr "args") (JObj [])
        = Ret args).
Proof.
  apply (C10_decoded_action_is_dict ("ok: " ++ bogus_reply ++ " bye") (4, 16)).
  - reflexivity.
  - reflexivity.
Defined.



Lemma C1_witness :
  exists rest,
    log (step script_host base_session (asking []))
    = (log (asking []) ++ the_request script_host base_session (asking [])
       :: rest)%list.
Proof.
  apply (C1_request_from_history script_host base_session (asking [])).
  reflexivity.
Defined.

(** With the gemini provider the system message of the History is in the
    request in neither shape. *)
Lemma C1_counterexample :
  known_provider (provider gemini_session)
  /\ In (system_message script_host) (history (asking []))
  /\ ~ represented (system_message script_host)
        (request_data gemini_session (history (asking []))).
Proof.
  split; [right; right; reflexivity|]. split; [left; reflexivity|].
  intros [(fields & items & Hd & Hm & _)
         |(fields & items & entry & parts & Hd & Hc & Hi & Hp & Hx)].
  - injection Hd as <-. discriminate Hm.
  - injection Hd as <-. injection Hc as <-.
    destruct Hi as [Hi|[]]. injection Hi as <-.
    injection Hp as <-. destruct Hx as [Hx|[]]. discriminate Hx.
Qed.

Lemma C2_witness :
  history_alternates (system_message script_host)
    (history (run script_host 2 base_session short_chat))
  /\ history_pattern (system_message script_host)
       (history (run script_host 2 base_session short_chat)).
Proof.
  apply (C2_history_shape script_host base_session
           (script_world ["hi"] [Ret (the_response "done")]) [] 2).
  - intros k Hk Hc. destruct k as [|[|k]].
    + discriminate Hc.
    + exists (JStr "done"), (the_response "done"), (mkScript [] [] []).
      repeat split. eexists. split; reflexivity.
    + lia.
  - left. reflexivity.
Defined.

(** After a request that failed, the next line of the user follows the
    previous one with no assistant message in between. *)
Lemma C2_counterexample :
  awaiting (ctl failed_then_asked_again)
  /\ ~ history_pattern (system_message script_host)
        (history failed_then_asked_again).
Proof.
  split; [right; reflexivity|].
  intros (rest & Hh & Ha). vm_compute in Hh. injection Hh as <-.
  vm_compute in Ha. discriminate Ha.
Qed.


(** C8.  A configuration file that exists and cannot be opened: the
    [PermissionError] of [open] is none of the three exceptions that
    [load_config] catches, and leaves the function. *)
Theorem C8_unreadable_config_raises :
  load_config script_host unreadable_config
  = Raise (mkExn PermissionError
             "[Errno 13] Permission denied: 'config.json'").
Proof. reflexivity. Qed.



Lemma X1_witness :
  exists ps',
    load_config script_host gemini_less_config
    = Ret (JObj (assoc_set "providers" (JObj ps')
                   [("default_provider", JStr "openrouter");
                    ("providers",
                     JObj [("base", default_provider_config);
                           ("openrouter",
                            JObj [("api_key", JStr "sk-1");
                                  ("model", JStr "m1")])])]))
    /\ (forall q v,
          assoc_get q [("base", default_provider_config);
                       ("openrouter",
                        JObj [("api_key", JStr "sk-1"); ("model", JStr "m1")])]
          = Some v -> assoc_get q ps' = Some v)
    /\ (forall q,
          assoc_get q [("base", default_provider_config);
                       ("openrouter",
                        JObj [("api_key", JStr "sk-1"); ("model", JStr "m1")])]
          = None -> assoc_get q ps' = assoc_get q default_providers)
    /\ (assoc_get "gemini"
          [("base", default_provider_config);
           ("openrouter",
            JObj [("api_key", JStr "sk-1"); ("model", JStr "m1")])] = None ->
        assoc_get "gemini" ps'
        = Some (JObj [("api_key", JStr ""); ("model", JStr "default-model")])).
Proof.
  apply (X1_load_config_backfills script_host gemini_less_config
           gemini_less_text).
  - reflexivity.
  - reflexivity.
  - reflexivity.
  - reflexivity.
Defined.



Lemma X5_witness :
  step script_host base_session
    (initial_state script_host (script_world ["/EXIT"] []) [])
  = mkState Returned [system_message script_host] None
      (mkWorld no_files after_reply) [].
Proof.
  apply (X5_user_line script_host base_session
           (initial_state script_host (script_world ["/EXIT"] []) [])
           "/EXIT" after_reply).
  - reflexivity.
  - reflexivity.
Defined.

(* ------------------------------------------------------------------ *)
(** ** The encoder and the decoder *)

Section EncoderProofs.

Variable float_repr : string -> string.

Lemma iterencode_arr (level : nat) (x : json) (rest : list json) :
  iterencode float_repr level (JArr (x :: rest))
  = and_then (item_arr float_repr level ("[" ++ newline_indent (S level)) x)
      (and_then (more_arr float_repr level rest)
         (chunk (newline_indent level ++ "]"))).
Proof.
  cbn [iterencode]. f_equal. f_equal.
  induction rest as [|y rest IH]; [reflexivity|].
  cbn [more_arr]. rewrite <- IH. reflexivity.
Qed.

Lemma iterencode_obj (level : nat) (k : string) (x : json)
    (rest : list (string * json)) :
  iterencode float_repr level (JObj ((k, x) :: rest))
  = and_then
      (item_obj float_repr level ("{" ++ newline_indent (S level)) k x)
      (and_then (more_obj float_repr level rest)
         (chunk (newline_indent level ++ "}"))).
Proof.
  cbn [iterencode]. f_equal. f_equal.
  induction rest as [|[key y] rest IH]; [reflexivity|].
  cbn [more_obj]. rewrite <- IH. reflexivity.
Qed.

End EncoderProofs.

(** *** Texts *)

Lemma hex_value_digit (d : N) :
  (d < 16)%N -> hex_value (hex_digit d) = Some d.
Proof.
  intros H. assert (Hn : exists k, d = N.of_nat k /\ k < 16).
  { exists (N.to_nat d). split; [now rewrite Nnat.N2Nat.id|lia]. }
  destruct Hn as (k & -> & Hk).
  do 16 (destruct k as [|k]; [reflexivity|]). lia.
Qed.

Lemma decode_hex4 (n : N) (r : string) :
  (n < 65536)%N -> decode_uXXXX (hex4 n ++ r) = Some (n, r).
Proof.
  intros H. unfold hex4, decode_uXXXX. cbn [append str1].
  rewrite !hex_value_digit by (apply N.mod_lt; discriminate).
  f_equal. f_equal.
  pose proof (N.div_mod n 16). pose proof (N.div_mod (n / 16) 16).
  pose proof (N.div_mod (n / 256) 16).
  assert (n / 256 = n / 16 / 16)%N by (now rewrite N.Div0.div_div).
  assert (n / 4096 = n / 256 / 16)%N by (now rewrite N.Div0.div_div).
  assert (n / 4096 < 16)%N by (apply N.Div0.div_lt_upper_bound; lia).
  rewrite (N.mod_small (n / 4096) 16) by assumption.
  lia.
Qed.

Lemma encode_chars_ascii (c : ascii) (r : string) :
  Nat.ltb (Ascii.nat_of_ascii c) 128 = true ->
  encode_chars 0 (String c r)
  = (escape_char (Ascii.N_of_ascii c) ++ encode_chars 0 r)%string.
Proof.
  intros H. cbn [encode_chars]. unfold codepoint_at, char_width.
  apply Nat.ltb_lt in H.
  assert (K : Nat.ltb (Ascii.nat_of_ascii c) 192 = true)
    by (apply Nat.ltb_lt; lia).
  rewrite K. reflexivity.
Qed.

(** The decoder reads an escaped ASCII character back. *)
Lemma scanstring_escape (c : ascii) (tail : string) (fuel : nat) :
  Nat.ltb (Ascii.nat_of_ascii c) 128 = true ->
  scanstring (S fuel) (escape_char (Ascii.N_of_ascii c) ++ tail)
  = ('(rest, r') <- scanstring fuel tail ;; Ret (String c rest, r')).
Proof.
  destruct c as [[] [] [] [] [] [] [] []]; intros H;
    try discriminate H; reflexivity.
Qed.

Lemma is_ascii_cons (c : ascii) (s : string) :
  is_ascii (String c s) = true ->
  Nat.ltb (Ascii.nat_of_ascii c) 128 = true /\ is_ascii s = true.
Proof. unfold is_ascii. cbn [list_ascii_of_string forallb]. apply andb_prop. Qed.

Lemma scanstring_encoded (s : string) :
  is_ascii s = true ->
  forall tail fuel,
    String.length s < fuel ->
    scanstring fuel (encode_chars 0 s ++ String chr_quote tail)
    = Ret (s, tail).
Proof.
  induction s as [|c s IH]; intros Ha tail fuel Hf.
  - destruct fuel; [lia|]. reflexivity.
  - apply is_ascii_cons in Ha. destruct Ha as [Hc Hs].
    destruct fuel as [|fuel]; [cbn in Hf; lia|].
    rewrite (encode_chars_ascii c s Hc), append_assoc.
    rewrite (scanstring_escape c _ fuel Hc).
    rewrite (IH Hs tail fuel) by (cbn in Hf; lia). reflexivity.
Qed.

Lemma length_escape_char (c : ascii) :
  1 <= String.length (escape_char (Ascii.N_of_ascii c)).
Proof.
  unfold escape_char.
  repeat match goal with
         | |- context [if ?b then _ else _] => destruct b
         end; cbn; lia.
Qed.

Lemma length_encode_chars (s : string) :
  is_ascii s = true -> String.length s <= String.length (encode_chars 0 s).
Proof.
  induction s as [|c s IH]; intros Ha; [cbn; lia|].
  apply is_ascii_cons in Ha. destruct Ha as [Hc Hs].
  rewrite (encode_chars_ascii c s Hc), length_append. cbn [String.length].
  pose proof (length_escape_char c). specialize (IH Hs). lia.
Qed.

(** *** Integers *)

Lemma nzhead_shape (d : Decimal.uint) :
  Decimal.nzhead d = Decimal.Nil \/ head_nonzero (Decimal.nzhead d).
Proof. induction d; cbn; auto. Qed.

Lemma to_uint_head (p : positive) : head_nonzero (Pos.to_uint p).
Proof.
  pose proof (DecimalPos.Unsigned.to_of (Pos.to_uint p)) as H.
  rewrite DecimalPos.Unsigned.of_to in H.
  change (N.to_uint (N.pos p)) with (Pos.to_uint p) in H.
  rewrite H. unfold Decimal.unorm.
  destruct (nzhead_shape (Pos.to_uint p)) as [K|K].
  - exfalso. apply (DecimalPos.Unsigned.to_uint_nonzero p).
    rewrite H. unfold Decimal.unorm. now rewrite K.
  - destruct (Decimal.nzhead (Pos.to_uint p)); try contradiction; exact I.
Qed.

Lemma digits_value_acc (d : Decimal.uint) :
  forall acc,
    digits_value (Z.pos acc) (NilEmpty.string_of_uint d)
    = Z.pos (Pos.of_uint_acc d acc).
Proof.
  induction d; intros acc; cbn [NilEmpty.string_of_uint digits_value
                                  Pos.of_uint_acc];
    [reflexivity|..];
    match goal with
    | |- context [Z.of_nat ?t] =>
        let v := eval vm_compute in (Z.of_nat t) in
        change (Z.of_nat t) with v
    end;
    match goal with
    | |- digits_value ?a _ = Z.pos (Pos.of_uint_acc _ ?b) =>
        replace a with (Z.pos b) by lia
    end; apply IHd.
Qed.

Lemma digits_value_uint (d : Decimal.uint) :
  digits_value 0 (NilEmpty.string_of_uint d) = Z.of_N (Pos.of_uint d).
Proof.
  induction d; cbn [NilEmpty.string_of_uint digits_value Pos.of_uint];
    [reflexivity|exact IHd|..];
    match goal with
    | |- digits_value ?a _ = Z.of_N (N.pos (Pos.of_uint_acc _ ?b)) =>
        change a with (Z.pos b)
    end; apply digits_value_acc.
Qed.

Lemma take_digits_uint (d : Decimal.uint) (rest : string) :
  ends_number rest = true ->
  take_digits (NilEmpty.string_of_uint d ++ rest)
  = (NilEmpty.string_of_uint d, rest).
Proof.
  intros Hr. induction d; cbn [NilEmpty.string_of_uint append take_digits];
    try (change (is_digit _) with true; cbv iota; rewrite IHd; reflexivity).
  destruct rest as [|c rest]; [reflexivity|]. cbn [take_digits].
  cbn [ends_number] in Hr. destruct (is_digit c); [discriminate|reflexivity].
Qed.

Lemma scan_frac_none (rest : string) :
  ends_number rest = true -> scan_frac rest = (EmptyString, rest).
Proof.
  destruct rest as [|c rest]; [reflexivity|]. cbn [ends_number scan_frac].
  destruct (Ascii.eqb c "."%char); [|reflexivity].
  rewrite !orb_true_r. discriminate.
Qed.

Lemma scan_exp_none (rest : string) :
  ends_number rest = true -> scan_exp rest = (EmptyString, rest).
Proof.
  destruct rest as [|c rest]; [reflexivity|]. cbn [ends_number scan_exp].
  destruct (Ascii.eqb c "e"%char), (Ascii.eqb c "E"%char);
    rewrite ?orb_true_r; cbn [orb negb]; try discriminate; reflexivity.
Qed.

(** The text of a positive number is read back as that number. *)
Lemma scan_digits (p : positive) (rest : string) :
  ends_number rest = true ->
  exists c t,
    NilEmpty.string_of_uint (Pos.to_uint p) = String c t
    /\ is_digit c = true
    /\ Ascii.eqb c "0"%char = false
    /\ Ascii.eqb c "-"%char = false
    /\ take_digits (t ++ rest) = (t, rest)
    /\ digits_value 0 (String c t) = Z.pos p.
Proof.
  intros Hr. pose proof (to_uint_head p) as Hh.
  pose proof (digits_value_uint (Pos.to_uint p)) as Hv.
  rewrite DecimalPos.Unsigned.of_to in Hv. cbn [Z.of_N] in Hv.
  destruct (Pos.to_uint p) as [|d|d|d|d|d|d|d|d|d|d]; try contradiction;
    cbn [NilEmpty.string_of_uint] in *; eexists _, _;
    (split; [reflexivity|]); repeat (split; [reflexivity|]);
    (split; [now apply take_digits_uint|exact Hv]).
Qed.

Lemma ends_value_number (rest : string) :
  ends_value rest = true -> ends_number rest = true.
Proof.
  destruct rest as [|c rest]; [reflexivity|]. cbn [ends_value ends_number].
  intros H. apply orb_prop in H.
  destruct H as [H|H]; apply Ascii.eqb_eq in H; subst c; reflexivity.
Qed.

Lemma scan_number_of_integer (s lexeme rest : string) :
  ends_number rest = true ->
  scan_integer s = Some (lexeme, rest) ->
  scan_number s = Some (JInt (int_of_lexeme lexeme), rest).
Proof.
  intros Hr Hs. unfold scan_number. rewrite Hs.
  rewrite (scan_frac_none rest Hr), (scan_exp_none rest Hr). reflexivity.
Qed.

(** The text of an integer is read back as that integer. *)
Lemma scan_number_int (z : Z) (rest : string) :
  ends_number rest = true ->
  scan_number (str_of_Z z ++ rest) = Some (JInt z, rest)
  /\ exists c t,
       str_of_Z z = String c t
       /\ (is_digit c = true \/ c = "-"%char).
Proof.
  intros Hr. unfold str_of_Z. destruct z as [|p|p]; cbn [Z.to_int].
  - split; [|eexists _, _; split; [reflexivity|left; reflexivity]].
    apply (scan_number_of_integer _ "0" rest Hr). reflexivity.
  - destruct (scan_digits p rest Hr) as (c & t & Hs & Hd & H0 & Hm & Ht & Hv).
    pose proof (to_uint_head p) as Hh.
    assert (Hz : NilZero.string_of_uint (Pos.to_uint p) = String c t).
    { unfold NilZero.string_of_uint.
      destruct (Pos.to_uint p); try contradiction; exact Hs. }
    cbn [NilZero.string_of_int]. rewrite Hz.
    split; [|eexists _, _; split; [reflexivity|left; exact Hd]].
    replace (JInt (Z.pos p)) with (JInt (int_of_lexeme (String c t))).
    + apply (scan_number_of_integer _ _ rest Hr).
      unfold scan_integer. cbn [append]. rewrite Hm, H0, Hd, Ht. reflexivity.
    + unfold int_of_lexeme. now rewrite Hm, Hv.
  - destruct (scan_digits p rest Hr) as (c & t & Hs & Hd & H0 & Hm & Ht & Hv).
    pose proof (to_uint_head p) as Hh.
    assert (Hz : NilZero.string_of_uint (Pos.to_uint p) = String c t).
    { unfold NilZero.string_of_uint.
      destruct (Pos.to_uint p); try contradiction; exact Hs. }
    cbn [NilZero.string_of_int]. rewrite Hz.
    split; [|eexists _, _; split; [reflexivity|right; reflexivity]].
    replace (JInt (Z.neg p))
      with (JInt (int_of_lexeme (String "-"%char (String c t)))).
    + apply (scan_number_of_integer _ _ rest Hr).
      unfold scan_integer. cbn [append].
      change (Ascii.eqb "-"%char "-"%char) with true. cbv iota.
      rewrite H0, Hd, Ht. reflexivity.
    + unfold int_of_lexeme.
      change (Ascii.eqb "-"%char "-"%char) with true. cbv iota.
      now rewrite Hv.
Qed.

(** *** Whitespace and the first character of a value *)

Lemma value_head_solid (c : ascii) :
  value_head c = true ->
  is_ws c = false /\ Ascii.eqb c "]"%char = false
  /\ Ascii.eqb c chr_rbrace = false.
Proof.
  destruct c as [[] [] [] [] [] [] [] []]; intros H; try discriminate H;
    repeat split.
Qed.

Lemma skip_ws_solid (c : ascii) (s : string) :
  is_ws c = false -> skip_ws (String c s) = String c s.
Proof. intros H. cbn [skip_ws]. now rewrite H. Qed.

Lemma skip_ws_spaces (n : nat) (s : string) :
  skip_ws (spaces n ++ s) = skip_ws s.
Proof. induction n as [|n IH]; [reflexivity|]. cbn [spaces append skip_ws]. exact IH. Qed.

Lemma skip_ws_indent (level : nat) (s : string) :
  skip_ws (newline_indent level ++ s) = skip_ws s.
Proof.
  unfold newline_indent, LF, str1. cbn [append skip_ws].
  change (is_ws chr_lf) with true. cbv iota. apply skip_ws_spaces.
Qed.

Lemma slice_all (s : string) (n : nat) :
  String.length s <= n -> slice 0 n s = s.
Proof.
  revert n. induction s as [|c s IH]; intros n H; [destruct n; reflexivity|].
  destruct n as [|n]; [cbn in H; lia|]. cbn [slice]. rewrite IH; [reflexivity|].
  cbn in H. lia.
Qed.

(** *** Dicts *)

Lemma assoc_set_fresh {A} (k : string) (v : A) (d : list (string * A)) :
  existsb (String.eqb k) (map fst d) = false ->
  assoc_set k v d = (d ++ [(k, v)])%list.
Proof.
  induction d as [|[k' v'] d IH]; [reflexivity|]. cbn [map fst existsb].
  intros H. apply orb_false_elim in H. destruct H as [H1 H2].
  cbn [assoc_set app]. rewrite H1. now rewrite IH.
Qed.

Lemma existsb_app_false {A} (f : A -> bool) (a b : list A) :
  existsb f a = false -> existsb f b = false -> existsb f (a ++ b) = false.
Proof. intros Ha Hb. rewrite existsb_app, Ha, Hb. reflexivity. Qed.

Lemma fold_assoc_set_distinct (l acc : list (string * json)) :
  distinct (map fst (acc ++ l)) = true ->
  fold_left (fun d kv => assoc_set (fst kv) (snd kv) d) l acc
  = (acc ++ l)%list.
Proof.
  revert acc. induction l as [|[k v] l IH]; intros acc H.
  - now rewrite app_nil_r.
  - cbn [fold_left fst snd].
    assert (Hk : existsb (String.eqb k) (map fst acc) = false).
    { clear IH. induction acc as [|[k' v'] acc IHa]; [reflexivity|].
      cbn [app map fst distinct] in H. apply andb_prop in H.
      destruct H as [H1 H2]. cbn [map fst existsb].
      rewrite (IHa H2), orb_false_r.
      rewrite map_app, existsb_app in H1. cbn [map fst existsb] in H1.
      apply negb_true_iff in H1. apply orb_false_elim in H1.
      destruct H1 as [_ H1]. apply orb_false_elim in H1.
      destruct H1 as [H1 _]. now rewrite String.eqb_sym. }
    rewrite (assoc_set_fresh k v acc Hk).
    rewrite IH; rewrite <- app_assoc; [reflexivity|exact H].
Qed.

Lemma dict_of_pairs_distinct (l : list (string * json)) :
  distinct (map fst l) = true -> dict_of_pairs l = l.
Proof. intros H. unfold dict_of_pairs. now rewrite fold_assoc_set_distinct. Qed.

(** *** Values *)

Lemma json_induction (P : json -> Prop) :
  P JNull -> (forall b, P (JBool b)) -> (forall z, P (JInt z)) ->
  (forall l, P (JFloat l)) -> (forall s, P (JStr s)) ->
  (forall items, Forall P items -> P (JArr items)) ->
  (forall fields, Forall (fun kv => P (snd kv)) fields -> P (JObj fields)) ->
  forall v, P v.
Proof.
  intros Hn Hb Hi Hf Hs Ha Ho. fix IH 1.
  intros [|b|z|l|s|items|fields].
  - exact Hn.
  - apply Hb.
  - apply Hi.
  - apply Hf.
  - apply Hs.
  - apply Ha. induction items as [|x items IHl]; constructor;
      [apply IH|exact IHl].
  - apply Ho. induction fields as [|[k x] fields IHl]; constructor;
      [apply IH|exact IHl].
Qed.

Lemma digit_head (c : ascii) :
  is_digit c = true \/ c = "-"%char ->
  Ascii.eqb c chr_quote = false /\ Ascii.eqb c chr_lbrace = false
  /\ Ascii.eqb c "["%char = false /\ Ascii.eqb "n"%char c = false
  /\ Ascii.eqb "t"%char c = false /\ Ascii.eqb "f"%char c = false
  /\ value_head c = true.
Proof.
  intros [H| ->]; [|repeat split].
  destruct c as [[] [] [] [] [] [] [] []]; try discriminate H; repeat split.
Qed.

Lemma scan_once_number (c : ascii) (t : string) (v : json) (rest : string)
    (fuel : nat) :
  is_digit c = true \/ c = "-"%char ->
  scan_number (String c t) = Some (v, rest) ->
  scan_once (S fuel) (String c t) = Ret (v, rest).
Proof.
  intros Hc Hs. destruct (digit_head c Hc) as (H1 & H2 & H3 & H4 & H5 & H6 & _).
  cbn [scan_once]. rewrite H1, H2, H3.
  cbn [starts_with]. rewrite H4, H5, H6. cbn [andb]. now rewrite Hs.
Qed.

Section ReadBack.

Variable float_repr : string -> string.

Lemma reads_back_null : reads_back float_repr JNull.
Proof.
  intros level. split; [reflexivity|].
  split; [eexists _, _; split; reflexivity|].
  intros rest fuel _ Hf. destruct fuel; [lia|].
  cbn [iterencode atom_chunk encode_atom chunk fst append scan_once].
  change (Ascii.eqb "n" chr_quote) with false.
  change (Ascii.eqb "n" chr_lbrace) with false.
  change (Ascii.eqb "n" "[") with false. cbv iota.
  cbn [starts_with Ascii.eqb Bool.eqb andb slice String.length].
  now rewrite slice_all by lia.
Qed.

Lemma reads_back_bool (b : bool) : reads_back float_repr (JBool b).
Proof.
  intros level. destruct b.
  - split; [reflexivity|].
    split; [eexists _, _; split; reflexivity|].
    intros rest fuel _ Hf. destruct fuel; [lia|].
    cbn [iterencode atom_chunk encode_atom chunk fst append scan_once].
    change (Ascii.eqb "t" chr_quote) with false.
    change (Ascii.eqb "t" chr_lbrace) with false.
    change (Ascii.eqb "t" "[") with false. cbv iota.
    cbn [starts_with Ascii.eqb Bool.eqb andb slice String.length].
    now rewrite slice_all by lia.
  - split; [reflexivity|].
    split; [eexists _, _; split; reflexivity|].
    intros rest fuel _ Hf. destruct fuel; [lia|].
    cbn [iterencode atom_chunk encode_atom chunk fst append scan_once].
    change (Ascii.eqb "f" chr_quote) with false.
    change (Ascii.eqb "f" chr_lbrace) with false.
    change (Ascii.eqb "f" "[") with false. cbv iota.
    cbn [starts_with Ascii.eqb Bool.eqb andb slice String.length].
    now rewrite slice_all by lia.
Qed.

Lemma reads_back_int (z : Z) :
  storable (JInt z) = true -> reads_back float_repr (JInt z).
Proof.
  intros Hs level. cbn [storable] in Hs.
  assert (Hi : int_repr z = Ret (str_of_Z z)).
  { unfold int_repr. apply Nat.leb_le in Hs.
    destruct (Nat.ltb 4300 _) eqn:K; [apply Nat.ltb_lt in K; lia|].
    reflexivity. }
  cbn [iterencode]. unfold atom_chunk, encode_atom. rewrite Hi.
  cbn [chunk fst snd append].
  split; [reflexivity|].
  destruct (scan_number_int z "" eq_refl) as (_ & c & t & Hz & Hc).
  split.
  - exists c, t. split; [exact Hz|]. now destruct (digit_head c Hc) as (_&_&_&_&_&_&H).
  - intros rest fuel Hr Hf. destruct fuel; [lia|].
    destruct (scan_number_int z rest (ends_value_number rest Hr))
      as (Hn & _).
    rewrite Hz in *. cbn [append] in *.
    now apply scan_once_number.
Qed.

Lemma reads_back_str (s : string) :
  is_ascii s = true -> reads_back float_repr (JStr s).
Proof.
  intros Hs level.
  cbn [iterencode]. unfold atom_chunk, encode_atom, chunk.
  cbn [fst snd append].
  unfold py_encode_basestring_ascii, str1. cbn [append].
  split; [reflexivity|].
  split; [eexists _, _; split; reflexivity|].
  intros rest fuel Hr Hf. destruct fuel; [lia|].
  cbn [scan_once]. change (Ascii.eqb chr_quote chr_quote) with true.
  cbv iota. rewrite append_assoc. cbn [append].
  rewrite scanstring_encoded; [reflexivity|exact Hs|].
  rewrite length_append. pose proof (length_encode_chars s Hs). lia.
Qed.

End ReadBack.

Section ReadBackLists.

Variable float_repr : string -> string.

Lemma and_then_chunks (a b : string) :
  and_then (chunk a) (chunk b) = chunk (a ++ b).
Proof. reflexivity. Qed.

Lemma written_complete (w : written) : snd w = None -> w = chunk (fst w).
Proof. destruct w as [s e]. cbn. now intros ->. Qed.

(** The text of a value that reads back does not depend on being an item
    or not. *)
Lemma atom_chunk_text (buf : string) (y : json) :
  snd (atom_chunk float_repr "" y) = None ->
  atom_chunk float_repr buf y
  = chunk (buf ++ fst (atom_chunk float_repr "" y)).
Proof.
  unfold atom_chunk. destruct (encode_atom float_repr y); [|discriminate].
  reflexivity.
Qed.

Lemma item_arr_text (level : nat) (buf : string) (y : json) :
  reads_back float_repr y ->
  item_arr float_repr level buf y
  = chunk (buf ++ fst (iterencode float_repr (S level) y)).
Proof.
  intros Hy. destruct (Hy (S level)) as (Hn & _).
  destruct y; cbn [item_arr];
    try (cbn [iterencode] in *; now apply atom_chunk_text).
  - rewrite (written_complete _ Hn). reflexivity.
  - rewrite (written_complete _ Hn). reflexivity.
Qed.

Lemma more_arr_cons (level : nat) (y : json) (l : list json) :
  Forall (reads_back float_repr) (y :: l) ->
  more_arr float_repr level (y :: l)
  = chunk ("," ++ newline_indent (S level)
           ++ fst (iterencode float_repr (S level) y)
           ++ fst (more_arr float_repr level l))
  /\ snd (more_arr float_repr level l) = None.
Proof.
  revert y. induction l as [|z l IH]; intros y Hf.
  - inversion Hf as [|? ? Hy _]; subst. cbn [more_arr].
    rewrite (item_arr_text level _ y Hy). cbn [chunk and_then fst snd].
    rewrite !append_assoc, append_nil_r. split; reflexivity.
  - inversion Hf as [|? ? Hy Hl]; subst.
    destruct (IH z Hl) as [Hz Hn].
    cbn [more_arr] in *. rewrite (item_arr_text level _ y Hy).
    rewrite Hz. cbn [chunk and_then fst snd].
    split; [|reflexivity]. now rewrite !append_assoc.
Qed.

Lemma more_arr_length (level : nat) (l : list json) :
  Forall (reads_back float_repr) l ->
  length l <= String.length (fst (more_arr float_repr level l)).
Proof.
  induction l as [|y l IH]; intros Hf; [cbn; lia|].
  destruct (more_arr_cons level y l Hf) as [Hc _]. rewrite Hc.
  inversion Hf; subst. cbn [chunk fst length append String.length].
  rewrite !length_append. specialize (IH H2). lia.
Qed.

Lemma ends_value_more_arr (level : nat) (l : list json) (rest : string) :
  Forall (reads_back float_repr) l ->
  ends_value (fst (more_arr float_repr level l) ++ newline_indent level
              ++ rest) = true.
Proof.
  intros Hf. destruct l as [|y l]; [reflexivity|].
  destruct (more_arr_cons level y l Hf) as [Hc _]. rewrite Hc. reflexivity.
Qed.

(** The loop of the decoder over the items that the encoder wrote. *)
Lemma array_loop_encoded (level : nat) (l : list json) :
  Forall (reads_back float_repr) l ->
  forall x values rest fuel f,
    reads_back float_repr x ->
    length l < fuel ->
    String.length (fst (iterencode float_repr (S level) x)
                   ++ fst (more_arr float_repr level l)
                   ++ newline_indent level ++ String "]" rest) < f ->
    array_loop (scan_once f) fuel
      (fst (iterencode float_repr (S level) x)
       ++ fst (more_arr float_repr level l)
       ++ newline_indent level ++ String "]" rest) values
    = Ret ((values ++ x :: l)%list, rest).
Proof.
  induction l as [|y l IH]; intros Hf x values rest fuel f Hx Hfuel Hlen;
    (destruct fuel as [|fuel]; [cbn in Hfuel; lia|]); cbn [array_loop];
    destruct (Hx (S level)) as (_ & _ & Hscan).
  - rewrite Hscan; [|reflexivity|exact Hlen]. cbn [bind more_arr chunk fst append].
    rewrite skip_ws_indent. cbn [skip_ws].
    change (is_ws "]") with false. cbv iota.
    change (Ascii.eqb "]" "]") with true. cbv iota. reflexivity.
  - rewrite Hscan; [|now apply ends_value_more_arr|exact Hlen].
    cbn [bind]. destruct (more_arr_cons level y l Hf) as [Hc _].
    rewrite Hc in *. cbn [chunk fst append] in *.
    cbn [skip_ws]. change (is_ws ",") with false. cbv iota.
    change (Ascii.eqb "," "]") with false.
    change (Ascii.eqb "," ",") with true. cbv iota.
    rewrite !append_assoc in *. rewrite skip_ws_indent.
    inversion Hf as [|? ? Hy Hl]; subst.
    destruct (Hy (S level)) as (_ & (c & t & Ht & Hh) & _).
    destruct (value_head_solid c Hh) as (Hw & _).
    assert (Hsolid : forall tail,
              skip_ws (fst (iterencode float_repr (S level) y) ++ tail)
              = (fst (iterencode float_repr (S level) y) ++ tail)%string).
    { intros tail. rewrite Ht. cbn [append]. now apply skip_ws_solid. }
    rewrite Hsolid.
    rewrite (IH Hl y (values ++ [x])%list rest fuel f Hy).
    + now rewrite <- app_assoc.
    + cbn in Hfuel. lia.
    + repeat (rewrite ?length_append in Hlen; cbn [String.length] in Hlen).
      rewrite !length_append. cbn [String.length]. lia.
Qed.

End ReadBackLists.

Section ReadBackDicts.

Variable float_repr : string -> string.

Lemma item_obj_text (level : nat) (buf key : string) (y : json) :
  reads_back float_repr y ->
  item_obj float_repr level buf key y
  = chunk (buf ++ py_encode_basestring_ascii key ++ ": "
           ++ fst (iterencode float_repr (S level) y)).
Proof.
  intros Hy. destruct (Hy (S level)) as (Hn & _). unfold item_obj.
  assert (H : match y with
              | JArr _ | JObj _ => iterencode float_repr (S level) y
              | _ => atom_chunk float_repr "" y
              end = chunk (fst (iterencode float_repr (S level) y))).
  { destruct y; try (cbn [iterencode] in *; now apply written_complete);
      now apply written_complete. }
  rewrite H. cbn [chunk and_then fst snd]. now rewrite !append_assoc.
Qed.

Lemma more_obj_cons (level : nat) (k : string) (y : json)
    (l : list (string * json)) :
  Forall (field_ok float_repr) ((k, y) :: l) ->
  more_obj float_repr level ((k, y) :: l)
  = chunk ("," ++ newline_indent (S level)
           ++ py_encode_basestring_ascii k ++ ": "
           ++ fst (iterencode float_repr (S level) y)
           ++ fst (more_obj float_repr level l))
  /\ snd (more_obj float_repr level l) = None.
Proof.
  revert k y. induction l as [|[k2 z] l IH]; intros k y Hf.
  - inversion Hf as [|? ? [_ Hy] _]; subst. cbn [more_obj].
    rewrite (item_obj_text level _ k y Hy). cbn [chunk and_then fst snd].
    rewrite !append_assoc, append_nil_r. split; reflexivity.
  - inversion Hf as [|? ? [_ Hy] Hl]; subst.
    destruct (IH k2 z Hl) as [Hz Hn].
    cbn [more_obj] in *. rewrite (item_obj_text level _ k y Hy).
    rewrite Hz. cbn [chunk and_then fst snd].
    split; [|reflexivity]. now rewrite !append_assoc.
Qed.

Lemma more_obj_length (level : nat) (l : list (string * json)) :
  Forall (field_ok float_repr) l ->
  length l <= String.length (fst (more_obj float_repr level l)).
Proof.
  induction l as [|[k y] l IH]; intros Hf; [cbn; lia|].
  destruct (more_obj_cons level k y l Hf) as [Hc _]. rewrite Hc.
  inversion Hf; subst. cbn [chunk fst length append String.length].
  repeat (rewrite length_append; cbn [String.length]).
  specialize (IH H2). lia.
Qed.

Lemma ends_value_more_obj (level : nat) (l : list (string * json))
    (rest : string) :
  Forall (field_ok float_repr) l ->
  ends_value (fst (more_obj float_repr level l) ++ newline_indent level
              ++ rest) = true.
Proof.
  intros Hf. destruct l as [|[k y] l]; [reflexivity|].
  destruct (more_obj_cons level k y l Hf) as [Hc _]. rewrite Hc. reflexivity.
Qed.

(** The loop of the decoder over the fields that the encoder wrote. *)
Lemma object_loop_encoded (level : nat) (l : list (string * json)) :
  Forall (field_ok float_repr) l ->
  forall k x pairs rest fuel f,
    field_ok float_repr (k, x) ->
    length l < fuel ->
    String.length (encode_chars 0 k
                   ++ String chr_quote
                        (": " ++ fst (iterencode float_repr (S level) x)
                         ++ fst (more_obj float_repr level l)
                         ++ newline_indent level ++ String chr_rbrace rest))
    < f ->
    object_loop (scan_once f) fuel
      (encode_chars 0 k
       ++ String chr_quote
            (": " ++ fst (iterencode float_repr (S level) x)
             ++ fst (more_obj float_repr level l)
             ++ newline_indent level ++ String chr_rbrace rest)) pairs
    = Ret ((pairs ++ (k, x) :: l)%list, rest).
Proof.
  induction l as [|[k2 y] l IH];
    intros Hf k x pairs rest fuel f [Hk Hx] Hfuel Hlen;
    (destruct fuel as [|fuel]; [cbn in Hfuel; lia|]); cbn [object_loop];
    cbn [fst snd] in Hk, Hx;
    destruct (Hx (S level)) as (_ & (c & t & Ht & Hh) & Hscan);
    destruct (value_head_solid c Hh) as (Hw & _);
    (rewrite scanstring_encoded;
     [|exact Hk
      |rewrite length_append; pose proof (length_encode_chars k Hk); lia]);
    cbn [bind append skip_ws]; change (is_ws ":") with false; cbv iota;
    change (Ascii.eqb ":" ":") with true; cbv iota;
    cbn [skip_ws]; change (is_ws " ") with true; cbv iota;
    (assert (Hsolid : forall tail,
               skip_ws (fst (iterencode float_repr (S level) x) ++ tail)
               = (fst (iterencode float_repr (S level) x) ++ tail)%string)
       by (intros tail; rewrite Ht; cbn [append]; now apply skip_ws_solid));
    rewrite Hsolid.
  - rewrite Hscan; [|reflexivity|].
    + cbn [bind more_obj chunk fst append]. rewrite skip_ws_indent.
      cbn [skip_ws]. change (is_ws chr_rbrace) with false. cbv iota.
      change (Ascii.eqb chr_rbrace chr_rbrace) with true. cbv iota.
      reflexivity.
    + repeat (rewrite ?length_append in Hlen; cbn [String.length] in Hlen).
      rewrite !length_append. cbn [String.length]. lia.
  - rewrite Hscan; [|now apply ends_value_more_obj|].
    + cbn [bind]. destruct (more_obj_cons level k2 y l Hf) as [Hc _].
      rewrite Hc in *. cbn [chunk fst append] in *.
      cbn [skip_ws]. change (is_ws ",") with false. cbv iota.
      change (Ascii.eqb "," chr_rbrace) with false.
      change (Ascii.eqb "," ",") with true. cbv iota.
      rewrite !append_assoc in *. rewrite skip_ws_indent.
      unfold py_encode_basestring_ascii, str1 in *.
      rewrite !append_assoc in *. cbn [append skip_ws] in *.
      change (is_ws chr_quote) with false. cbv iota.
      change (Ascii.eqb chr_quote chr_quote) with true. cbv iota.
      inversion Hf as [|? ? Hy Hl]; subst.
      rewrite ?append_assoc in *.
      rewrite (IH Hl k2 y (pairs ++ [(k, x)])%list rest fuel f Hy).
      * now rewrite <- app_assoc.
      * cbn in Hfuel. lia.
      * repeat (rewrite ?length_append in Hlen;
                cbn [String.length] in Hlen).
        rewrite !length_append. cbn [String.length].
        rewrite !length_append. cbn [String.length]. lia.
    + repeat (rewrite ?length_append in Hlen; cbn [String.length] in Hlen).
      rewrite !length_append. cbn [String.length]. lia.
Qed.

End ReadBackDicts.

Section ReadBackValues.

Variable float_repr : string -> string.

Lemma more_arr_complete (level : nat) (l : list json) :
  Forall (reads_back float_repr) l ->
  more_arr float_repr level l = chunk (fst (more_arr float_repr level l)).
Proof.
  intros Hf. destruct l as [|y l]; [reflexivity|].
  destruct (more_arr_cons float_repr level y l Hf) as [Hc _].
  now rewrite Hc.
Qed.

Lemma more_obj_complete (level : nat) (l : list (string * json)) :
  Forall (field_ok float_repr) l ->
  more_obj float_repr level l = chunk (fst (more_obj float_repr level l)).
Proof.
  intros Hf. destruct l as [|[k y] l]; [reflexivity|].
  destruct (more_obj_cons float_repr level k y l Hf) as [Hc _].
  now rewrite Hc.
Qed.

Lemma reads_back_arr (items : list json) :
  Forall (reads_back float_repr) items ->
  reads_back float_repr (JArr items).
Proof.
  intros Hall level. destruct items as [|x l].
  - split; [reflexivity|]. split; [eexists _, _; split; reflexivity|].
    intros rest fuel _ Hf. destruct fuel; [lia|]. reflexivity.
  - inversion Hall as [|? ? Hx Hl]; subst.
    rewrite iterencode_arr, (item_arr_text float_repr level _ x Hx).
    rewrite (more_arr_complete level l Hl).
    cbn [chunk and_then fst snd append].
    split; [reflexivity|]. split; [eexists _, _; split; reflexivity|].
    intros rest fuel _ Hf. destruct fuel as [|f]; [lia|].
    cbn [scan_once].
    change (Ascii.eqb "[" chr_quote) with false.
    change (Ascii.eqb "[" chr_lbrace) with false.
    change (Ascii.eqb "[" "[") with true. cbv iota.
    rewrite !append_assoc in *. cbn [append] in *.
    unfold JSONArray. rewrite skip_ws_indent.
    destruct (Hx (S level)) as (_ & (c & t & Ht & Hh) & _).
    destruct (value_head_solid c Hh) as (Hw & Hb & _).
    assert (Hsolid : forall tail,
              skip_ws (fst (iterencode float_repr (S level) x) ++ tail)
              = (fst (iterencode float_repr (S level) x) ++ tail)%string).
    { intros tail. rewrite Ht. cbn [append]. now apply skip_ws_solid. }
    rewrite Hsolid.
    assert (Hhead : exists t', forall tail,
              (fst (iterencode float_repr (S level) x) ++ tail)%string
              = String c (t' ++ tail)).
    { exists t. intros tail. now rewrite Ht. }
    destruct Hhead as (t' & Hhead).
    rewrite (Hhead _) at 1. rewrite Hb.
    pose proof (more_arr_length float_repr level l Hl) as Hml.
    rewrite (array_loop_encoded float_repr level l Hl x [] rest f f Hx).
    + reflexivity.
    + repeat (rewrite ?length_append in Hf; cbn [String.length] in Hf). lia.
    + repeat (rewrite ?length_append in Hf; cbn [String.length] in Hf).
      repeat (rewrite ?length_append; cbn [String.length]). lia.
Qed.

Lemma reads_back_obj (fields : list (string * json)) :
  Forall (field_ok float_repr) fields ->
  distinct (map fst fields) = true ->
  reads_back float_repr (JObj fields).
Proof.
  intros Hall Hd level. destruct fields as [|[k x] l].
  - split; [reflexivity|]. split; [eexists _, _; split; reflexivity|].
    intros rest fuel _ Hf. destruct fuel; [lia|]. reflexivity.
  - inversion Hall as [|? ? Hkx Hl]; subst. destruct Hkx as [Hk Hx].
    cbn [fst snd] in Hk, Hx.
    rewrite iterencode_obj, (item_obj_text float_repr level _ k x Hx).
    rewrite (more_obj_complete level l Hl).
    cbn [chunk and_then fst snd append].
    split; [reflexivity|]. split; [eexists _, _; split; reflexivity|].
    intros rest fuel _ Hf. destruct fuel as [|f]; [lia|].
    cbn [scan_once].
    change (Ascii.eqb "{" chr_quote) with false.
    change (Ascii.eqb "{" chr_lbrace) with true. cbv iota.
    unfold py_encode_basestring_ascii, str1 in *.
    rewrite !append_assoc in *. cbn [append] in *.
    rewrite ?append_assoc in *.
    unfold JSONObject. rewrite skip_ws_indent. cbn [skip_ws].
    change (is_ws chr_quote) with false. cbv iota.
    change (Ascii.eqb chr_quote chr_rbrace) with false.
    change (Ascii.eqb chr_quote chr_quote) with true. cbv iota.
    pose proof (more_obj_length float_repr level l Hl) as Hml.
    pose proof (object_loop_encoded float_repr level l Hl k x [] rest f f)
      as Hloop.
    cbn [append] in Hloop. change chr_rbrace with "}"%char in Hloop.
    rewrite Hloop.
    + cbn [bind app]. now rewrite (dict_of_pairs_distinct _ Hd).
    + split; assumption.
    + repeat (rewrite ?length_append in Hf; cbn [String.length] in Hf). lia.
    + repeat (rewrite ?length_append in Hf; cbn [String.length] in Hf).
      repeat (rewrite ?length_append; cbn [String.length]). lia.
Qed.

(** Every storable value reads back. *)
Lemma storable_reads_back :
  forall v, storable v = true -> reads_back float_repr v.
Proof.
  apply (json_induction
           (fun v => storable v = true -> reads_back float_repr v)).
  - intros _. apply reads_back_null.
  - intros b _. apply reads_back_bool.
  - intros z. apply reads_back_int.
  - discriminate.
  - intros s. apply reads_back_str.
  - intros items IH Hs. apply reads_back_arr. cbn [storable] in Hs.
    induction items as [|x l IHl]; constructor.
    + inversion IH; subst. cbn [forallb] in Hs. apply andb_prop in Hs.
      now apply H1.
    + inversion IH; subst. cbn [forallb] in Hs. apply andb_prop in Hs.
      now apply IHl.
  - intros fields IH Hs. cbn [storable] in Hs. apply andb_prop in Hs.
    destruct Hs as [Hs Hd]. apply reads_back_obj; [|exact Hd].
    clear Hd. induction fields as [|[k x] l IHl]; constructor.
    + inversion IH; subst. cbn [forallb fst snd] in Hs.
      apply andb_prop in Hs. destruct Hs as [Hs _].
      apply andb_prop in Hs. destruct Hs as [Hk Hx].
      split; [exact Hk|now apply H1].
    + inversion IH; subst. cbn [forallb] in Hs. apply andb_prop in Hs.
      now apply IHl.
Qed.

(** [json.loads] of what [json.dump] wrote. *)
Lemma loads_dumped (v : json) :
  storable v = true ->
  snd (json_dump float_repr v) = None
  /\ json_loads (fst (json_dump float_repr v)) = Ret v.
Proof.
  intros Hs. destruct (storable_reads_back v Hs 0) as (Hn & (c & t & Ht & Hh) & H).
  split; [exact Hn|]. unfold json_loads, json_dump.
  specialize (H "" (S (String.length (fst (iterencode float_repr 0 v))))
                eq_refl).
  rewrite append_nil_r in H. specialize (H (Nat.lt_succ_diag_r _)).
  destruct (value_head_solid c Hh) as (Hw & _).
  assert (Hbom : starts_with BOM (fst (iterencode float_repr 0 v)) = false).
  { rewrite Ht. clear - Hh. unfold BOM. cbn [starts_with].
    destruct c as [[] [] [] [] [] [] [] []]; try discriminate Hh;
      reflexivity. }
  rewrite Hbom. rewrite Ht at 2. rewrite (skip_ws_solid c t Hw), <- Ht, H.
  reflexivity.
Qed.

End ReadBackValues.

(** ** More on the loop and the tool executors *)

Section MoreLoop.

Context {E : Type}.
Variable host : Host E.

Lemma Ret_inj {A} (a b : A) : Ret a = Ret b -> a = b.
Proof. now intros [= ->]. Qed.

Lemma write_ok_not_failed (path : json) (e : exn) :
  write_ok host path <> write_failed e.
Proof. unfold write_ok, write_failed. simpl. discriminate. Qed.

(** The write reported success only if both the opening and the writing
    went through. *)
Lemma agent_write_file_ok (w : World E) (p c : string) :
  fst (agent_write_file host (JStr p) (JStr c) w)
  = Ret (write_ok host (JStr p)) ->
  snd (agent_write_file host (JStr p) (JStr c) w)
  = set_file (set_file w p "") p c.
Proof.
  rewrite agent_write_file_cases.
  destruct (os_refuses host (env w) (OpOpenWrite p)) as [e|].
  { cbn [fst]. intros H. apply Ret_inj in H. symmetry in H.
    now apply write_ok_not_failed in H. }
  destruct (os_refuses host (env w) (OpWrite p c)) as [e|].
  { cbn [fst]. intros H. apply Ret_inj in H. symmetry in H.
    now apply write_ok_not_failed in H. }
  reflexivity.
Qed.

Lemma extract_reply_raises (s : Session) (body : json) (e : exn) :
  extract_reply s body = Raise e ->
  cls e = KeyError \/ cls e = IndexError \/ cls e = TypeError.
Proof.
  assert (forall v k x, py_getitem v k = Raise x ->
            cls x = KeyError \/ cls x = IndexError \/ cls x = TypeError)
    as Hk.
  { intros v k x. unfold py_getitem.
    destruct v; try (intros [= <-]; auto).
    destruct (assoc_get k fields); [discriminate|]. intros [= <-]. auto. }
  assert (forall v x, py_getitem0 v = Raise x ->
            cls x = KeyError \/ cls x = IndexError \/ cls x = TypeError)
    as H0.
  { intros v x. unfold py_getitem0.
    destruct v as [| | | |str|items|fields]; try (intros [= <-]; auto).
    - destruct str; [intros [= <-]; auto|discriminate].
    - destruct items; [intros [= <-]; auto|discriminate]. }
  unfold extract_reply. destruct (is_str "gemini" (provider s)).
  - destruct (py_getitem body "candidates") as [a|x] eqn:Ha;
      [|intros [= <-]; eauto]. cbn [bind].
    destruct (py_getitem0 a) as [b|x] eqn:Hb; [|intros [= <-]; eauto].
    cbn [bind].
    destruct (py_getitem b "content") as [c|x] eqn:Hc;
      [|intros [= <-]; eauto]. cbn [bind].
    destruct (py_getitem c "parts") as [d|x] eqn:Hd;
      [|intros [= <-]; eauto]. cbn [bind].
    destruct (py_getitem0 d) as [f|x] eqn:Hf; [|intros [= <-]; eauto].
    cbn [bind]. apply Hk.
  - destruct (py_getitem body "choices") as [a|x] eqn:Ha;
      [|intros [= <-]; eauto]. cbn [bind].
    destruct (py_getitem0 a) as [b|x] eqn:Hb; [|intros [= <-]; eauto].
    cbn [bind].
    destruct (py_getitem b "message") as [c|x] eqn:Hc;
      [|intros [= <-]; eauto]. cbn [bind]. apply Hk.
Qed.

(** A pass that goes on to the next request has just appended a user
    entry (the tool result). *)
Lemma inner_body_continue (s : Session) (st st' : @State E) :
  inner_body host s st = (Ret Continue, st') ->
  exists h c, history st' = (h ++ [mkMessage "user" c])%list.
Proof.
  unfold inner_body, tryM.
  destruct ((bindM get_history _) st) as [[f|e] st1] eqn:B.
  - intros [= -> ->]. revert B.
    unfold bindM at 1 2, get_history, emit.
    unfold exchange, bindM, on_env, on_world, set_response, lift,
      history_append. simpl.
    destruct (requests_post host _ _ _ _) as [[r|x] e2]; [|discriminate].
    simpl.
    destruct (raise_for_status r); [|discriminate].
    destruct (response_json r) as [body|x]; [|discriminate].
    destruct (extract_reply s body) as [reply|x]; [|discriminate].
    match goal with
    | |- dispatch host reply ?st0 = _ -> _ =>
        pose proof (dispatch_shape host reply st0) as Hd;
        destruct (dispatch host reply st0) as [r0 st2]
    end.
    intros [= -> ->]. simpl in Hd.
    destruct Hd as [[_ [c Hc]]|[Hn _]]; [|congruence]. eauto.
  - destruct (find_clause e outer_clauses) as [handler|] eqn:F;
      [|discriminate].
    intros H. destruct (outer_clause_shape e handler st1 F) as [Hn _].
    rewrite H in Hn. now elim Hn.
Qed.

Lemma step_send_last_user (s : Session) (st : @State E) :
  ctl (step host s st) = SendToModel ->
  (ctl st = SendToModel ->
   exists h c, history st = (h ++ [mkMessage "user" c])%list) ->
  exists h c, history (step host s st) = (h ++ [mkMessage "user" c])%list.
Proof.
  unfold step. destruct (ctl st) eqn:Hc.
  - unfold on_env, on_world.
    destruct (console_input host (env (world st))) as [[line|e] e2];
      [|discriminate].
    destruct (is_exit line); [discriminate|].
    destruct (String.eqb line ""); [simpl; congruence|].
    intros _ _. simpl. eauto.
  - destruct (inner_body host s st) as [[[|]|e] st'] eqn:B;
      try discriminate.
    intros _ _. eapply inner_body_continue; eassumption.
  - congruence.
  - congruence.
Qed.

End MoreLoop.

(** ** Where the requests go *)

Section Posts.

Context {E : Type}.
Variable host : Host E.
Variable P : effect -> Prop.

Lemma logs_only_refl (st : @State E) : logs_only P st st.
Proof. exists []. split; [now rewrite app_nil_r|constructor]. Qed.

Lemma logs_only_trans (a b c : @State E) :
  logs_only P a b -> logs_only P b c -> logs_only P a c.
Proof.
  intros (x & Hx & Fx) (y & Hy & Fy). exists (x ++ y)%list.
  split; [now rewrite Hy, Hx, app_assoc|]. apply Forall_app. auto.
Qed.

Lemma logs_only_same (a b : @State E) : log b = log a -> logs_only P a b.
Proof. intros H. exists []. split; [now rewrite app_nil_r|constructor]. Qed.

Lemma logs_emit (x : effect) : P x -> respects (@logs_only E P) (emit x).
Proof. intros Hx st. exists [x]. split; [reflexivity|]. now constructor. Qed.

Lemma logs_on_world {A} (f : World E -> res A * World E) :
  respects (@logs_only E P) (on_world f).
Proof.
  intros st. unfold on_world. destruct (f (world st)).
  now apply logs_only_same.
Qed.

Lemma logs_bind {A B} (m : M A) (k : A -> M B) :
  respects (@logs_only E P) m -> (forall a, respects (@logs_only E P) (k a)) ->
  respects (@logs_only E P) (bindM m k).
Proof. apply respects_bind. exact logs_only_trans. Qed.

Lemma logs_ret {A} (a : A) : respects (@logs_only E P) (@ret (@State E) A a).
Proof. intros st. apply logs_only_refl. Qed.

Lemma logs_lift {A} (r : res A) :
  respects (@logs_only E P) (@lift (@State E) A r).
Proof. intros st. apply logs_only_refl. Qed.

Hypothesis P_print : forall x, (forall u h d, x <> Post u h d) -> P x.

Ltac logs_step :=
  first
    [ apply respects_if
    | apply logs_bind; [|intros ?]
    | apply logs_ret
    | apply logs_lift
    | apply logs_on_world
    | apply logs_emit; apply P_print; discriminate
    | (intros ?; apply logs_only_refl) ].

Lemma logs_run_tool (tool_name args : json) :
  respects (@logs_only E P) (run_tool host tool_name args).
Proof. unfold run_tool, read_world. repeat logs_step. Qed.

Lemma logs_plain_answer (reply : json) :
  respects (@logs_only E P) (@plain_answer E reply).
Proof. unfold plain_answer. repeat logs_step. Qed.

Lemma logs_perform (action : json) :
  respects (@logs_only E P) (perform host action).
Proof.
  unfold perform.
  apply logs_bind; [apply logs_lift|intros tool_name].
  apply logs_bind; [apply logs_lift|intros args].
  apply logs_bind; [apply logs_lift|intros items].
  apply logs_bind; [apply logs_emit; apply P_print; discriminate|intros _].
  apply logs_bind; [apply logs_run_tool|intros [tool_result|]].
  - apply logs_bind; [|intros _].
    { unfold show_result. destruct (contains _ tool_result);
        apply logs_emit; apply P_print; discriminate. }
    apply logs_bind; [|intros _; apply logs_ret].
    intros st. now apply logs_only_same.
  - apply logs_ret.
Qed.

Lemma logs_dispatch (reply : json) :
  respects (@logs_only E P) (dispatch host reply).
Proof.
  unfold dispatch.
  apply logs_bind; [apply logs_lift|intros [[text m]|]].
  - apply respects_try; [exact logs_only_trans| |].
    + apply logs_bind; [apply logs_lift|intros action].
      apply logs_perform.
    + constructor; [|constructor]. intros x. apply logs_plain_answer.
  - apply logs_plain_answer.
Qed.

Lemma logs_outer_clauses :
  Forall (fun cl : list exn_class * (exn -> M flow) =>
            forall e, respects (@logs_only E P) (snd cl e)) (@outer_clauses E).
Proof.
  repeat constructor; intros e; simpl.
  - unfold request_failed. repeat logs_step.
  - unfold reply_malformed. apply logs_bind; [|intros r].
    { intros st. unfold get_response. destruct (response st);
        apply logs_only_refl. }
    repeat logs_step.
Qed.

Lemma logs_inner_body (s : Session) :
  P (Post (py_str host (chat_url s)) (request_headers host s) JNull) ->
  (forall u h d d', P (Post u h d) -> P (Post u h d')) ->
  respects (@logs_only E P) (inner_body host s).
Proof.
  intros Hp Hd. unfold inner_body.
  apply respects_try; [exact logs_only_trans| |exact logs_outer_clauses].
  apply logs_bind; [intros st; apply logs_only_refl|intros h].
  apply logs_bind; [|intros _].
  { apply logs_emit. eapply Hd. exact Hp. }
  unfold exchange.
  apply logs_bind; [apply logs_on_world|intros r].
  apply logs_bind; [intros st; now apply logs_only_same|intros _].
  apply logs_bind; [apply logs_lift|intros _].
  apply logs_bind; [apply logs_lift|intros body].
  apply logs_bind; [apply logs_lift|intros reply].
  apply logs_bind; [intros st; now apply logs_only_same|intros _].
  apply logs_dispatch.
Qed.

Lemma logs_step_loop (s : Session) (st : @State E) :
  P (Post (py_str host (chat_url s)) (request_headers host s) JNull) ->
  (forall u h d d', P (Post u h d) -> P (Post u h d')) ->
  logs_only P st (step host s st).
Proof.
  intros Hp Hd. unfold step. destruct (ctl st).
  - pose proof (logs_on_world
                  (fun w => let '(r, e') := console_input host (env w) in
                            (r, mkWorld (files w) e')) st) as Hin.
    change (on_world _ st) with (on_env (console_input host) st) in Hin.
    destruct (on_env (console_input host) st) as [[line|e] st'];
      simpl in Hin; [|exact Hin].
    destruct (is_exit line); [exact Hin|].
    destruct (String.eqb line ""); exact Hin.
  - pose proof (logs_inner_body s Hp Hd st) as Hs.
    destruct (inner_body host s st) as [[[|]|e] st']; exact Hs.
  - apply logs_only_refl.
  - apply logs_only_refl.
Qed.

Lemma logs_run (n : nat) (s : Session) (st : @State E) :
  P (Post (py_str host (chat_url s)) (request_headers host s) JNull) ->
  (forall u h d d', P (Post u h d) -> P (Post u h d')) ->
  logs_only P st (run host n s st).
Proof.
  intros Hp Hd. induction n as [|n IH]; [apply logs_only_refl|].
  rewrite run_S. eapply logs_only_trans; [exact IH|].
  now apply logs_step_loop.
Qed.

End Posts.

(* ------------------------------------------------------------------ *)
(** ** The commands of the command line *)

Section CliProofs.

Context {E : Type}.
Variable host : Host E.
Variable plat : Platform E.

Lemma untouched_refl (c : @Cli E) : untouched c c.
Proof. repeat split. Qed.

Lemma untouched_trans (a b c : @Cli E) :
  untouched a b -> untouched b c -> untouched a c.
Proof.
  intros (H1 & H2 & H3) (K1 & K2 & K3). repeat split; congruence.
Qed.

Lemma only_says_ret {A} (a : A) : only_says (E := E) (ret a).
Proof. intros c. apply untouched_refl. Qed.

Lemma only_says_lift {A} (r : res A) : only_says (E := E) (lift r).
Proof. intros c. apply untouched_refl. Qed.

Lemma only_says_say (x : output) : only_says (E := E) (say x).
Proof. intros c. repeat split. Qed.

Lemma only_says_print (text : string) : only_says (E := E) (print text).
Proof. apply only_says_say. Qed.

Lemma only_says_get_config : only_says (E := E) get_config.
Proof. intros c. apply untouched_refl. Qed.

Lemma only_says_bind {A B} (m : SE (@Cli E) A) (k : A -> SE (@Cli E) B) :
  only_says m -> (forall a, only_says (k a)) -> only_says (bindM m k).
Proof.
  intros Hm Hk c. unfold bindM. specialize (Hm c).
  destruct (m c) as [[a|e] c1]; simpl in *.
  - eapply untouched_trans; [exact Hm|apply Hk].
  - exact Hm.
Qed.

Lemma settings_show_only_says : only_says (settings_show host plat).
Proof.
  unfold settings_show.
  repeat (apply only_says_bind;
          [first [apply only_says_get_config|apply only_says_lift]|intros ?]).
  apply only_says_say.
Qed.

Lemma provider_listed_state (name : string) (c : @Cli E) :
  snd (provider_listed name c) = c.
Proof.
  unfold provider_listed, bindM, get_config, lift.
  destruct (py_getitem (cli_config c) "providers"); reflexivity.
Qed.

(** What [save_config] does to the files. *)
Lemma save_config_files (config : json) (w : World E) :
  same_files_but (CONFIG_FILE host) w (snd (save_config host plat config w))
  /\ (fst (save_config host plat config w) = Ret tt ->
      files (snd (save_config host plat config w)) (CONFIG_FILE host)
      = Some (fst (json_dump (float_repr plat) config))
      /\ snd (json_dump (float_repr plat) config) = None).
Proof.
  unfold save_config, bindM, makedirs, ret, lift, open_write, as_path,
    file_write, same_files_but.
  destruct (json_dump (float_repr plat) config) as [text failure].
  assert (Hset : forall (w1 : World E) p c,
            files w1 = files w -> p <> CONFIG_FILE host ->
            files (set_file w1 (CONFIG_FILE host) c) p = files w p).
  { intros w1 p c Hw Hp. unfold set_file. simpl.
    apply String.eqb_neq in Hp. rewrite Hp. now rewrite Hw. }
  destruct (path_exists host w (CONFIG_DIR plat)).
  - destruct (os_refuses host (env w) (OpOpenWrite (CONFIG_FILE host)));
      simpl; [split; [reflexivity|discriminate]|].
    destruct (os_refuses host _ (OpWrite (CONFIG_FILE host) text)); simpl.
    + split; [|discriminate]. intros p Hp. now apply Hset.
    + destruct failure; simpl.
      * split; [|discriminate]. intros p Hp.
        apply String.eqb_neq in Hp. rewrite !Hp. reflexivity.
      * split.
        -- intros p Hp. apply String.eqb_neq in Hp. rewrite !Hp.
           reflexivity.
        -- intros _. rewrite String.eqb_refl. auto.
  - destruct (os_makedirs plat (env w) (CONFIG_DIR plat)) as [[[]|e] e'];
      simpl; [|split; [reflexivity|discriminate]].
    destruct (os_refuses host e' (OpOpenWrite (CONFIG_FILE host)));
      simpl; [split; [reflexivity|discriminate]|].
    destruct (os_refuses host _ (OpWrite (CONFIG_FILE host) text)); simpl.
    + split; [|discriminate]. intros p Hp.
      apply String.eqb_neq in Hp. rewrite Hp. reflexivity.
    + destruct failure; simpl.
      * split; [|discriminate]. intros p Hp.
        apply String.eqb_neq in Hp. rewrite !Hp. reflexivity.
      * split.
        -- intros p Hp. apply String.eqb_neq in Hp. rewrite !Hp.
           reflexivity.
        -- intros _. rewrite String.eqb_refl. auto.
Qed.

(** An accepted [set provider], run. *)
Lemma set_provider_accepted (c : @Cli E) (fields : list (string * json))
    (providers : json) (p : string) :
  cli_config c = JObj fields ->
  assoc_get "providers" fields = Some providers ->
  py_in p providers = Ret true ->
  set_provider host plat p c
  = match save_config host plat
            (JObj (assoc_set "default_provider" (JStr p) fields))
            (cli_world c) with
    | (Ret _, w') =>
        (Ret tt,
         mkCli (JObj (assoc_set "default_provider" (JStr p) fields))
           (cli_models c) w'
           (cli_out c
            ++ [Out (Print
                       ("[bold #ffb6c1]✓ Провайдер по умолчанию установлен на '"
                        ++ p ++ "'.[/bold #ffb6c1]"))])%list)
    | (Raise e, w') =>
        (Raise e,
         mkCli (JObj (assoc_set "default_provider" (JStr p) fields))
           (cli_models c) w' (cli_out c))
    end.
Proof.
  destruct c as [config models w out]. cbn [cli_config cli_models cli_world
                                             cli_out].
  intros -> Hp Hin.
  unfold set_provider, provider_listed, bindM, get_config, lift, set_config,
    in_world, print, say.
  cbn [cli_config cli_models cli_world cli_out py_getitem].
  rewrite Hp, Hin. cbn beta iota delta [py_setitem cli_config cli_models
                                          cli_world cli_out].
  destruct (save_config host plat _ w) as [[[]|e] w']; reflexivity.
Qed.

(** [store_field] on a well-shaped configuration. *)
Lemma store_field_accepted (c : @Cli E) (fields ps entry : list (string * json))
    (p field value : string) :
  cli_config c = JObj fields ->
  assoc_get "providers" fields = Some (JObj ps) ->
  assoc_get p ps = Some (JObj entry) ->
  store_field host plat p field value c
  = (fst (save_config host plat (with_field fields ps entry p field value)
            (cli_world c)),
     mkCli (with_field fields ps entry p field value) (cli_models c)
       (snd (save_config host plat
               (with_field fields ps entry p field value) (cli_world c)))
       (cli_out c)).
Proof.
  destruct c as [config models w out].
  cbn [cli_config cli_models cli_world cli_out].
  intros -> Hp He.
  unfold store_field, bindM, get_config, lift, set_config, in_world.
  cbn beta iota delta [cli_config cli_models cli_world cli_out py_getitem].
  rewrite Hp. cbn beta iota delta [py_getitem]. rewrite He.
  cbn beta iota delta [py_setitem cli_config cli_models cli_world cli_out].
  fold (with_field fields ps entry p field value).
  destruct (save_config host plat _ w) as [r w']. reflexivity.
Qed.

Lemma provider_listed_dict (c : @Cli E) (fields ps : list (string * json))
    (p : string) :
  cli_config c = JObj fields ->
  assoc_get "providers" fields = Some (JObj ps) ->
  provider_listed p c = (Ret (assoc_mem p ps), c).
Proof.
  intros Hc Hp. unfold provider_listed, bindM, get_config, lift.
  rewrite Hc. unfold py_getitem. rewrite Hp. reflexivity.
Qed.

Lemma stored_facts (c : @Cli E) (config' : json) (shown : list output) :
  cli_config (snd (stored host plat c config' shown)) = config'
  /\ cli_models (snd (stored host plat c config' shown)) = cli_models c
  /\ cli_world (snd (stored host plat c config' shown))
     = snd (save_config host plat config' (cli_world c))
  /\ (fst (stored host plat c config' shown) = Ret tt
      <-> fst (save_config host plat config' (cli_world c)) = Ret tt).
Proof.
  unfold stored.
  destruct (save_config host plat config' (cli_world c)) as [[[]|e] w'];
    cbn [fst snd cli_config cli_models cli_world]; repeat split; auto.
Qed.

Lemma set_api_key_accepted (c : @Cli E)
    (fields ps entry : list (string * json)) (p value : string) :
  cli_config c = JObj fields ->
  assoc_get "providers" fields = Some (JObj ps) ->
  assoc_get p ps = Some (JObj entry) ->
  set_api_key host plat p value c
  = stored host plat c (with_field fields ps entry p "api_key" value)
      [Out (Print ("[bold #ffb6c1]✓ API ключ для '" ++ p
                   ++ "' сохранен.[/bold #ffb6c1]"))].
Proof.
  intros Hc Hp He. unfold set_api_key, stored, bindM at 1.
  rewrite (provider_listed_dict c fields ps _ Hc Hp).
  unfold assoc_mem. rewrite He. unfold bindM.
  rewrite (store_field_accepted c fields ps entry _ _ _ Hc Hp He).
  destruct (save_config host plat _ (cli_world c)) as [[[]|e] w'];
    reflexivity.
Qed.

Lemma set_model_accepted (c : @Cli E)
    (fields ps entry : list (string * json)) (p value : string) :
  cli_config c = JObj fields ->
  assoc_get "providers" fields = Some (JObj ps) ->
  assoc_get p ps = Some (JObj entry) ->
  set_model host plat p value c
  = stored host plat c (with_field fields ps entry p "model" value)
      [Out (Print ("[bold #ffb6c1]✓ Модель по умолчанию для '" ++ p
                   ++ "' установлена на '" ++ value
                   ++ "'.[/bold #ffb6c1]"))].
Proof.
  intros Hc Hp He. unfold set_model, stored, bindM at 1.
  rewrite (provider_listed_dict c fields ps _ Hc Hp).
  unfold assoc_mem. rewrite He. unfold bindM.
  rewrite (store_field_accepted c fields ps entry _ _ _ Hc Hp He).
  destruct (save_config host plat _ (cli_world c)) as [[[]|e] w'];
    reflexivity.
Qed.

End CliProofs.

(* ------------------------------------------------------------------ *)
(** ** Lines, words and the loop of [main] *)

Lemma space_width_app (s q : string) (k : nat) :
  space_width s = S k -> space_width (s ++ q) = S k.
Proof.
  destruct s as [|a [|b [|c s]]]; cbn [space_width append]; try discriminate.
  - destruct (byte_in 9 13 a || byte_in 28 32 a); [|discriminate].
    intros H. destruct q; exact H.
  - destruct (byte_in 9 13 a || byte_in 28 32 a); [auto|].
    destruct (byte_in 194 194 a); [auto|discriminate].
  - auto.
Qed.

Lemma space_width_length (s : string) (k : nat) :
  space_width s = S k -> S k <= String.length s.
Proof.
  destruct s as [|a [|b [|c s]]]; cbn [space_width String.length];
    try discriminate.
  - destruct (byte_in 9 13 a || byte_in 28 32 a); [|discriminate].
    intros [= <-]. lia.
  - destruct (byte_in 9 13 a || byte_in 28 32 a); [intros [= <-]; lia|].
    destruct (byte_in 194 194 a); [|discriminate].
    destruct (byte_in 133 133 b || byte_in 160 160 b); [|discriminate].
    intros [= <-]. lia.
  - destruct (byte_in 9 13 a || byte_in 28 32 a); [intros [= <-]; lia|].
    destruct (byte_in 194 194 a).
    + destruct (byte_in 133 133 b || byte_in 160 160 b); [|discriminate].
      intros [= <-]. lia.
    + repeat match goal with
             | |- (if ?b then _ else _) = _ -> _ => destruct b
             end; try discriminate; intros [= <-]; lia.
Qed.

Lemma flush_nil (word : string) : flush word = [] -> word = "".
Proof.
  unfold flush. destruct (String.eqb word "") eqn:H; [|discriminate].
  intros _. now apply String.eqb_eq.
Qed.

(** Splitting does not see the whitespace in front. *)
Lemma split_lstrip (s : string) (k : nat) :
  split_from k "" s = split_from 0 "" (lstrip_from k s).
Proof.
  revert k. induction s as [|c r IH]; intros k; [destruct k; reflexivity|].
  destruct k as [|k]; cbn [split_from lstrip_from].
  - destruct (space_width (String c r)) eqn:W.
    + cbn [split_from]. now rewrite W.
    + cbn [flush String.eqb app]. apply IH.
  - apply IH.
Qed.

Lemma split_from_word (s w : string) (i : nat) :
  w <> "" -> split_from i w s <> [].
Proof.
  revert w i. induction s as [|a s IH]; intros w i Hw.
  - cbn. unfold flush. destruct (String.eqb w "") eqn:K.
    + apply String.eqb_eq in K. contradiction.
    + discriminate.
  - cbn [split_from]. destruct i.
    + destruct (space_width (String a s)).
      * apply IH. destruct w; discriminate.
      * unfold flush. destruct (String.eqb w "") eqn:K.
        -- apply String.eqb_eq in K. contradiction.
        -- discriminate.
    + now apply IH.
Qed.

(** Whitespace in front of a text does not change its words. *)
Lemma split_blank_prefix (p q : string) (k : nat) :
  k <= String.length p ->
  split_from k "" p = [] ->
  split_from k "" (p ++ q) = split_from 0 "" q.
Proof.
  revert k. induction p as [|c r IH]; intros k Hk Hb.
  - cbn [String.length] in Hk. assert (k = 0) by lia. subst. reflexivity.
  - destruct k as [|k]; cbn [split_from append] in *.
    + destruct (space_width (String c r)) eqn:W.
      * exfalso. apply (split_from_word r ("" ++ str1 c) 0); [|exact Hb].
        discriminate.
      * change (String c (r ++ q)) with (String c r ++ q)%string.
        rewrite (space_width_app _ q _ W).
        cbn [flush String.eqb app] in *.
        apply IH; [|exact Hb].
        apply space_width_length in W. cbn [String.length] in W. lia.
    + apply IH; [cbn [String.length] in Hk; lia|exact Hb].
Qed.

Lemma rstrip_split (s : string) :
  exists q, s = (rstrip s ++ q)%string /\ is_blank q = true.
Proof.
  induction s as [|c r (q & Hq & Hb)].
  - exists "". split; reflexivity.
  - cbn [rstrip]. destruct (is_blank (String c r)) eqn:B.
    + exists (String c r). split; [reflexivity|exact B].
    + exists q. split; [|exact Hb]. cbn [append]. now rewrite <- Hq.
Qed.

Lemma is_blank_split (s : string) : is_blank s = true <-> py_split s = [].
Proof.
  unfold is_blank. destruct (py_split s); split; congruence.
Qed.

(** A text that is not blank keeps a word when stripped on the right. *)
Lemma rstrip_not_blank (s : string) :
  is_blank s = false -> is_blank (rstrip s) = false.
Proof.
  intros Hs. destruct (is_blank (rstrip s)) eqn:B; [|reflexivity].
  destruct (rstrip_split s) as (q & Hq & Hb).
  apply is_blank_split in B. apply is_blank_split in Hb.
  assert (py_split s = []).
  { rewrite Hq. unfold py_split.
    rewrite split_blank_prefix; [exact Hb|lia|exact B]. }
  apply is_blank_split in H. congruence.
Qed.

Lemma rstrip_blank (s : string) : is_blank s = true -> rstrip s = "".
Proof. destruct s; [reflexivity|]. cbn [rstrip]. now intros ->. Qed.

Lemma is_blank_lstrip (s : string) :
  is_blank (lstrip_from 0 s) = is_blank s.
Proof. unfold is_blank, py_split. now rewrite <- split_lstrip. Qed.

(** [strip] gives the empty text exactly for a blank line. *)
Lemma strip_empty (line : string) :
  py_strip line = "" <-> is_blank line = true.
Proof.
  unfold py_strip. rewrite <- (is_blank_lstrip line).
  split.
  - intros H. destruct (is_blank (lstrip_from 0 line)) eqn:B; [reflexivity|].
    apply rstrip_not_blank in B. rewrite H in B. discriminate.
  - apply rstrip_blank.
Qed.

(** A line that is not blank has a first word after [strip] and [split]. *)
Lemma stripped_words (line : string) :
  is_blank line = false ->
  exists word args, py_split (py_strip line) = word :: args.
Proof.
  intros B. rewrite <- is_blank_lstrip in B. apply rstrip_not_blank in B.
  unfold py_strip, is_blank in *.
  destruct (py_split (rstrip (lstrip_from 0 line))) as [|word args];
    [discriminate|eauto].
Qed.

Section MainProofs.

Context {E : Type}.
Variable host : Host E.
Variable plat : Platform E.

Section Keeping.

Variable R : @Cli E -> @Cli E -> Prop.
Hypothesis R_refl : forall c, R c c.
Hypothesis R_trans : forall a b c, R a b -> R b c -> R a c.
Hypothesis R_out :
  forall c out,
    R c (mkCli (cli_config c) (cli_models c) (cli_world c) out).

Lemma keeps_ret {A} (a : A) : keeps R (ret a).
Proof. intros c. apply R_refl. Qed.

Lemma keeps_lift {A} (r : res A) : keeps R (lift r).
Proof. intros c. apply R_refl. Qed.

Lemma keeps_get_config : keeps R get_config.
Proof. intros c. apply R_refl. Qed.

Lemma keeps_say (x : output) : keeps R (say x).
Proof. intros c. apply R_out. Qed.

Lemma keeps_print (text : string) : keeps R (print text).
Proof. apply keeps_say. Qed.

Lemma keeps_bind {A B} (m : SE (@Cli E) A) (k : A -> SE (@Cli E) B) :
  keeps R m -> (forall a, keeps R (k a)) -> keeps R (bindM m k).
Proof.
  intros Hm Hk c. unfold bindM. specialize (Hm c).
  destruct (m c) as [[a|e] c1]; cbn [snd] in *.
  - eapply R_trans; [exact Hm|apply Hk].
  - exact Hm.
Qed.

Lemma keeps_say_all (xs : list effect) : keeps R (say_all xs).
Proof.
  induction xs as [|x xs IH]; [apply keeps_ret|].
  cbn [say_all]. apply keeps_bind; [apply keeps_say|intros _; exact IH].
Qed.

Lemma keeps_chat_command (args : list string) :
  keeps R (chat_command host args).
Proof.
  unfold chat_command.
  apply keeps_bind; [apply keeps_get_config|intros config].
  do 4 (apply keeps_bind; [apply keeps_lift|intros ?]).
  destruct (negb (py_truthy host a2) || is_str "default-model" a2).
  - apply keeps_bind; [apply keeps_print|intros _; apply keeps_ret].
  - apply keeps_bind; [apply keeps_lift|intros setup].
    destruct (snd setup).
    + apply keeps_ret.
    + apply keeps_bind; [apply keeps_say_all|intros _; apply keeps_ret].
Qed.

Lemma keeps_settings_show : keeps R (settings_show host plat).
Proof.
  unfold settings_show.
  repeat (apply keeps_bind;
          [first [apply keeps_get_config|apply keeps_lift]|intros ?]).
  apply keeps_say.
Qed.

End Keeping.

Ltac keep_step lemmas :=
  first [apply keeps_ret; lemmas | apply keeps_lift; lemmas
        | apply keeps_get_config; lemmas | apply keeps_say; lemmas
        | apply keeps_print; lemmas].

Lemma settled_refl (c : @Cli E) : settled c c.
Proof. repeat split. Qed.

Lemma settled_trans (a b c : @Cli E) :
  settled a b -> settled b c -> settled a c.
Proof. intros (A1 & A2 & A3) (B1 & B2 & B3). repeat split; congruence. Qed.

Lemma settled_out (c : @Cli E) (out : list output) :
  settled c (mkCli (cli_config c) (cli_models c) (cli_world c) out).
Proof. repeat split. Qed.

Lemma same_models_refl (c : @Cli E) : same_models c c.
Proof. reflexivity. Qed.

Lemma same_models_trans (a b c : @Cli E) :
  same_models a b -> same_models b c -> same_models a c.
Proof. unfold same_models. congruence. Qed.

Lemma same_models_out (c : @Cli E) (out : list output) :
  same_models c (mkCli (cli_config c) (cli_models c) (cli_world c) out).
Proof. reflexivity. Qed.

Lemma same_stored_refl (c : @Cli E) : same_stored c c.
Proof. split; reflexivity. Qed.

Lemma same_stored_trans (a b c : @Cli E) :
  same_stored a b -> same_stored b c -> same_stored a c.
Proof. intros (A1 & A2) (B1 & B2). split; congruence. Qed.

Lemma same_stored_out (c : @Cli E) (out : list output) :
  same_stored c (mkCli (cli_config c) (cli_models c) (cli_world c) out).
Proof. split; reflexivity. Qed.

Lemma untouched_out (c : @Cli E) (out : list output) :
  untouched c (mkCli (cli_config c) (cli_models c) (cli_world c) out).
Proof. repeat split. Qed.

Lemma settled_stored (c c' : @Cli E) : settled c c' -> same_stored c c'.
Proof. intros (A1 & A2 & A3). split; assumption. Qed.

Lemma settled_models (c c' : @Cli E) : settled c c' -> same_models c c'.
Proof. intros (A1 & A2 & A3). assumption. Qed.

Lemma untouched_settled (c c' : @Cli E) : untouched c c' -> settled c c'.
Proof. intros (A1 & A2 & A3). repeat split; congruence. Qed.

(** An oracle of the environment leaves the configuration, the models and
    the files alone. *)
Lemma in_world_env_settled {A} (f : E -> res A * E) :
  keeps settled
    (in_world (fun w => let '(r, e') := f (env w) in
                        (r, mkWorld (files w) e'))).
Proof.
  intros c. unfold in_world.
  destruct (f (env (cli_world c))) as [r e']. repeat split.
Qed.

Lemma keeps_http_get (url : string) (headers : json) :
  keeps settled (http_get plat url headers).
Proof.
  unfold http_get.
  apply (keeps_bind settled settled_trans);
    [apply (keeps_say settled settled_out)|intros _].
  apply (in_world_env_settled
           (fun e => requests_get plat e url headers)).
Qed.

Lemma keeps_list_models (provider : json) (response : Response) :
  keeps settled (list_models host plat provider response).
Proof.
  unfold list_models.
  do 4 (apply (keeps_bind settled settled_trans);
        [apply (keeps_lift settled settled_refl)|intros ?]).
  apply (keeps_bind settled settled_trans);
    [apply (keeps_say settled settled_out)|intros _].
  apply (keeps_ret settled settled_refl).
Qed.

Lemma keeps_models_failed (response : option Response) (e : exn) :
  keeps (E := E) settled (models_failed response e).
Proof.
  unfold models_failed, models_clauses. cbn [find_clause].
  destruct (caught_by [RequestException] e).
  - apply (keeps_bind settled settled_trans);
      [apply (keeps_print settled settled_out)|intros _].
    apply (keeps_ret settled settled_refl).
  - destruct (caught_by [JSONDecodeError] e).
    + apply (keeps_bind settled settled_trans);
        [apply (keeps_lift settled settled_refl)|intros r].
      apply (keeps_bind settled settled_trans);
        [apply (keeps_print settled settled_out)|intros _].
      apply (keeps_ret settled settled_refl).
    + apply (keeps_lift settled settled_refl).
Qed.

Lemma keeps_fetch_models (provider : json) (url : string) (headers : json) :
  keeps settled (fetch_models host plat provider url headers).
Proof.
  intros c. unfold fetch_models.
  pose proof (keeps_http_get url headers c) as H1.
  destruct (http_get plat url headers c) as [[response|e] c1]; cbn [snd] in H1.
  - pose proof (keeps_list_models provider response c1) as H2.
    destruct (list_models host plat provider response c1) as [[names|e] c2];
      cbn [snd] in *.
    + eapply settled_trans; eassumption.
    + eapply settled_trans; [exact H1|].
      eapply settled_trans; [exact H2|apply keeps_models_failed].
  - eapply settled_trans; [exact H1|apply keeps_models_failed].
Qed.

(** [get_available_models] changes neither the configuration nor the list
    of models nor a file. *)
Lemma keeps_get_available_models :
  keeps settled (get_available_models host plat).
Proof.
  unfold get_available_models.
  apply (keeps_bind settled settled_trans);
    [apply (keeps_get_config settled settled_refl)|intros config].
  do 6 (apply (keeps_bind settled settled_trans);
        [apply (keeps_lift settled settled_refl)|intros ?]).
  destruct (negb (py_truthy host a4)).
  - apply (keeps_bind settled settled_trans);
      [apply (keeps_print settled settled_out)|intros _].
    apply (keeps_ret settled settled_refl).
  - apply keeps_fetch_models.
Qed.

End MainProofs.

Section MainSteps.

Context {E : Type}.
Variable host : Host E.
Variable plat : Platform E.

Lemma keeps_provider_listed (R : @Cli E -> @Cli E -> Prop)
    (R_refl : forall c, R c c) (name : string) :
  keeps R (provider_listed name).
Proof. intros c. rewrite provider_listed_state. apply R_refl. Qed.

Lemma keeps_in_world_models {A} (m : SE (World E) A) :
  keeps same_models (in_world m).
Proof.
  intros c. unfold in_world. destruct (m (cli_world c)). reflexivity.
Qed.

Lemma keeps_set_config (config : json) :
  keeps (E := E) same_models (set_config config).
Proof. intros c. reflexivity. Qed.

Lemma keeps_store_field (name field value : string) :
  keeps same_models (store_field host plat name field value).
Proof.
  unfold store_field.
  apply (keeps_bind _ same_models_trans);
    [apply (keeps_get_config _ same_models_refl)|intros config].
  do 5 (apply (keeps_bind _ same_models_trans);
        [apply (keeps_lift _ same_models_refl)|intros ?]).
  apply (keeps_bind _ same_models_trans);
    [apply keeps_set_config|intros _].
  apply keeps_in_world_models.
Qed.

(** [handle_settings] never touches the list of models. *)
Lemma keeps_handle_settings (args : list string) :
  keeps same_models (handle_settings host plat args).
Proof.
  assert (Hshow := keeps_settings_show host plat same_models
                     same_models_refl same_models_trans same_models_out).
  assert (Hprint := keeps_print (@same_models E) same_models_out).
  assert (Hsay := keeps_say (@same_models E) same_models_out).
  unfold handle_settings.
  destruct args as [|first rest]; [exact Hshow|].
  destruct (String.eqb first "show"); [exact Hshow|].
  destruct (Nat.leb 3 (length (first :: rest)) && String.eqb first "set");
    [|apply Hsay].
  destruct rest as [|setting [|name values]]; try apply Hsay.
  destruct (String.eqb (py_lower plat setting) "provider").
  { unfold set_provider.
    apply (keeps_bind _ same_models_trans);
      [apply (keeps_provider_listed _ same_models_refl)|intros [|]].
    - apply (keeps_bind _ same_models_trans);
        [apply (keeps_get_config _ same_models_refl)|intros config].
      apply (keeps_bind _ same_models_trans);
        [apply (keeps_lift _ same_models_refl)|intros config'].
      apply (keeps_bind _ same_models_trans);
        [apply keeps_set_config|intros _].
      apply (keeps_bind _ same_models_trans);
        [apply keeps_in_world_models|intros _]. apply Hprint.
    - apply (keeps_bind _ same_models_trans);
        [apply (keeps_get_config _ same_models_refl)|intros config].
      do 2 (apply (keeps_bind _ same_models_trans);
            [apply (keeps_lift _ same_models_refl)|intros ?]).
      apply Hprint. }
  destruct (String.eqb (py_lower plat setting) "api_key").
  { destruct values; [apply Hprint|]. unfold set_api_key.
    apply (keeps_bind _ same_models_trans);
      [apply (keeps_provider_listed _ same_models_refl)|intros [|]];
      [|apply Hprint].
    apply (keeps_bind _ same_models_trans);
      [apply keeps_store_field|intros _]. apply Hprint. }
  destruct (String.eqb (py_lower plat setting) "model").
  { destruct values; [apply Hprint|]. unfold set_model.
    apply (keeps_bind _ same_models_trans);
      [apply (keeps_provider_listed _ same_models_refl)|intros [|]];
      [|apply Hprint].
    apply (keeps_bind _ same_models_trans);
      [apply keeps_store_field|intros _]. apply Hprint. }
  apply Hprint.
Qed.

(** A command other than [/settings] leaves the configuration and the
    files alone. *)
Lemma run_command_stored (name : string) (args : list string) :
  name <> "/settings" -> keeps same_stored (run_command host plat name args).
Proof.
  intros Hn. unfold run_command.
  assert (Hprint := keeps_print (@same_stored E) same_stored_out).
  assert (Hret : forall x : next, keeps (E := E) same_stored (ret x))
    by (intros x; apply (keeps_ret _ same_stored_refl)).
  destruct (String.eqb name "/help").
  { apply (keeps_bind _ same_stored_trans); [apply Hprint|intros _; apply Hret]. }
  destruct (String.eqb name "/settings") eqn:K.
  { apply String.eqb_eq in K. contradiction. }
  destruct (String.eqb name "/models").
  { apply (keeps_bind _ same_stored_trans).
    - intros c. apply settled_stored. apply keeps_get_available_models.
    - intros names. apply (keeps_bind _ same_stored_trans);
        [|intros _; apply Hret].
      intros c. split; reflexivity. }
  destruct (String.eqb name "/chat").
  { apply (keeps_chat_command host same_stored same_stored_refl
             same_stored_trans same_stored_out). }
  destruct (String.eqb name "/exit").
  { apply (keeps_bind _ same_stored_trans); [apply Hprint|intros _; apply Hret]. }
  apply (keeps_bind _ same_stored_trans); [apply Hprint|intros _; apply Hret].
Qed.

(** A command other than [/models] leaves the list of models alone. *)
Lemma run_command_models (name : string) (args : list string) :
  name <> "/models" -> keeps same_models (run_command host plat name args).
Proof.
  intros Hn. unfold run_command.
  assert (Hprint := keeps_print (@same_models E) same_models_out).
  assert (Hret : forall x : next, keeps (E := E) same_models (ret x))
    by (intros x; apply (keeps_ret _ same_models_refl)).
  destruct (String.eqb name "/help").
  { apply (keeps_bind _ same_models_trans); [apply Hprint|intros _; apply Hret]. }
  destruct (String.eqb name "/settings").
  { apply (keeps_bind _ same_models_trans);
      [apply keeps_handle_settings|intros _; apply Hret]. }
  destruct (String.eqb name "/models") eqn:K.
  { apply String.eqb_eq in K. contradiction. }
  destruct (String.eqb name "/chat").
  { apply (keeps_chat_command host same_models same_models_refl
             same_models_trans same_models_out). }
  destruct (String.eqb name "/exit").
  { apply (keeps_bind _ same_models_trans); [apply Hprint|intros _; apply Hret]. }
  apply (keeps_bind _ same_models_trans); [apply Hprint|intros _; apply Hret].
Qed.

(** Only [/exit] makes the loop leave. *)
Lemma run_command_leave (name : string) (args : list string) (c : @Cli E) :
  fst (run_command host plat name args c) = Ret Leave -> name = "/exit".
Proof.
  unfold run_command.
  destruct (String.eqb name "/help").
  { unfold bindM, print, say, ret. discriminate. }
  destruct (String.eqb name "/settings").
  { unfold bindM. destruct (handle_settings host plat args c) as [[[]|e] c1];
      discriminate. }
  destruct (String.eqb name "/models").
  { unfold bindM.
    destruct (get_available_models host plat c) as [[names|e] c1];
      discriminate. }
  destruct (String.eqb name "/chat").
  { unfold chat_command, bindM, get_config, lift.
    repeat match goal with
           | |- fst (match ?r with Ret _ => _ | Raise _ => _ end) = _ -> _ =>
               destruct r; [|discriminate]
           end.
    destruct (negb (py_truthy host a2) || is_str "default-model" a2).
    - discriminate.
    - destruct (chat_setup host a2 (cli_config c)) as [[shown [s|]]|e];
        cbn [snd fst]; try discriminate.
      destruct (say_all shown c) as [[[]|e] c1]; discriminate. }
  destruct (String.eqb name "/exit") eqn:K.
  { intros _. now apply String.eqb_eq. }
  discriminate.
Qed.

Lemma command_words (line word : string) (args : list string) :
  py_split (py_strip line) = word :: args ->
  command host plat line = run_command host plat (py_lower plat word) args.
Proof.
  intros Hs. unfold command. rewrite Hs.
  destruct (String.eqb (py_strip line) "") eqn:K; [|reflexivity].
  apply String.eqb_eq in K. rewrite K in Hs. discriminate Hs.
Qed.

Lemma command_blank (line : string) :
  is_blank line = true -> command host plat line = ret Stay.
Proof.
  intros B. apply strip_empty in B. unfold command. now rewrite B.
Qed.

(** The words of a line that is not blank are always there: [parts[0]]
    does not raise. *)
Lemma command_cases (line : string) :
  (is_blank line = true /\ command host plat line = ret Stay)
  \/ (exists word args,
        py_split (py_strip line) = word :: args
        /\ command host plat line
           = run_command host plat (py_lower plat word) args).
Proof.
  destruct (is_blank line) eqn:B.
  - left. split; [reflexivity|now apply command_blank].
  - right. destruct (stripped_words line B) as (word & args & Hs).
    exists word, args. split; [exact Hs|now apply command_words].
Qed.

Lemma console_line_run (c : @Cli E) :
  console_line host c
  = (fst (console_input host (env (cli_world c))),
     after_input c (snd (console_input host (env (cli_world c))))).
Proof.
  unfold console_line, in_world, after_input.
  destruct (console_input host (env (cli_world c))). reflexivity.
Qed.

(** An iteration of the loop of [main] when a line is typed. *)
Lemma main_step_line (m : Main) (line : string) (e' : E) :
  mode_of m = AtPrompt ->
  console_input host (env (cli_world (cli m))) = (Ret line, e') ->
  main_step host plat m
  = match command host plat line (after_input (cli m) e') with
    | (Ret Stay, c) => mkMain AtPrompt c
    | (Ret Leave, c) => mkMain Exited c
    | (Ret (Enter s shown), c) =>
        mkMain (InChat s (initial_state host (cli_world c) shown)) c
    | (Raise e, c) => mkMain AtPrompt (snd (unexpected plat e c))
    end.
Proof.
  intros Hm Hi. unfold main_step. rewrite Hm. unfold bindM.
  rewrite console_line_run, Hi. reflexivity.
Qed.

(** An iteration of the loop of [main] when the terminal is closed. *)
Lemma main_step_no_line (m : Main) (e : exn) (e' : E) :
  mode_of m = AtPrompt ->
  console_input host (env (cli_world (cli m))) = (Raise e, e') ->
  main_step host plat m
  = mkMain AtPrompt (snd (unexpected plat e (after_input (cli m) e'))).
Proof.
  intros Hm Hi. unfold main_step. rewrite Hm. unfold bindM.
  rewrite console_line_run, Hi. reflexivity.
Qed.

(** A [/settings] iteration. *)
Lemma settings_step (m : Main) (line word : string) (args : list string)
    (e' : E) :
  mode_of m = AtPrompt ->
  console_input host (env (cli_world (cli m))) = (Ret line, e') ->
  py_split (py_strip line) = word :: args ->
  py_lower plat word = "/settings" ->
  main_step host plat m
  = match handle_settings host plat args (after_input (cli m) e') with
    | (Ret _, c) => mkMain AtPrompt c
    | (Raise e, c) => mkMain AtPrompt (snd (unexpected plat e c))
    end.
Proof.
  intros Hm Hi Hs Hw. rewrite (main_step_line m line e' Hm Hi).
  rewrite (command_words line _ _ Hs), Hw.
  unfold run_command. cbn [String.eqb Ascii.eqb Bool.eqb]. unfold bindM.
  destruct (handle_settings host plat args (after_input (cli m) e'))
    as [[[]|e] c]; reflexivity.
Qed.

(** A [/chat] iteration. *)
Lemma chat_step (m : Main) (line word : string) (args : list string)
    (e' : E) :
  mode_of m = AtPrompt ->
  console_input host (env (cli_world (cli m))) = (Ret line, e') ->
  py_split (py_strip line) = word :: args ->
  py_lower plat word = "/chat" ->
  main_step host plat m
  = match chat_command host args (after_input (cli m) e') with
    | (Ret Stay, c) => mkMain AtPrompt c
    | (Ret Leave, c) => mkMain Exited c
    | (Ret (Enter s shown), c) =>
        mkMain (InChat s (initial_state host (cli_world c) shown)) c
    | (Raise e, c) => mkMain AtPrompt (snd (unexpected plat e c))
    end.
Proof.
  intros Hm Hi Hs Hw. rewrite (main_step_line m line e' Hm Hi).
  rewrite (command_words line _ _ Hs), Hw. reflexivity.
Qed.

(** An accepted [set api_key], as [handle_settings] runs it. *)
Lemma settings_set_key (c : @Cli E) (setting name value : string)
    (values : list string) (fields ps entry : list (string * json)) :
  py_lower plat setting = "api_key" ->
  cli_config c = JObj fields ->
  assoc_get "providers" fields = Some (JObj ps) ->
  assoc_get (py_lower plat name) ps = Some (JObj entry) ->
  handle_settings host plat ("set" :: setting :: name :: value :: values) c
  = stored host plat c
      (with_field fields ps entry (py_lower plat name) "api_key" value)
      [Out (Print ("[bold #ffb6c1]✓ API ключ для '" ++ py_lower plat name
                   ++ "' сохранен.[/bold #ffb6c1]"))].
Proof.
  intros Hk Hc Hp He. unfold handle_settings.
  cbn [String.eqb Ascii.eqb Bool.eqb length Nat.leb andb].
  rewrite Hk. cbn [String.eqb Ascii.eqb Bool.eqb].
  now apply set_api_key_accepted.
Qed.

Lemma main_run_S (n : nat) (m : Main) :
  main_run host plat (S n) m = main_step host plat (main_run host plat n m).
Proof.
  revert m. induction n as [|n IH]; intros m; [reflexivity|].
  change (main_run host plat (S (S n)) m)
    with (main_run host plat (S n) (main_step host plat m)).
  rewrite IH. reflexivity.
Qed.

End MainSteps.

(** [split] gives no empty word. *)
Lemma split_from_nonempty (s : string) (i : nat) (w0 w : string) :
  In w (split_from i w0 s) -> w <> "".
Proof.
  assert (Hf : forall w0 w, In w (flush w0) -> w <> "").
  { intros v0 v. unfold flush. destruct (String.eqb v0 "") eqn:K; [intros []|].
    intros [<-|[]]. now apply String.eqb_neq. }
  revert i w0. induction s as [|c r IH]; intros i w0; cbn [split_from].
  - apply Hf.
  - destruct i; [|apply IH].
    destruct (space_width (String c r)); [apply IH|].
    intros H. apply in_app_or in H. destruct H as [H|H];
      [now apply (Hf w0)|now apply (IH _ _ H)].
Qed.

Lemma split_nonempty (s w : string) : In w (py_split s) -> w <> "".
Proof. apply split_from_nonempty. Qed.

Section ChatEntry.

Context {E : Type}.
Variable host : Host E.

(** [chat_with_bot] up to its loop, for a known provider with a key. *)
Lemma chat_setup_known (model p key : string)
    (fields ps entry : list (string * json)) :
  assoc_get "default_provider" fields = Some (JStr p) ->
  known_provider (JStr p) ->
  assoc_get "providers" fields = Some (JObj ps) ->
  assoc_get p ps = Some (JObj entry) ->
  assoc_get "api_key" entry = Some (JStr key) ->
  key <> "" ->
  exists url shown,
    chat_endpoint url
    /\ chat_setup host (JStr model) (JObj fields)
       = Ret (shown,
              Some (mkSession (JStr model) (JStr p) (JStr key) (JStr url))).
Proof.
  intros Hd Hk Hp He Ha Hkey. unfold chat_setup.
  cbn [py_get bind]. rewrite Hd, Hp. cbn [py_get bind]. rewrite He.
  cbn [py_get bind]. rewrite Ha. cbn [bind].
  assert (Tk : py_truthy host (JStr key) = true).
  { cbn [py_truthy]. apply String.eqb_neq in Hkey. now rewrite Hkey. }
  destruct Hk as [Hk|[Hk|Hk]]; injection Hk as ->;
    cbn [PROVIDER_URLS py_get assoc_get String.eqb Ascii.eqb Bool.eqb bind];
    rewrite Tk; cbn [py_truthy String.eqb negb];
    eexists _, _; (split; [|reflexivity]).
  - left; reflexivity.
  - right; left; reflexivity.
  - right; right; reflexivity.
Qed.

(** The [/chat] branch with a model named, for a known provider with a
    key. *)
Lemma chat_command_enters (c : @Cli E) (model p key : string)
    (rest : list string) (fields ps entry : list (string * json)) :
  cli_config c = JObj fields ->
  assoc_get "default_provider" fields = Some (JStr p) ->
  known_provider (JStr p) ->
  assoc_get "providers" fields = Some (JObj ps) ->
  assoc_get p ps = Some (JObj entry) ->
  assoc_get "api_key" entry = Some (JStr key) ->
  key <> "" -> model <> "" -> model <> "default-model" ->
  exists url shown,
    chat_endpoint url
    /\ chat_command host (model :: rest) c
       = (Ret (Enter (mkSession (JStr model) (JStr p) (JStr key) (JStr url))
                 shown), c).
Proof.
  intros Hc Hd Hk Hp He Ha Hkey Hm Hdm.
  destruct (chat_setup_known model p key fields ps entry Hd Hk Hp He Ha Hkey)
    as (url & shown & Hu & Hs).
  exists url, shown. split; [exact Hu|].
  unfold chat_command, bindM, get_config, lift. rewrite Hc.
  cbn [py_get]. rewrite Hd, Hp. unfold py_get.
  cbn [py_truthy is_str].
  apply String.eqb_neq in Hm, Hdm. rewrite Hm, Hdm. cbn [negb orb].
  rewrite Hs. reflexivity.
Qed.

End ChatEntry.

(** ** Characters *)

Lemma py_len_app (a b : string) : py_len (a ++ b) = py_len a + py_len b.
Proof.
  induction a as [|c a IH]; [reflexivity|]. cbn [append py_len].
  rewrite IH. lia.
Qed.

Lemma py_len_cp_take (n : nat) (s : string) :
  py_len (cp_take n s) = Nat.min n (py_len s).
Proof.
  revert n. induction s as [|c s IH]; intros n; cbn [cp_take py_len].
  - now rewrite Nat.min_0_r.
  - destruct (is_continuation c) eqn:K.
    + cbn [py_len]. rewrite K, IH. cbn [Nat.add]. reflexivity.
    + destruct n as [|n]; [reflexivity|]. cbn [py_len].
      rewrite K, IH. cbn [Nat.add Nat.min]. reflexivity.
Qed.

Lemma py_len_cp_drop (n : nat) (s : string) :
  py_len (cp_drop n s) = py_len s - n.
Proof.
  revert n. induction s as [|c s IH]; intros n; cbn [cp_drop py_len].
  - reflexivity.
  - destruct (is_continuation c) eqn:K.
    + rewrite IH. lia.
    + destruct n as [|n]; [cbn [py_len]; rewrite K; lia|].
      rewrite IH. lia.
Qed.

(** A masked key has ten characters. *)
Lemma py_len_mask_key (key : string) :
  7 < py_len key -> py_len (mask_key key) = 10.
Proof.
  intros H. unfold mask_key.
  rewrite !py_len_app, py_len_cp_take, py_len_cp_drop.
  change (py_len "...") with 3. lia.
Qed.

Lemma mask_key_not_empty (key : string) : mask_key key <> "".
Proof.
  unfold mask_key. destruct (cp_take 4 key); discriminate.
Qed.

(* ================================================================== *)
(** * Further properties of the code *)

Section ExtraLoop.

Context {E : Type}.
Variable host : Host E.


(** X7.  [list_directory] and [read_file] return a text for every path
    value and never raise: the listing or the fenced content when the
    operating system answers, and otherwise a description that carries the
    message of the error. *)
Theorem X7_readers_return_text (w : World E) (path : json) :
  (exists text,
     agent_list_directory host w path = Ret text
     /\ match os_listdir host w path with
        | Ret entries =>
            text = "Содержимое директории '" ++ py_str host path ++ "':"
                   ++ LF ++ join LF entries
        | Raise e => text = "Ошибка при просмотре директории: " ++ msg e
        end)
  /\ (exists text,
        agent_read_file host w path = Ret text
        /\ match open_read host w path with
           | Ret content =>
               text = "Содержимое файла '" ++ py_str host path ++ "':"
                      ++ LF ++ "```" ++ LF ++ content ++ LF ++ "```"
           | Raise e => text = "Ошибка при чтении файла: " ++ msg e
           end).
Proof.
  split.
  - unfold agent_list_directory. rewrite try_except_Exception.
    destruct (os_listdir host w path); cbn [bind]; eauto.
  - unfold agent_read_file. rewrite try_except_Exception.
    destruct (open_read host w path); cbn [bind]; eauto.
Qed.

(** X8.  Whenever the loop is about to send to the model, the last entry
    of the History is a user entry (the line of the user, or a tool
    result), whatever errors occurred before. *)
Theorem X8_request_ends_with_user (s : Session) (w : World E)
    (shown : list effect) (n : nat) :
  ctl (run host n s (initial_state host w shown)) = SendToModel ->
  exists h c,
    history (run host n s (initial_state host w shown))
    = (h ++ [mkMessage "user" c])%list.
Proof.
  induction n as [|n IH]; [discriminate|].
  rewrite run_S. intros Hc. now apply step_send_last_user.
Qed.



(** X11.  A reply whose action has an "args" value that is not a dict:
    [args.items()] raises an AttributeError that no [except] clause of
    [chat_with_bot] catches, so the exception leaves the function with the
    reply already appended to the History and no tool run. *)
Theorem X11_args_not_dict_leaves (s : Session) (st : @State E)
    (text span : string) (r : Response) (e' : E)
    (action tool_name args : json) :
  ctl st = SendToModel ->
  model_replies host s st (JStr text) r e' ->
  greedy_span text = Some span ->
  json_loads span = Ret action ->
  py_get action (JStr "tool") JNull = Ret tool_name ->
  py_get action (JStr "args") (JObj []) = Ret args ->
  is_dict args = false ->
  step host s st
  = mkState
      (Escaped (mkExn AttributeError
                  ("'" ++ type_name args
                   ++ "' object has no attribute 'items'")))
      (history st ++ [mkMessage "assistant" (JStr text)])%list
      (Some r) (mkWorld (files (world st)) e')
      (log st ++ [the_request host s st])%list.
Proof.
  intros Hc Hm Hs Hd Ht Ha Hn. unfold step. rewrite Hc.
  rewrite (inner_body_received _ _ _ _ _ _ Hm). unfold tryM at 1.
  rewrite (dispatch_decoded _ _ _ _ _ Hs Hd).
  unfold tryM, perform, bindM, lift. rewrite Ht, Ha.
  destruct args; try discriminate Hn; reflexivity.
Qed.

(** X12.  A response whose reply is not a text (a null "content", say):
    the reply is appended to the History as the assistant entry, and the
    search for the action raises a TypeError that leaves
    [chat_with_bot]. *)
Theorem X12_reply_not_text_leaves (s : Session) (st : @State E)
    (reply : json) (r : Response) (e' : E) :
  ctl st = SendToModel ->
  model_replies host s st reply r e' ->
  (forall text, reply <> JStr text) ->
  step host s st
  = mkState
      (Escaped (mkExn TypeError
                  ("expected string or bytes-like object, got '"
                   ++ type_name reply ++ "'")))
      (history st ++ [mkMessage "assistant" reply])%list
      (Some r) (mkWorld (files (world st)) e')
      (log st ++ [the_request host s st])%list.
Proof.
  intros Hc Hm Hn. unfold step. rewrite Hc.
  rewrite (inner_body_received _ _ _ _ _ _ Hm).
  unfold tryM, dispatch, bindM, lift.
  destruct reply; try reflexivity. now elim (Hn s0).
Qed.

Lemma provider_chat_url (p urls u : json) :
  py_get PROVIDER_URLS p (JObj []) = Ret urls ->
  py_get urls (JStr "chat") JNull = Ret u ->
  py_truthy host u = true ->
  exists url, u = JStr url /\ chat_endpoint url /\ known_provider p.
Proof.
  unfold PROVIDER_URLS, py_get at 1.
  destruct p as [| | | |name| |]; simpl;
    try (intros [= <-] [= <-]; discriminate).
  - destruct (String.eqb name "base") eqn:B.
    { apply String.eqb_eq in B; subst. intros [= <-] [= <-] _.
      eexists. split; [reflexivity|]. split; [left; reflexivity|].
      left; reflexivity. }
    destruct (String.eqb name "openrouter") eqn:O.
    { apply String.eqb_eq in O; subst. intros [= <-] [= <-] _.
      eexists. split; [reflexivity|].
      split; [right; left; reflexivity|]. right; left; reflexivity. }
    destruct (String.eqb name "gemini") eqn:G.
    { apply String.eqb_eq in G; subst. intros [= <-] [= <-] _.
      eexists. split; [reflexivity|].
      split; [right; right; reflexivity|]. right; right; reflexivity. }
    intros [= <-] [= <-]. discriminate.
Qed.

(** What a session that [chat_with_bot] sets up holds. *)
Lemma chat_setup_session (model config : json) (shown : list effect)
    (s : Session) :
  chat_setup host model config = Ret (shown, Some s) ->
  exists url,
    chat_url s = JStr url /\ chat_endpoint url
    /\ known_provider (provider s)
    /\ py_truthy host (api_key s) = true
    /\ py_get config (JStr "default_provider") (JStr "base")
       = Ret (provider s).
Proof.
  unfold chat_setup.
  destruct (py_get config (JStr "default_provider") (JStr "base"))
    as [p|x]; [|discriminate]. cbn [bind].
  destruct (py_get config (JStr "providers") (JObj [])) as [ps|x];
    [|discriminate]. cbn [bind].
  destruct (py_get ps p (JObj [])) as [pc|x]; [|discriminate]. cbn [bind].
  destruct (py_get pc (JStr "api_key") JNull) as [key|x]; [|discriminate].
  cbn [bind].
  destruct (py_get PROVIDER_URLS p (JObj [])) as [urls|x] eqn:Hu;
    [|discriminate]. cbn [bind].
  destruct (py_get urls (JStr "chat") JNull) as [u|x] eqn:Hc;
    [|discriminate]. cbn [bind].
  destruct (py_truthy host u) eqn:Tu; [|discriminate]. cbn [negb].
  destruct (py_truthy host key) eqn:Tk; [|discriminate]. cbn [negb].
  intros [= <- <-].
  destruct (provider_chat_url p urls u Hu Hc Tu) as (url & -> & He & Hk).
  exists url. simpl. auto.
Qed.


(** X14.  Every request of a chat session goes to the chat endpoint of
    the default provider, one of the three of [PROVIDER_URLS], and carries
    the stored API key as its bearer token: whatever the user and the
    model say, the loop posts nowhere else and with no other headers. *)
Theorem X14_requests_to_provider_only (model config : json)
    (shown : list effect) (s : Session) (w : World E) (n : nat) :
  chat_setup host model config = Ret (shown, Some s) ->
  exists url made,
    chat_endpoint url
    /\ log (run host n s (initial_state host w shown))
       = (shown ++ made)%list
    /\ Forall (posts_only url
                 (JObj [("Content-Type", JStr "application/json");
                        ("Authorization",
                         JStr ("Bearer " ++ py_str host (api_key s)))]))
         made.
Proof.
  intros Hs.
  destruct (chat_setup_session model config shown s Hs)
    as (url & Hu & He & _ & Hk & _).
  assert (request_headers host s
          = JObj [("Content-Type", JStr "application/json");
                  ("Authorization",
                   JStr ("Bearer " ++ py_str host (api_key s)))]) as Hh.
  { unfold request_headers. rewrite Hk. reflexivity. }
  destruct (logs_run host
              (posts_only url (request_headers host s)) ltac:(
                intros x Hx; destruct x; try exact I; now elim (Hx url0 headers data))
              n s (initial_state host w shown))
    as (made & Hl & Hf).
  - rewrite Hu. simpl. auto.
  - intros u h d d' H. exact H.
  - exists url, made. rewrite <- Hh. auto.
Qed.

End ExtraLoop.


Lemma X8_witness :
  exists h c,
    history (run script_host 1 base_session short_chat)
    = (h ++ [mkMessage "user" c])%list.
Proof.
  apply (X8_request_ends_with_user script_host base_session
           (script_world ["hi"] [Ret (the_response "done")]) [] 1).
  reflexivity.
Defined.



Lemma X11_witness :
  ctl (step script_host base_session (asking [Ret (the_response bad_args_reply)]))
  = Escaped (mkExn AttributeError "'str' object has no attribute 'items'").
Proof.
  rewrite (X11_args_not_dict_leaves script_host base_session
             (asking [Ret (the_response bad_args_reply)]) bad_args_reply
             bad_args_reply (the_response bad_args_reply) after_reply
             (JObj [("tool", JStr "read_file"); ("args", JStr "x.txt")])
             (JStr "read_file") (JStr "x.txt")).
  - reflexivity.
  - reflexivity.
  - repeat split. eexists. split; reflexivity.
  - reflexivity.
  - reflexivity.
  - reflexivity.
  - reflexivity.
  - reflexivity.
Defined.

Lemma X12_witness :
  ctl (step script_host base_session (asking [Ret null_content_response]))
  = Escaped (mkExn TypeError
               "expected string or bytes-like object, got 'NoneType'").
Proof.
  rewrite (X12_reply_not_text_leaves script_host base_session
             (asking [Ret null_content_response]) JNull
             null_content_response after_reply).
  - reflexivity.
  - reflexivity.
  - repeat split. eexists. split; reflexivity.
  - discriminate.
Defined.


Lemma X14_witness :
  exists url made,
    chat_endpoint url
    /\ log (run script_host 5 keyed_session
              (initial_state script_host writing_chat
                 [PrintPanel
                    (JStr ("Начат чат с ИИ-агентом [bold white]gpt-4[/bold white] (провайдер: openrouter)."
                           ++ LF
                           ++ "Введите [white]/back[/white] или [white]/exit[/white] для выхода."))]))
       = ([PrintPanel
             (JStr ("Начат чат с ИИ-агентом [bold white]gpt-4[/bold white] (провайдер: openrouter)."
                    ++ LF
                    ++ "Введите [white]/back[/white] или [white]/exit[/white] для выхода."))]
          ++ made)%list
    /\ Forall (posts_only url
                 (JObj [("Content-Type", JStr "application/json");
                        ("Authorization", JStr "Bearer sk-1")]))
         made.
Proof.
  apply (X14_requests_to_provider_only script_host (JStr "gpt-4") keyed_config
           _ keyed_session writing_chat 5).
  reflexivity.
Defined.

(* ------------------------------------------------------------------ *)
(** ** The list of models *)

Section ModelsProofs.

Context {E : Type}.
Variable host : Host E.
Variable plat : Platform E.

Lemma escape_text (name : json) (s : string) :
  escape plat name = Ret s -> is_text name.
Proof. destruct name; try discriminate. intros _. now eexists. Qed.

Lemma listed_rows_spec (kind : string) (models : list json) :
  forall rows names,
    listed_rows plat kind models = Ret (rows, names) ->
    length rows = length models
    /\ length names = length models
    /\ Forall is_text names
    /\ Forall (fun row => kind_of row = kind) rows.
Proof.
  induction models as [|m rest IH]; intros rows names; cbn [listed_rows].
  - intros [= <- <-]. repeat split; constructor.
  - destruct (py_get m (JStr "name") (JStr "N/A")) as [name|e];
      [|discriminate]. cbn [bind].
    destruct (escape plat name) as [escaped|e] eqn:He; [|discriminate].
    cbn [bind].
    destruct (py_get m (JStr "description") (JStr "Нет описания"))
      as [d|e]; [|discriminate]. cbn [bind].
    destruct (table_cell d) as [cell|e]; [|discriminate]. cbn [bind].
    destruct (listed_rows plat kind rest) as [[rows' names']|e];
      [|discriminate]. cbn [bind].
    intros [= <- <-]. destruct (IH rows' names' eq_refl) as (L1 & L2 & T & K).
    cbn [length]. repeat split; try congruence.
    + constructor; [now apply (escape_text name escaped)|exact T].
    + constructor; [reflexivity|exact K].
Qed.

Lemma gemini_rows_spec (models : list json) :
  forall rows names,
    gemini_rows host plat models = Ret (rows, names) ->
    length rows = length names
    /\ length names <= length models
    /\ Forall is_text names
    /\ Forall (fun name => py_truthy host name = true) names.
Proof.
  induction models as [|m rest IH]; intros rows names; cbn [gemini_rows].
  - intros [= <- <-]. repeat split; constructor.
  - destruct (py_get m (JStr "name") JNull) as [name|e]; [|discriminate].
    cbn [bind]. destruct (py_truthy host name) eqn:T.
    + destruct (escape plat name) as [escaped|e] eqn:He; [|discriminate].
      cbn [bind].
      destruct (gemini_rows host plat rest) as [[rows' names']|e];
        [|discriminate]. cbn [bind].
      intros [= <- <-].
      destruct (IH rows' names' eq_refl) as (L1 & L2 & Tx & Tr).
      cbn [length]. repeat split; try lia.
      * constructor; [now apply (escape_text name escaped)|exact Tx].
      * constructor; assumption.
    + intros H. destruct (IH rows names H) as (L1 & L2 & Tx & Tr).
      cbn [length]. repeat split; auto.
Qed.

Lemma community_flags_spec (models : list json) :
  forall flags,
    community_flags host models = Ret flags -> map fst flags = models.
Proof.
  induction models as [|m rest IH]; intros flags; cbn [community_flags].
  - intros [= <-]. reflexivity.
  - destruct (py_get m (JStr "community") JNull); [|discriminate].
    cbn [bind].
    destruct (community_flags host rest) as [more|e]; [|discriminate].
    cbn [bind]. intros [= <-]. cbn [map fst]. now rewrite (IH more).
Qed.

Lemma partition_length {A} (f : A -> bool) (l : list A) :
  length (filter (fun x => negb (f x)) l) + length (filter f l) = length l.
Proof.
  induction l as [|x l IH]; [reflexivity|]. cbn [filter].
  destruct (f x); cbn [negb length]; lia.
Qed.

(** For a known provider the function comes down to its [try]. *)
Lemma get_available_models_known (c : @Cli E) (p : string)
    (fields ps entry : list (string * json)) :
  cli_config c = JObj fields ->
  assoc_get "default_provider" fields = Some (JStr p) ->
  known_provider (JStr p) ->
  assoc_get "providers" fields = Some (JObj ps) ->
  assoc_get p ps = Some (JObj entry) ->
  get_available_models host plat c
  = fetch_models host plat (JStr p) (models_endpoint p)
      (models_headers host
         (match assoc_get "api_key" entry with
          | Some k => k
          | None => JNull
          end)) c.
Proof.
  intros Hc Hd Hk Hp He.
  unfold get_available_models, bindM, get_config, lift. rewrite Hc.
  cbn [py_get]. rewrite Hd, Hp. cbn [py_get]. rewrite He.
  change (py_get (JObj entry) (JStr "api_key") JNull)
    with (Ret (match assoc_get "api_key" entry with
               | Some k => k
               | None => JNull
               end) : res json).
  cbv iota.
  assert (Hm : exists urls,
             py_get PROVIDER_URLS (JStr p) (JObj []) = Ret urls
             /\ py_get urls (JStr "models") JNull
                = Ret (JStr (models_endpoint p))
             /\ models_endpoint p <> "").
  { destruct Hk as [Hk|[Hk|Hk]]; injection Hk as ->; eexists;
      (split; [reflexivity|]); (split; [reflexivity|]); discriminate. }
  destruct Hm as (urls & Hu1 & Hu2 & Hu3). rewrite Hu1, Hu2.
  cbn [py_truthy py_str]. apply String.eqb_neq in Hu3. rewrite Hu3.
  reflexivity.
Qed.

(** The [except] clauses catch what they name and show one line. *)
Lemma models_failed_caught (r : option Response) (e : exn) (c : @Cli E) :
  caught_by [RequestException; JSONDecodeError] e = true ->
  (caught_by [RequestException] e = false -> r <> None) ->
  exists line,
    models_failed r e c
    = (Ret [],
       mkCli (cli_config c) (cli_models c) (cli_world c)
         (cli_out c ++ [Out (Print line)])%list).
Proof.
  intros Hcaught Hr. unfold models_failed, models_clauses. cbn [find_clause].
  destruct (caught_by [RequestException] e) eqn:C1.
  - eexists. reflexivity.
  - assert (C2 : caught_by [JSONDecodeError] e = true).
    { unfold caught_by in *. cbn [existsb] in *.
      rewrite orb_false_r in *. now rewrite C1 in Hcaught. }
    rewrite C2. destruct r as [r|]; [|now elim (Hr eq_refl)].
    eexists. reflexivity.
Qed.

Lemma models_table_texts (provider models : json) rows names :
  models_table host plat provider models = Ret (rows, names) ->
  length rows = length names /\ Forall is_text names.
Proof.
  unfold models_table.
  destruct (py_iter models) as [items|e]; [|discriminate]. cbn [bind].
  destruct (is_str "gemini" provider).
  - intros H. apply gemini_rows_spec in H. tauto.
  - destruct (community_flags host items) as [flags|e]; [|discriminate].
    cbn [bind].
    destruct (listed_rows plat "Официальная" (official flags))
      as [[rows1 names1]|e] eqn:H1; [|discriminate]. cbn [bind].
    destruct (listed_rows plat "Сообщество" (community flags))
      as [[rows2 names2]|e] eqn:H2; [|discriminate]. cbn [bind].
    intros [= <- <-].
    apply listed_rows_spec in H1, H2.
    destruct H1 as (A1 & A2 & A3 & _), H2 as (B1 & B2 & B3 & _).
    split; [rewrite !length_app; lia|].
    apply Forall_app. split; assumption.
Qed.

Lemma models_failed_names (r : option Response) (e : exn) (c : @Cli E)
    (names : list json) :
  fst (models_failed r e c) = Ret names -> names = [].
Proof.
  unfold models_failed, models_clauses. cbn [find_clause].
  destruct (caught_by [RequestException] e).
  - intros [= <-]. reflexivity.
  - destruct (caught_by [JSONDecodeError] e).
    + unfold bindM, lift. destruct (bound_response r); [|discriminate].
      intros [= <-]. reflexivity.
    + discriminate.
Qed.

(** What [get_available_models] returns are texts. *)
Lemma get_available_models_texts (c : @Cli E) (names : list json) :
  fst (get_available_models host plat c) = Ret names ->
  Forall is_text names.
Proof.
  unfold get_available_models, bindM, get_config, lift.
  repeat match goal with
         | |- fst (match ?r with Ret _ => _ | Raise _ => _ end) = _ -> _ =>
             destruct r; [|discriminate]
         end.
  destruct (negb (py_truthy host a4)).
  - intros [= <-]. constructor.
  - unfold fetch_models.
    destruct (http_get plat _ _ c) as [[response|e] c1].
    + unfold list_models at 1. unfold bindM, lift.
      destruct (raise_for_status response) as [[]|e].
      * destruct (response_json response) as [data|e].
        -- match goal with
           | |- context [match ?r with Ret _ => _ | Raise _ => _ end] =>
               destruct r as [models|e]
           end.
           ++ destruct (models_table host plat a models) as [[rows ns]|e]
                eqn:T.
              ** cbn [fst snd say ret]. intros [= <-].
                 now apply models_table_texts in T.
              ** intros H. apply models_failed_names in H. subst.
                 constructor.
           ++ intros H. apply models_failed_names in H. subst. constructor.
        -- intros H. apply models_failed_names in H. subst. constructor.
      * intros H. apply models_failed_names in H. subst. constructor.
    + intros H. apply models_failed_names in H. subst. constructor.
Qed.

End ModelsProofs.

(* ================================================================== *)
(** * Properties of the command line *)

Section ExtraCli.

Context {E : Type}.
Variable host : Host E.
Variable plat : Platform E.

(** X15.  [save_config] changes no file but the configuration file, and
    when it returns, that file holds the complete JSON text of the
    configuration (no exception cut the encoding short). *)
Theorem X15_save_config_writes (config : json) (w : World E) :
  same_files_but (CONFIG_FILE host) w (snd (save_config host plat config w))
  /\ (fst (save_config host plat config w) = Ret tt ->
      files (snd (save_config host plat config w)) (CONFIG_FILE host)
      = Some (fst (json_dump (float_repr plat) config))
      /\ snd (json_dump (float_repr plat) config) = None).
Proof. apply save_config_files. Qed.




End ExtraCli.

Section ExtraMain.

Context {E : Type}.
Variable host : Host E.
Variable plat : Platform E.

(** X19.  The settings are changed in memory before they are saved: when
    the saving of an accepted [/settings set api_key] fails, [main]
    reports the exception as an unexpected error and is at its prompt
    again with the new key in the configuration, which the file does not
    have. *)
Theorem X19_failed_save_keeps_setting (m : @Main E)
    (line word setting name value : string) (values : list string) (e' : E)
    (fields ps entry : list (string * json)) (err : exn) :
  mode_of m = AtPrompt ->
  console_input host (env (cli_world (cli m))) = (Ret line, e') ->
  py_split (py_strip line)
  = word :: "set" :: setting :: name :: value :: values ->
  py_lower plat word = "/settings" ->
  py_lower plat setting = "api_key" ->
  cli_config (cli m) = JObj fields ->
  assoc_get "providers" fields = Some (JObj ps) ->
  assoc_get (py_lower plat name) ps = Some (JObj entry) ->
  fst (save_config host plat
         (with_field fields ps entry (py_lower plat name) "api_key" value)
         (mkWorld (files (cli_world (cli m))) e'))
  = Raise err ->
  mode_of (main_step host plat m) = AtPrompt
  /\ cli_config (cli (main_step host plat m))
     = with_field fields ps entry (py_lower plat name) "api_key" value
  /\ cli_out (cli (main_step host plat m))
     = (cli_out (cli m)
        ++ [Out (Print ("[bold red]Произошла непредвиденная ошибка: "
                        ++ markup_escape plat (msg err) ++ "[/bold red]"));
            Traceback err])%list.
Proof.
  intros Hm Hi Hs Hw Hk Hc Hp He Hf.
  rewrite (settings_step host plat m line word _ e' Hm Hi Hs Hw).
  rewrite (settings_set_key host plat (after_input (cli m) e') setting name
             value values fields ps entry Hk Hc Hp He).
  unfold stored. cbn [after_input cli_world cli_models cli_out cli_config].
  destruct (save_config host plat _ (mkWorld (files (cli_world (cli m))) e'))
    as [r w']. cbn [fst] in Hf. subst r.
  unfold unexpected, bindM, print, say.
  cbn [snd mode_of cli cli_config cli_out cli_models cli_world].
  rewrite <- app_assoc. repeat split.
Qed.



(** X22.  A line of whitespace only is ignored: nothing is shown and
    nothing changes.  Every other line has a first word after [strip] and
    [split], and no empty one, so that [parts[0]] never raises and the
    line is handled as the command of that word. *)
Theorem X22_blank_lines_and_words (m : @Main E) (line : string) (e' : E) :
  mode_of m = AtPrompt ->
  console_input host (env (cli_world (cli m))) = (Ret line, e') ->
  (is_blank line = true ->
   main_step host plat m = mkMain AtPrompt (after_input (cli m) e'))
  /\ (is_blank line = false ->
      exists word args,
        py_split (py_strip line) = word :: args
        /\ word <> ""
        /\ command host plat line
           = run_command host plat (py_lower plat word) args).
Proof.
  intros Hm Hi. split; intros B.
  - rewrite (main_step_line host plat m line e' Hm Hi).
    now rewrite (command_blank host plat line B).
  - destruct (stripped_words line B) as (word & args & Hs).
    exists word, args. split; [exact Hs|]. split.
    + apply (split_nonempty (py_strip line)). rewrite Hs. left. reflexivity.
    + now apply command_words.
Qed.

(** X23.  What [main] keeps in memory changes only under its own command:
    the configuration in an iteration whose command is [/settings], the
    list of models in one whose command is [/models]; and a file changes
    only in a [/settings] iteration or in a chat.  No other command, no
    error and no chat touches them. *)
Theorem X23_changes_need_their_command (m : @Main E) :
  (cli_config (cli (main_step host plat m)) <> cli_config (cli m) ->
   typed_command host plat m "/settings")
  /\ (cli_models (cli (main_step host plat m)) <> cli_models (cli m) ->
      typed_command host plat m "/models")
  /\ (files (cli_world (cli (main_step host plat m)))
      <> files (cli_world (cli m)) ->
      typed_command host plat m "/settings"
      \/ exists s st, mode_of m = InChat s st).
Proof.
  destruct (mode_of m) as [|s st|] eqn:Hmode.
  - destruct (console_input host (env (cli_world (cli m))))
      as [[line|e] e'] eqn:Hi.
    + rewrite (main_step_line host plat m line e' Hmode Hi).
      destruct (command_cases host plat line) as [[_ Hb]|(w & a & Hs & Hc)].
      * rewrite Hb. cbn [ret cli after_input cli_config cli_models cli_world
                           files].
        (split; [|split]); intros H; now elim H.
      * rewrite Hc.
        assert (Htyped : forall name, py_lower plat w = name ->
                                      typed_command host plat m name).
        { intros name Hn. split; [exact Hmode|].
          exists line, e', w, a. auto. }
        assert (Hcli : forall (r : res next) (c : @Cli E),
                  let m' := match r with
                            | Ret Stay => mkMain AtPrompt c
                            | Ret Leave => mkMain Exited c
                            | Ret (Enter s shown) =>
                                mkMain (InChat s (initial_state host
                                                    (cli_world c) shown)) c
                            | Raise e =>
                                mkMain AtPrompt (snd (unexpected plat e c))
                            end in
                  cli_config (cli m') = cli_config c
                  /\ cli_models (cli m') = cli_models c
                  /\ cli_world (cli m') = cli_world c).
        { intros [[| |s shown]|e] c; repeat split. }
        pose proof (run_command_stored host plat (py_lower plat w) a) as Hst.
        pose proof (run_command_models host plat (py_lower plat w) a) as Hmo.
        destruct (run_command host plat (py_lower plat w) a
                    (after_input (cli m) e')) as [r c] eqn:Hr.
        destruct (Hcli r c) as (C1 & C2 & C3).
        cbv zeta in C1, C2, C3. rewrite C1, C2, C3.
        assert (Hs1 : py_lower plat w <> "/settings" ->
                      same_stored (after_input (cli m) e') c).
        { intros Hn. specialize (Hst Hn (after_input (cli m) e')).
          now rewrite Hr in Hst. }
        assert (Hm1 : py_lower plat w <> "/models" ->
                      same_models (after_input (cli m) e') c).
        { intros Hn. specialize (Hmo Hn (after_input (cli m) e')).
          now rewrite Hr in Hmo. }
        (split; [|split]); intros H.
        -- destruct (String.eqb (py_lower plat w) "/settings") eqn:K.
           ++ apply Htyped. now apply String.eqb_eq.
           ++ apply String.eqb_neq in K. destruct (Hs1 K) as [S1 _].
              now elim H.
        -- destruct (String.eqb (py_lower plat w) "/models") eqn:K.
           ++ apply Htyped. now apply String.eqb_eq.
           ++ apply String.eqb_neq in K. now elim H; apply (Hm1 K).
        -- left. destruct (String.eqb (py_lower plat w) "/settings") eqn:K.
           ++ apply Htyped. now apply String.eqb_eq.
           ++ apply String.eqb_neq in K. destruct (Hs1 K) as [_ S2].
              now elim H.
    + rewrite (main_step_no_line host plat m e e' Hmode Hi).
      (split; [|split]); intros H; now elim H.
  - unfold main_step. rewrite Hmode.
    (split; [|split]); intros H; try (right; eauto; fail);
      destruct (ctl st); now elim H.
  - unfold main_step. rewrite Hmode. (split; [|split]); intros H; now elim H.
Qed.

(** X24.  When [main] reaches its prompt, the configuration in memory is
    the one that [load_config] returned, and it has just been written
    back: the configuration file holds its complete JSON text (so that
    defaults and back-filled providers are on disk from the first start),
    no other file was touched, the list of models is empty and the banner
    has been shown, followed by at most one line, the warning about a
    missing key. *)
Theorem X24_startup_persists (w w' : World E) (m : @Main E) :
  main_start host plat w = (Ret m, w') ->
  load_config host w = Ret (cli_config (cli m))
  /\ mode_of m = AtPrompt
  /\ cli_models (cli m) = []
  /\ cli_world (cli m) = w'
  /\ files w' (CONFIG_FILE host)
     = Some (fst (json_dump (float_repr plat) (cli_config (cli m))))
  /\ same_files_but (CONFIG_FILE host) w w'
  /\ exists warning,
       cli_out (cli m) = Banner :: warning /\ length warning <= 1.
Proof.
  unfold main_start, bindM, lift.
  destruct (load_config host w) as [config|e]; [|discriminate].
  pose proof (save_config_files host plat config w) as [Hsame Hfile].
  destruct (save_config host plat config w) as [[[]|e] w1];
    [|discriminate]. cbn [fst snd] in *.
  destruct (py_get config (JStr "default_provider") JNull) as [provider|e];
    [|discriminate].
  destruct (py_get config (JStr "providers") (JObj [])) as [providers|e];
    [|discriminate].
  destruct (py_get providers provider (JObj [])) as [provider_config|e];
    [|discriminate].
  destruct (py_get provider_config (JStr "api_key") JNull) as [key|e];
    [|discriminate].
  intros [= <- <-]. cbn [cli mode_of cli_config cli_models cli_world cli_out].
  destruct (Hfile eq_refl) as [Hf _].
  repeat split; auto.
  destruct (py_truthy host key); eexists; split; try reflexivity;
    cbn [length]; lia.
Qed.

End ExtraMain.




Lemma X19_witness :
  mode_of (main_step cli_host cli_platform
             (at_prompt ["/settings set api_key openrouter sk-2"] []
                read_only_config))
  = AtPrompt
  /\ cli_config
       (cli (main_step cli_host cli_platform
               (at_prompt ["/settings set api_key openrouter sk-2"] []
                  read_only_config)))
     = with_field keyed_fields keyed_providers
         [("api_key", JStr "sk-1"); ("model", JStr "m1")]
         "openrouter" "api_key" "sk-2"
  /\ cli_out
       (cli (main_step cli_host cli_platform
               (at_prompt ["/settings set api_key openrouter sk-2"] []
                  read_only_config)))
     = [Out (Print ("[bold red]Произошла непредвиденная ошибка: "
                    ++ "[Errno 13] Permission denied: 'meowcli/config.json'"
                    ++ "[/bold red]"));
        Traceback (mkExn PermissionError
                     "[Errno 13] Permission denied: 'meowcli/config.json'")].
Proof.
  apply (X19_failed_save_keeps_setting cli_host cli_platform
           (at_prompt ["/settings set api_key openrouter sk-2"] []
              read_only_config)
           "/settings set api_key openrouter sk-2" "/settings" "api_key"
           "openrouter" "sk-2" [] (mkScript [] [] read_only_config)
           keyed_fields keyed_providers
           [("api_key", JStr "sk-1"); ("model", JStr "m1")]
           (mkExn PermissionError
              "[Errno 13] Permission denied: 'meowcli/config.json'"));
    reflexivity.
Defined.



Lemma X22_witness :
  main_step cli_host cli_platform (at_prompt ["   "; "/exit"] [] [])
  = mkMain AtPrompt
      (after_input (cli (at_prompt ["   "; "/exit"] [] []))
         (mkScript ["/exit"] [] []))
  /\ exists word args,
       py_split (py_strip " /Help  me ") = word :: args
       /\ word <> ""
       /\ command cli_host cli_platform " /Help  me "
          = run_command cli_host cli_platform (py_lower cli_platform word)
              args.
Proof.
  split.
  - apply (proj1 (X22_blank_lines_and_words cli_host cli_platform
                    (at_prompt ["   "; "/exit"] [] []) "   "
                    (mkScript ["/exit"] [] []) eq_refl eq_refl)).
    reflexivity.
  - apply (proj2 (X22_blank_lines_and_words cli_host cli_platform
                    (at_prompt [" /Help  me "] [] []) " /Help  me "
                    (mkScript [] [] []) eq_refl eq_refl)).
    reflexivity.
Defined.

Lemma X23_witness :
  typed_command cli_host cli_platform
    (at_prompt ["/settings set provider gemini"] [] []) "/settings".
Proof.
  apply (proj1 (X23_changes_need_their_command cli_host cli_platform
                  (at_prompt ["/settings set provider gemini"] [] []))).
  vm_compute. discriminate.
Defined.

Lemma X24_witness :
  load_config cli_host (mkWorld no_files after_reply) = Ret default_config
  /\ files (snd (main_start cli_host cli_platform
                   (mkWorld no_files after_reply))) "meowcli/config.json"
     = Some (fst (json_dump (fun l => l) default_config))
  /\ exists warning,
       cli_out (cli (mkMain AtPrompt
                       (mkCli default_config []
                          (snd (main_start cli_host cli_platform
                                  (mkWorld no_files after_reply)))
                          [Banner;
                           Out (Print
                                  ("[bold #ffb6c1]API ключ для провайдера 'base' не найден. Пожалуйста, установите его с помощью команды /settings set api_key base <ваш_ключ>[/bold #ffb6c1]"))])))
       = Banner :: warning /\ length warning <= 1.
Proof.
  destruct (X24_startup_persists cli_host cli_platform
              (mkWorld no_files after_reply)
              (snd (main_start cli_host cli_platform
                      (mkWorld no_files after_reply)))
              (mkMain AtPrompt
                 (mkCli default_config []
                    (snd (main_start cli_host cli_platform
                            (mkWorld no_files after_reply)))
                    [Banner;
                     Out (Print
                            ("[bold #ffb6c1]API ключ для провайдера 'base' не найден. Пожалуйста, установите его с помощью команды /settings set api_key base <ваш_ключ>[/bold #ffb6c1]"))]))
              eq_refl)
    as (H1 & _ & _ & _ & H5 & _ & H7).
  split; [exact H1|]. split; [exact H5|exact H7].
Defined.

Section ExtraModels.

Context {E : Type}.
Variable host : Host E.
Variable plat : Platform E.


(** X26.  What [get_available_models] returns are texts, one for each
    row of the table it shows.  For gemini no empty name is listed.  For
    the other providers every model of the answer gets a row, and the
    rows of the official models all come before those of the community
    models. *)
Theorem X26_models_table (provider models : json)
    (rows : list (list string)) (names : list json) :
  models_table host plat provider models = Ret (rows, names) ->
  length rows = length names
  /\ Forall is_text names
  /\ (is_str "gemini" provider = true ->
      Forall (fun name => py_truthy host name = true) names)
  /\ (is_str "gemini" provider = false ->
      exists items rows1 rows2,
        py_iter models = Ret items
        /\ length rows = length items
        /\ rows = (rows1 ++ rows2)%list
        /\ Forall (fun row => kind_of row = "Официальная") rows1
        /\ Forall (fun row => kind_of row = "Сообщество") rows2)
  /\ forall (c : @Cli E) (listed : list json),
       fst (get_available_models host plat c) = Ret listed ->
       Forall is_text listed.
Proof.
  intros H. destruct (models_table_texts host plat _ _ _ _ H) as [L T].
  split; [exact L|]. split; [exact T|].
  split; [|split; [|apply get_available_models_texts]].
  - intros G. unfold models_table in H.
    destruct (py_iter models) as [items|e]; [|discriminate].
    cbn [bind] in H. rewrite G in H.
    apply gemini_rows_spec in H. tauto.
  - intros G. unfold models_table in H.
    destruct (py_iter models) as [items|e]; [|discriminate].
    cbn [bind] in H. rewrite G in H.
    destruct (community_flags host items) as [flags|e] eqn:F;
      [|discriminate]. cbn [bind] in H.
    destruct (listed_rows plat "Официальная" (official flags))
      as [[rows1 names1]|e] eqn:H1; [|discriminate]. cbn [bind] in H.
    destruct (listed_rows plat "Сообщество" (community flags))
      as [[rows2 names2]|e] eqn:H2; [|discriminate]. cbn [bind] in H.
    injection H as <- <-.
    apply listed_rows_spec in H1, H2.
    destruct H1 as (A1 & _ & _ & A4), H2 as (B1 & _ & _ & B4).
    exists items, rows1, rows2. repeat split; auto.
    rewrite length_app, A1, B1. unfold official, community.
    rewrite !length_map.
    rewrite (partition_length (fun f : json * bool => snd f) flags).
    rewrite <- (community_flags_spec host items flags F).
    now rewrite length_map.
Qed.

End ExtraModels.


Lemma X26_witness :
  length [["b"; "Нет описания"; "Официальная"]; ["a"; ""; "Сообщество"]]
  = length [JStr "b"; JStr "a"]
  /\ Forall is_text [JStr "b"; JStr "a"].
Proof.
  destruct (X26_models_table cli_host cli_platform (JStr "base")
              (JArr [JObj [("name", JStr "a"); ("community", JBool true);
                           ("description", JNull)];
                     JObj [("name", JStr "b")]])
              [["b"; "Нет описания"; "Официальная"]; ["a"; ""; "Сообщество"]]
              [JStr "b"; JStr "a"] eq_refl) as (H1 & H2 & _).
  split; assumption.
Defined.

Section ExtraShow.

Context {E : Type}.
Variable host : Host E.
Variable plat : Platform E.

(** X27.  [/settings show] never shows a stored key of more than seven
    characters in full: in the row of the key of such a provider the
    table has the first four characters, three dots and the last three
    characters, ten characters in all; and showing the settings changes
    neither the configuration nor a file. *)
Theorem X27_show_masks_keys (key : string) :
  7 < py_len key ->
  key_display host plat (JStr key) = Ret (JStr (mask_key key))
  /\ py_len (mask_key key) = 10
  /\ (forall name entry rest rows,
        assoc_get "api_key" entry = Some (JStr key) ->
        provider_rows host plat ((name, JObj entry) :: rest) = Ret rows ->
        nth 1 rows [] = ["  API ключ"; mask_key key])
  /\ forall c : @Cli E, untouched c (snd (settings_show host plat c)).
Proof.
  intros Hlen.
  assert (Hne : key <> "") by (intros ->; cbn in Hlen; lia).
  assert (Hd : key_display host plat (JStr key) = Ret (JStr (mask_key key))).
  { unfold key_display. cbn [py_truthy py_len_of bind].
    apply String.eqb_neq in Hne. rewrite Hne. cbn [negb].
    apply Nat.ltb_lt in Hlen. now rewrite Hlen. }
  split; [exact Hd|]. split; [now apply py_len_mask_key|].
  split; [|apply settings_show_only_says].
  intros name entry rest rows Ha. cbn [provider_rows].
  unfold py_get at 1. rewrite Ha. cbn [bind]. rewrite Hd. cbn [bind].
  unfold py_or at 1. cbn [py_truthy].
  pose proof (mask_key_not_empty key) as Hm.
  apply String.eqb_neq in Hm. rewrite Hm. cbn [negb table_cell bind].
  destruct (py_get (JObj entry) (JStr "model") JNull) as [model|e];
    [|discriminate]. cbn [bind].
  destruct (table_cell _) as [cell|e]; [|discriminate]. cbn [bind].
  destruct (provider_rows host plat rest) as [more|e]; [|discriminate].
  cbn [bind]. intros [= <-]. reflexivity.
Qed.

End ExtraShow.

Lemma X27_witness :
  key_display cli_host cli_platform (JStr "sk-or-v1-0123456789")
  = Ret (JStr "sk-o...789")
  /\ py_len "sk-o...789" = 10.
Proof.
  destruct (X27_show_masks_keys cli_host cli_platform "sk-or-v1-0123456789")
    as (H1 & H2 & _).
  - apply Nat.ltb_lt. reflexivity.
  - split; [exact H1|exact H2].
Defined.

(* ================================================================== *)
(** * The configuration file, written and read back *)

Section ExtraDump.

Context {E : Type}.
Variable host : Host E.
Variable plat : Platform E.

(** X28.  What [json.dump(..., indent=4)] writes for a value without
    floats, with integers of at most 4300 digits, ASCII texts and ASCII
    keys is written completely (the encoder raises nothing), and
    [json.loads] reads that text back as the very same value: lists in
    their order, dicts with their keys in their order. *)
Theorem X28_dump_then_load (v : json) :
  storable v = true ->
  snd (json_dump (float_repr plat) v) = None
  /\ json_loads (fst (json_dump (float_repr plat) v)) = Ret v.
Proof. apply loads_dumped. Qed.

(** X29.  A configuration that [save_config] has saved is the one that
    [load_config] returns afterwards: when the call of [save_config]
    returned and the file can be opened for reading, [load_config] gives
    the saved dict with the default providers that it lacks filled in,
    and the saved dict itself when it lists all of them.  (The
    configuration is a dict with a dict of providers, without floats and
    with ASCII texts.) *)
Theorem X29_saved_config_loads (fields ps : list (string * json))
    (w : World E) :
  storable (JObj fields) = true ->
  assoc_get "providers" fields = Some (JObj ps) ->
  fst (save_config host plat (JObj fields) w) = Ret tt ->
  os_refuses host (env (snd (save_config host plat (JObj fields) w)))
    (OpOpenRead (CONFIG_FILE host)) = None ->
  load_config host (snd (save_config host plat (JObj fields) w))
  = Ret (JObj (assoc_set "providers" (JObj (backfilled ps)) fields))
  /\ ((forall q, assoc_mem q default_providers = true ->
                 assoc_mem q ps = true) ->
      load_config host (snd (save_config host plat (JObj fields) w))
      = Ret (JObj fields)).
Proof.
  intros Hst Hp Hret Hopen.
  destruct (save_config_files host plat (JObj fields) w) as [_ Hsaved].
  destruct (Hsaved Hret) as [Hfile _].
  destruct (loads_dumped (float_repr plat) _ Hst) as [_ Hload].
  assert (Hback :
            load_config host (snd (save_config host plat (JObj fields) w))
            = Ret (JObj (assoc_set "providers" (JObj (backfilled ps))
                           fields))).
  { unfold load_config, path_exists. rewrite Hfile.
    unfold open_read, as_path. cbn [bind]. rewrite Hopen, Hfile.
    cbn [bind]. rewrite Hload. cbn [bind].
    rewrite (backfill_all_shape _ _ Hp). reflexivity. }
  split; [exact Hback|]. intros Hall. rewrite Hback.
  assert (Hps : backfilled ps = ps).
  { unfold backfilled, default_providers. cbn [fold_left fst snd].
    rewrite (Hall "base" eq_refl), (Hall "openrouter" eq_refl),
      (Hall "gemini" eq_refl). reflexivity. }
  rewrite Hps, (assoc_set_get _ _ _ Hp). reflexivity.
Qed.

End ExtraDump.

Lemma X28_witness :
  json_loads (fst (json_dump (fun l => l) (JObj keyed_fields)))
  = Ret (JObj keyed_fields).
Proof.
  apply (proj2 (X28_dump_then_load cli_platform (JObj keyed_fields) eq_refl)).
Defined.

Lemma X29_witness :
  load_config cli_host
    (snd (save_config cli_host cli_platform (JObj keyed_fields)
            (mkWorld no_files (mkScript [] [] []))))
  = Ret (JObj keyed_fields).
Proof.
  apply (proj2 (X29_saved_config_loads cli_host cli_platform keyed_fields
                  keyed_providers (mkWorld no_files (mkScript [] [] []))
                  eq_refl eq_refl eq_refl eq_refl)).
  intros q Hq. unfold assoc_mem in *. cbn [assoc_get default_providers] in Hq.
  cbn [assoc_get keyed_providers].
  destruct (String.eqb q "base"); [reflexivity|].
  destruct (String.eqb q "openrouter"); [reflexivity|].
  destruct (String.eqb q "gemini"); [reflexivity|discriminate].
Defined.
